(** * PR-analysis: relevance scoring, impact selection and change classification

    A shallow embedding of the scoring core of the AI Testing Companion
    ([backend/services/testrail-service.js], [backend/services/bitbucket-service.js])
    and the proofs of its specified properties.

    Conventions of the embedding.
    - A JavaScript string is the list of its UTF-16 code units ([jsstring]).
      [toLowerCase] is modelled on the ASCII range (A-Z to a-z) and leaves every
      other code unit alone; JavaScript agrees with this on all text without
      cased letters outside ASCII.  [toUpperCase], which can change the length
      of other text, is a parameter of the function that calls it.
    - [x || ''] on a field that may be missing is an [option] read with a default.
    - Counts and scores are integers ([Z]).  The one formula with a fraction,
      the risk score of [analyzePR], is computed in the rationals ([Q]); the
      module [Double] holds the same formula in double precision, to check
      the values used in examples against the arithmetic of the source.
    - A JavaScript [Set] used for de-duplication of an array keeps the first
      occurrence of each element, in order ([uniq]); a [Set] of test-case ids
      used only for membership is a [gset Z].
    - An object enumerated with [Object.entries] is the association list of its
      entries in enumeration order; an object used as a map from section paths
      to lists is the [gmap] of its own properties, read through [readProp],
      which also sees the properties inherited from [Object.prototype].
    - A function that can throw returns an [option]; [None] is the throw.
    - Network calls and console output are not modelled: the functions start
      from the data the calls have returned. *)

From Stdlib Require Import ZArith NArith QArith Qround List String Ascii Bool Lia Sorted.
From Stdlib Require Floats Uint63.
From stdpp Require Import base list gmap.

Local Open Scope Z_scope.

#[local] Set Warnings "-clear-no-such-hyp".

(** ** JavaScript strings *)

Module Js.

Definition char := N.
Definition jsstring := list char.

(** A string literal of the source (ASCII). *)
Definition lit (s : string) : jsstring :=
  List.map N_of_ascii (list_ascii_of_string s).

Fixpoint str_eqb (a b : jsstring) : bool :=
  match a, b with
  | [], [] => true
  | x :: a', y :: b' => N.eqb x y && str_eqb a' b'
  | _, _ => false
  end.

(** [list.indexOf(s) >= 0], [Array.prototype.includes], [Set.prototype.has]. *)
Definition mem (s : jsstring) (l : list jsstring) : bool :=
  List.existsb (str_eqb s) l.

(** [[...new Set(l)]]: first occurrences, in order. *)
Fixpoint uniq_from (seen : list jsstring) (l : list jsstring) : list jsstring :=
  match l with
  | [] => []
  | x :: r => if mem x seen then uniq_from seen r else x :: uniq_from (x :: seen) r
  end.

Definition uniq (l : list jsstring) : list jsstring := uniq_from [] l.

(** A value is truthy: a non-empty string, a non-zero number. *)
Definition truthy (s : jsstring) : bool :=
  match s with [] => false | _ => true end.

Definition is_upper (c : char) : bool := N.leb 65 c && N.leb c 90.
Definition is_lower (c : char) : bool := N.leb 97 c && N.leb c 122.
Definition is_digit (c : char) : bool := N.leb 48 c && N.leb c 57.

Definition lower_char (c : char) : char :=
  if is_upper c then (c + 32)%N else c.

Definition toLowerCase (s : jsstring) : jsstring := List.map lower_char s.

(** The regular-expression class [\s], which is also what [trim] strips. *)
Definition is_space (c : char) : bool :=
  (N.leb 9 c && N.leb c 13) || N.eqb c 32 || N.eqb c 160 || N.eqb c 5760
  || (N.leb 8192 c && N.leb c 8202) || N.eqb c 8232 || N.eqb c 8233
  || N.eqb c 8239 || N.eqb c 8287 || N.eqb c 12288 || N.eqb c 65279.

(** The regular-expression class [\w]. *)
Definition is_word (c : char) : bool :=
  is_upper c || is_lower c || is_digit c || N.eqb c 95.

Fixpoint startsWith (p s : jsstring) : bool :=
  match p, s with
  | [], _ => true
  | a :: p', b :: s' => N.eqb a b && startsWith p' s'
  | _ :: _, [] => false
  end.

Definition endsWith (s suf : jsstring) : bool :=
  startsWith (rev suf) (rev s).

Fixpoint includes (s sub : jsstring) : bool :=
  startsWith sub s ||
  match s with
  | [] => false
  | _ :: s' => includes s' sub
  end.

Fixpoint trimStart (s : jsstring) : jsstring :=
  match s with
  | c :: r => if is_space c then trimStart r else s
  | [] => []
  end.

Definition trim (s : jsstring) : jsstring :=
  rev (trimStart (rev (trimStart s))).

Fixpoint span (p : char -> bool) (s : jsstring) : nat :=
  match s with
  | c :: r => if p c then S (span p r) else O
  | [] => O
  end.

(** [String.prototype.split] with a separator that never matches the empty
    string.  [m s] is the length of the separator match at the start of [s]
    ([O] when there is none).  The scan keeps [cur], the characters since the
    last separator (reversed), and [skip], how many characters of the current
    separator match are still to be dropped. *)
Fixpoint splitWith (m : jsstring -> nat) (skip : nat) (cur : jsstring)
    (s : jsstring) : list jsstring :=
  match s with
  | [] => [rev cur]
  | c :: r =>
      match skip with
      | S k => splitWith m k cur r
      | O =>
          match m s with
          | O => splitWith m O (c :: cur) r
          | S k => rev cur :: splitWith m k [] r
          end
      end
  end.

(** Separator [/[class]/]. *)
Definition sep_class (p : char -> bool) (s : jsstring) : nat :=
  match s with
  | c :: _ => if p c then 1%nat else O
  | [] => O
  end.

(** Separator [/[class]+/]. *)
Definition sep_class_plus (p : char -> bool) (s : jsstring) : nat := span p s.

(** Separator given as a (non-empty) string. *)
Definition sep_string (sep : jsstring) (s : jsstring) : nat :=
  if startsWith sep s then length sep else O.

Definition split_class (p : char -> bool) (s : jsstring) : list jsstring :=
  splitWith (sep_class p) O [] s.

Definition split_class_plus (p : char -> bool) (s : jsstring) : list jsstring :=
  splitWith (sep_class_plus p) O [] s.

Definition split_string (sep : jsstring) (s : jsstring) : list jsstring :=
  splitWith (sep_string sep) O [] s.

(** [s.split(/(?=[A-Z])/)]: cut before every capital letter that is not at the
    start of the current piece. *)
Fixpoint split_before_upper_from (cur : jsstring) (s : jsstring) : list jsstring :=
  match s with
  | [] => [rev cur]
  | c :: r =>
      if is_upper c && truthy cur
      then rev cur :: split_before_upper_from [c] r
      else split_before_upper_from (c :: cur) r
  end.

Definition split_before_upper (s : jsstring) : list jsstring :=
  split_before_upper_from [] s.

(** [l.join(sep)]. *)
Fixpoint join (sep : jsstring) (l : list jsstring) : jsstring :=
  match l with
  | [] => []
  | [x] => x
  | x :: r => x ++ sep ++ join sep r
  end.

(** [l.pop()] on the result of a split (never empty). *)
Definition last_part (l : list jsstring) : jsstring := List.last l [].

(** [s.replace(/\.[^/.]+$/, '')]: drop a final extension. *)
Fixpoint strip_extension (s : jsstring) : jsstring :=
  match s with
  | [] => []
  | c :: r =>
      if N.eqb c 46 && truthy r
         && List.forallb (fun d => negb (N.eqb d 47 || N.eqb d 46)) r
      then []
      else c :: strip_extension r
  end.

(** [/^[a-z0-9]+$/.test(s)]. *)
Definition is_alnum_lower (s : jsstring) : bool :=
  truthy s && List.forallb (fun c => is_lower c || is_digit c) s.

(** Search for [w] at a word boundary ([\b] before it, and after it when
    [close] is set); [prev] tells whether the preceding character is a word
    character. *)
Fixpoint find_word (w : jsstring) (close : bool) (prev : bool) (s : jsstring) : bool :=
  (negb prev && startsWith w s &&
   (if close
    then match List.skipn (length w) s with
         | [] => true
         | c :: _ => negb (is_word c)
         end
    else true))
  ||
  match s with
  | [] => false
  | c :: r => find_word w close (is_word c) r
  end.

(** A word for a class of separators: not empty, no separator character. *)
Definition word_of (sep : char -> bool) (w : jsstring) : Prop :=
  w <> [] /\ Forall (fun c => sep c = false) w.

End Js.

Import Js.

(** Reading a field that may be missing: [x || '']. *)
Definition orEmpty (o : option jsstring) : jsstring := default [] o.

(** ** Keyword extraction ([extractSignificantKeywords]) *)

Definition stopWords : list jsstring :=
  List.map lit
    ["the"; "and"; "for"; "are"; "but"; "not"; "you"; "all"; "can"; "has"; "was"; "were";
     "been"; "have"; "this"; "that"; "with"; "from"; "they"; "will"; "would"; "there";
     "their"; "what"; "which"; "when"; "where"; "should"; "could"; "make"; "made";
     "able"; "about"; "into"; "than"; "them"; "these"; "those"; "does"; "done"]%string.

(** The separator class of [/[\s,.-]+/]. *)
Definition is_keyword_sep (c : char) : bool :=
  is_space c || N.eqb c 44 || N.eqb c 46 || N.eqb c 45.

(** The filter of [extractSignificantKeywords]: four characters or more,
    lower-case alphanumeric, not a stop word. *)
Definition significant (word : jsstring) : bool :=
  Nat.leb 4 (length word) && is_alnum_lower word && negb (mem word stopWords).

Definition extractSignificantKeywords (text : jsstring) : list jsstring :=
  if negb (truthy text) then []
  else
    let words :=
      List.filter significant (split_class_plus is_keyword_sep (toLowerCase text)) in
    uniq words.

(** ** Impact selection ([getImpactedTestCases]) *)

(** A test case of the inventory as [getImpactedTestCases] holds it once the
    suite has been fetched and every case carries the path of its section
    ([sectionPath] is then always a string, empty when the section is
    unknown). *)
Record TestCase := mkTestCase {
  tc_id : Z;
  tc_title : option jsstring;
  tc_refs : option jsstring;
  tc_sectionPath : jsstring
}.

(** An entry of the traceability matrix: [{ tags: [...] }], where [tags] may
    be missing. *)
Record TrComponent := mkTrComponent {
  tr_tags : option (list jsstring)
}.

(** The fields of [options] that the function reads ([components] and
    [keywords] are destructured but only logged).  [opt_jiraId] is [None]
    when no ticket id is given; [opt_prCategory] is [None] when the caller
    leaves it out, in which case the default ['Relaxed PR'] applies. *)
Record Options := mkOptions {
  opt_jiraId : option jsstring;
  opt_changedFiles : list jsstring;          (* the [path] of each changed file *)
  opt_componentMapping : list (jsstring * TrComponent);
                                             (* [traceabilityMatrix.components || {}] *)
  opt_jiraTitle : jsstring;
  opt_prCategory : option jsstring;
  opt_jiraComponents : list jsstring
}.

Inductive MatchType := jira_reference | component_with_keywords.

(** What the function pushes into its result lists: the test case with the
    match annotations spread over it. *)
Record ImpactEntry := mkImpactEntry {
  e_case : TestCase;
  e_matchType : MatchType;
  e_matchReason : jsstring;
  e_priority : Z;
  e_matchedComponent : option jsstring;
  e_matchedKeywords : list jsstring;
  e_matchedFileKeywords : list jsstring
}.

Definition e_id (e : ImpactEntry) : Z := tc_id (e_case e).

(** The object the function returns. *)
Record Results := mkResults {
  directJiraMatch : list ImpactEntry;
  componentMatch : list ImpactEntry;
  componentWithKeywords : list ImpactEntry;
  allCases : list ImpactEntry;
  groupedByModule : gmap jsstring (list ImpactEntry)
}.

(** The object [categoryLimits], as the list of its own properties. *)
Definition categoryLimits : list (jsstring * Z) :=
  [(lit "Relaxed PR", 20); (lit "Sleepy PR", 30); (lit "Sarcastic PR", 40);
   (lit "Overloaded PR", 60); (lit "Angry PR", 80)].

Fixpoint assoc {A} (k : jsstring) (l : list (jsstring * A)) : option A :=
  match l with
  | [] => None
  | (k', v) :: r => if str_eqb k k' then Some v else assoc k r
  end.

(** The properties that a plain object inherits from [Object.prototype]
    (as Node.js has them).  Read on an object that has no own property of
    that name, each gives a function, and [__proto__] the prototype itself:
    a truthy value in every case. *)
Definition objectPrototypeKeys : list jsstring :=
  List.map lit
    ["constructor"; "__defineGetter__"; "__defineSetter__"; "hasOwnProperty";
     "__lookupGetter__"; "__lookupSetter__"; "isPrototypeOf"; "propertyIsEnumerable";
     "toString"; "valueOf"; "__proto__"; "toLocaleString"]%string.

(** What [maxTestCases] holds: a number, or the value inherited under the
    name of the category. *)
Inductive Cap :=
  | CapNumber (limit : Z)
  | CapInherited (name : jsstring).

(** [categoryLimits[prCategory] || 50], with ['Relaxed PR'] for a category
    that is left out: the limit of the table, else the property that the
    table inherits under that name, else 50. *)
Definition maxTestCases (prCategory : option jsstring) : Cap :=
  let name := default (lit "Relaxed PR") prCategory in
  match assoc name categoryLimits with
  | Some limit => if limit =? 0 then CapNumber 50 else CapNumber limit
  | None => if mem name objectPrototypeKeys then CapInherited name else CapNumber 50
  end.

Definition USER_ROLES : list jsstring :=
  List.map lit ["admin"; "investigator"; "reviewer"; "applicant"]%string.

(** The class of [/[-_\s]/]. *)
Definition is_part_sep (c : char) : bool :=
  N.eqb c 45 || N.eqb c 95 || is_space c.

(** Step 2, the parts of a component label before the camel-case expansion:
    split, trim, lower-case, drop the empty parts and the role names. *)
Definition cleanedParts (jiraComp : jsstring) : list jsstring :=
  let compParts :=
    List.filter truthy
      (List.map (fun p => toLowerCase (trim p)) (split_class is_part_sep jiraComp)) in
  List.filter (fun p => negb (mem p USER_ROLES)) compParts.

(** The camel-case expansion of the parts. *)
Definition expandedParts (compParts : list jsstring) : list jsstring :=
  List.flat_map (fun part => List.map toLowerCase (split_before_upper part)) compParts.

(** [compParts] as the matching uses it. *)
Definition componentParts (jiraComp : jsstring) : list jsstring :=
  let compParts := cleanedParts jiraComp in
  List.filter truthy (uniq (compParts ++ expandedParts compParts)).

(** A part of the label that survives the cleaning: not empty once trimmed,
    not a role name. *)
Definition usable_part (jiraComp : jsstring) (p : jsstring) : Prop :=
  In p (split_class is_part_sep jiraComp)
  /\ toLowerCase (trim p) <> []
  /\ ~ In (toLowerCase (trim p)) USER_ROLES.

(** The test of the loop over the matrix: some part and some word of the
    entry's name contain one another. *)
Definition hasMatch (compParts : list jsstring) (trCompName : jsstring) : bool :=
  let trCompWords := split_class_plus is_part_sep (toLowerCase trCompName) in
  List.existsb
    (fun part => List.existsb (fun word => includes word part || includes part word)
                              trCompWords)
    compParts.

(** The same test in words: a part is contained in a word of the name, or a
    word of the name is contained in a part. *)
Definition containment (compParts : list jsstring) (trCompName : jsstring) : Prop :=
  exists part word,
    In part compParts
    /\ In word (split_class_plus is_part_sep (toLowerCase trCompName))
    /\ (includes word part = true \/ includes part word = true).

(** The loop over [Object.entries(componentMapping)], left at the first match. *)
Fixpoint findComponent (compParts : list jsstring)
    (mapping : list (jsstring * TrComponent)) : option (jsstring * list jsstring) :=
  match mapping with
  | [] => None
  | (trCompName, trCompObj) :: r =>
      if hasMatch compParts trCompName
      then Some (trCompName, default [] (tr_tags trCompObj))
      else findComponent compParts r
  end.

(** The tags of a component label: those of the matched entry, or the parts
    themselves when [matchedTRComponent] is not set. *)
Definition resolveTags (mapping : list (jsstring * TrComponent)) (jiraComp : jsstring)
    : list jsstring :=
  let compParts := componentParts jiraComp in
  match findComponent compParts mapping with
  | Some (matchedTRComponent, tags) =>
      if truthy matchedTRComponent then tags else compParts
  | None => compParts
  end.

Definition searchTermsOf (tags : list jsstring) : list jsstring :=
  uniq (List.flat_map
          (fun tag =>
             List.filter (fun p => Nat.ltb 2 (length p))
               (List.map (fun p => toLowerCase (trim p)) (split_class is_part_sep tag)))
          tags).

(** Separator [/\s*[>›]\s*/]. *)
Definition sep_arrow (s : jsstring) : nat :=
  let n := span is_space s in
  match List.skipn n s with
  | c :: r => if N.eqb c 62 || N.eqb c 8250 then (n + 1 + span is_space r)%nat else O
  | [] => O
  end.

Definition foldersOf (sectionPath : jsstring) : list jsstring :=
  List.filter truthy (List.map trim (splitWith sep_arrow O [] sectionPath)).

(** A match of the component stage. *)
Record Match := mkMatch {
  m_testCase : TestCase;
  m_jiraComponent : jsstring;
  m_matchedBy : jsstring;
  m_matchedTerm : jsstring;
  m_matchedKeywords : option (list jsstring);
  m_matchedFileKeywords : option (list jsstring)
}.

(** The two nested loops over the search terms and the folders of one test
    case: the first folder containing the first possible term. *)
Fixpoint firstFolderMatch (searchTerms : list jsstring) (folders : list jsstring)
    : option (jsstring * jsstring) :=
  match searchTerms with
  | [] => None
  | searchTerm :: r =>
      match List.find (fun f => includes (toLowerCase f) searchTerm) folders with
      | Some folder => Some (folder, searchTerm)
      | None => firstFolderMatch r folders
      end
  end.

Definition quote : jsstring := [34%N].

Definition matchesOfComponent (mapping : list (jsstring * TrComponent))
    (inventory : list TestCase) (jiraComp : jsstring) : list Match :=
  let uniqueSearchTerms := searchTermsOf (resolveTags mapping jiraComp) in
  List.flat_map
    (fun tc =>
       match firstFolderMatch uniqueSearchTerms (foldersOf (tc_sectionPath tc)) with
       | Some (folder, searchTerm) =>
           [ {| m_testCase := tc;
                m_jiraComponent := jiraComp;
                m_matchedBy := lit "folder:" ++ quote ++ folder ++ quote
                               ++ lit " contains " ++ quote ++ searchTerm ++ quote;
                m_matchedTerm := searchTerm;
                m_matchedKeywords := None;
                m_matchedFileKeywords := None |} ]
       | None => []
       end)
    inventory.

(** The pattern [if (!seen.has(id)) { seen.add(id); out.push(x); }] over a
    list: the first element of each id that is not in [seen] yet. *)
Fixpoint firstById {A} (key : A -> Z) (seen : gset Z) (l : list A) : list A :=
  match l with
  | [] => []
  | x :: r =>
      if bool_decide (key x ∈ seen)
      then firstById key seen r
      else x :: firstById key ({[ key x ]} ∪ seen) r
  end.

(** "Remove duplicates": the first match of each test-case id. *)
Definition dedupMatches (step1Matches : list Match) : list Match :=
  firstById (fun m => tc_id (m_testCase m)) ∅ step1Matches.

(** The keywords found in the section path or the title of a test case. *)
Definition matchingKeywords (kws : list jsstring) (tc : TestCase) : list jsstring :=
  let sectionPathLower := toLowerCase (tc_sectionPath tc) in
  let titleLower := toLowerCase (orEmpty (tc_title tc)) in
  List.filter
    (fun kw => includes sectionPathLower (toLowerCase kw)
               || includes titleLower (toLowerCase kw))
    kws.

(** Step 3: keep the matches with a keyword of the ticket title, all of them
    when the title gives no keyword. *)
Definition filterByTitleKeywords (jiraTitleKeywords : list jsstring)
    (componentMatches : list Match) : list Match :=
  match jiraTitleKeywords with
  | [] => componentMatches
  | _ =>
      List.flat_map
        (fun m =>
           match matchingKeywords jiraTitleKeywords (m_testCase m) with
           | [] => []
           | kws =>
               [ {| m_testCase := m_testCase m; m_jiraComponent := m_jiraComponent m;
                    m_matchedBy := m_matchedBy m; m_matchedTerm := m_matchedTerm m;
                    m_matchedKeywords := Some kws;
                    m_matchedFileKeywords := m_matchedFileKeywords m |} ]
           end)
        componentMatches
  end.

(** The class of [/[/\\]/]. *)
Definition is_path_sep (c : char) : bool := N.eqb c 47 || N.eqb c 92.

Definition fileKeywords (changedFiles : list jsstring) : list jsstring :=
  uniq (List.flat_map
          (fun path => extractSignificantKeywords (last_part (split_class is_path_sep path)))
          changedFiles).

(** Step 4: the same filter with the keywords of the changed file names. *)
Definition filterByFileKeywords (uniqueFileKeywords : list jsstring)
    (step2Matches : list Match) : list Match :=
  match uniqueFileKeywords with
  | [] => step2Matches
  | _ =>
      List.flat_map
        (fun m =>
           match matchingKeywords uniqueFileKeywords (m_testCase m) with
           | [] => []
           | kws =>
               [ {| m_testCase := m_testCase m; m_jiraComponent := m_jiraComponent m;
                    m_matchedBy := m_matchedBy m; m_matchedTerm := m_matchedTerm m;
                    m_matchedKeywords := m_matchedKeywords m;
                    m_matchedFileKeywords := Some kws |} ]
           end)
        step2Matches
  end.

Definition directEntry (jiraId : jsstring) (tc : TestCase) : ImpactEntry :=
  {| e_case := tc;
     e_matchType := jira_reference;
     e_matchReason := lit "Direct JIRA reference: " ++ jiraId;
     e_priority := 1;
     e_matchedComponent := None;
     e_matchedKeywords := [];
     e_matchedFileKeywords := [] |}.

Definition keywordsNote (label : string) (o : option (list jsstring)) : jsstring :=
  match o with
  | Some kws => lit label ++ join (lit ", ") kws
  | None => []
  end.

Definition enrichedTC (m : Match) : ImpactEntry :=
  {| e_case := m_testCase m;
     e_matchType := component_with_keywords;
     e_matchReason := lit "Component: " ++ m_jiraComponent m
                      ++ keywordsNote ", JIRA Keywords: " (m_matchedKeywords m)
                      ++ keywordsNote ", File Keywords: " (m_matchedFileKeywords m);
     e_priority := 3;
     e_matchedComponent := Some (m_jiraComponent m);
     e_matchedKeywords := default [] (m_matchedKeywords m);
     e_matchedFileKeywords := default [] (m_matchedFileKeywords m) |}.

(** The state the function threads through its stages: the set of ids
    already placed and the lists built so far. *)
Record Acc := mkAcc {
  seenCaseIds : gset Z;
  acc_direct : list ImpactEntry;
  acc_component : list ImpactEntry;
  acc_grouped : gmap jsstring (list ImpactEntry)
}.

(** Priority 1: one step of [jiraMatches.forEach]. *)
Definition pushDirect (jiraId : jsstring) (a : Acc) (tc : TestCase) : Acc :=
  if bool_decide (tc_id tc ∈ seenCaseIds a) then a
  else {| seenCaseIds := {[ tc_id tc ]} ∪ seenCaseIds a;
          acc_direct := acc_direct a ++ [directEntry jiraId tc];
          acc_component := acc_component a;
          acc_grouped := acc_grouped a |}.

Definition sectionKey (tc : TestCase) : jsstring :=
  if truthy (tc_sectionPath tc) then tc_sectionPath tc else lit "Unknown Section".

(** [obj[key]] on a plain object held as the map of its own properties: the
    own property, else the inherited one, else [undefined]. *)
Inductive Read (A : Type) :=
  | Own (value : A)
  | Inherited
  | Undefined.

Arguments Own {A} value.
Arguments Inherited {A}.
Arguments Undefined {A}.

Definition readProp {A} (obj : gmap jsstring A) (key : jsstring) : Read A :=
  match obj !! key with
  | Some value => Own value
  | None => if mem key objectPrototypeKeys then Inherited else Undefined
  end.

(** One step of [finalMatches.forEach]: the entry joins its section group,
    and joins the result lists when its id is new.  [groupedBySection] is a
    plain object: under a section path that is the name of an inherited
    property the group reads as a truthy value without [push], and the call
    throws ([None]). *)
Definition pushFinal (a : Acc) (m : Match) : option Acc :=
  let tc := m_testCase m in
  let sectionPath := sectionKey tc in
  let entry := enrichedTC m in
  match
    match readProp (acc_grouped a) sectionPath with
    | Own group => Some (<[ sectionPath := group ++ [entry] ]> (acc_grouped a))
    | Undefined => Some (<[ sectionPath := [] ++ [entry] ]> (acc_grouped a))
    | Inherited => None
    end
  with
  | None => None
  | Some grouped =>
      if bool_decide (tc_id tc ∈ seenCaseIds a)
      then Some {| seenCaseIds := seenCaseIds a; acc_direct := acc_direct a;
                   acc_component := acc_component a; acc_grouped := grouped |}
      else Some {| seenCaseIds := {[ tc_id tc ]} ∪ seenCaseIds a;
                   acc_direct := acc_direct a;
                   acc_component := acc_component a ++ [entry];
                   acc_grouped := grouped |}
  end.

(** [l.forEach(step)] with a step that may throw: the state after the last
    element, or [None] as soon as a step throws. *)
Fixpoint forEachUntilThrow {A S} (step : S -> A -> option S) (l : list A) (s : S)
    : option S :=
  match l with
  | [] => Some s
  | x :: r =>
      match step s x with
      | Some s' => forEachUntilThrow step r s'
      | None => None
      end
  end.

(** The direct-reference stage: the cases whose [refs] contain the ticket id,
    compared in lower case. *)
Definition jiraMatches (jiraId : jsstring) (inventory : list TestCase) : list TestCase :=
  List.filter
    (fun tc => includes (toLowerCase (orEmpty (tc_refs tc))) (toLowerCase jiraId))
    inventory.

Definition directStage (o : Options) (inventory : list TestCase) : Acc :=
  let a0 := {| seenCaseIds := ∅; acc_direct := []; acc_component := [];
               acc_grouped := ∅ |} in
  match opt_jiraId o with
  | Some jiraId =>
      if truthy jiraId
      then List.fold_left (pushDirect jiraId) (jiraMatches jiraId inventory) a0
      else a0
  | None => a0
  end.

(** Steps 2 to 4: the matches that reach the result building. *)
Definition finalMatches (o : Options) (inventory : list TestCase) : list Match :=
  let step1Matches :=
    List.flat_map (matchesOfComponent (opt_componentMapping o) inventory)
                  (opt_jiraComponents o) in
  let componentMatches := dedupMatches step1Matches in
  let step2Matches :=
    filterByTitleKeywords (extractSignificantKeywords (opt_jiraTitle o)) componentMatches in
  filterByFileKeywords (fileKeywords (opt_changedFiles o)) step2Matches.

Definition componentStage (o : Options) (inventory : list TestCase) (a : Acc)
    : option Acc :=
  match opt_jiraComponents o with
  | [] => Some a
  | _ => forEachUntilThrow pushFinal (finalMatches o inventory) a
  end.

(** [getImpactedTestCases], from the enriched inventory to the returned
    object; [None] when the function throws (it logs the error of the
    grouping and throws it again).  [maxTestCases] is computed by the
    function too, but it goes to the log only.  [groupedByModule] holds the
    own properties of the returned object. *)
Definition getImpactedTestCases (inventory : list TestCase) (o : Options)
    : option Results :=
  match componentStage o inventory (directStage o inventory) with
  | Some a =>
      Some {| directJiraMatch := acc_direct a;
              componentMatch := [];
              componentWithKeywords := acc_component a;
              allCases := acc_direct a ++ acc_component a;
              groupedByModule := acc_grouped a |}
  | None => None
  end.

(** *** Views of the two stages, used to state their properties *)

(** The id of the test case of a match. *)
Definition matchId (m : Match) : Z := tc_id (m_testCase m).

(** The cases of the direct-reference stage, in the order they are placed. *)
Definition directCases (o : Options) (inventory : list TestCase) : list TestCase :=
  match opt_jiraId o with
  | Some jiraId =>
      if truthy jiraId then firstById tc_id ∅ (jiraMatches jiraId inventory) else []
  | None => []
  end.

(** The matches of the component stage that reach the result lists. *)
Definition placedMatches (o : Options) (inventory : list TestCase) : list Match :=
  match opt_jiraComponents o with
  | [] => []
  | _ => firstById matchId (seenCaseIds (directStage o inventory)) (finalMatches o inventory)
  end.

(** The matches that [componentStage] walks through. *)
Definition walkedMatches (o : Options) (inventory : list TestCase) : list Match :=
  match opt_jiraComponents o with
  | [] => []
  | _ => finalMatches o inventory
  end.

(** A match whose group cannot be built: its section path is the name of an
    inherited property. *)
Definition inheritedSection (m : Match) : bool :=
  mem (sectionKey (m_testCase m)) objectPrototypeKeys.

(** The same options with another [prCategory]. *)
Definition withCategory (o : Options) (prCategory : option jsstring) : Options :=
  {| opt_jiraId := opt_jiraId o;
     opt_changedFiles := opt_changedFiles o;
     opt_componentMapping := opt_componentMapping o;
     opt_jiraTitle := opt_jiraTitle o;
     opt_prCategory := prCategory;
     opt_jiraComponents := opt_jiraComponents o |}.


(** ** Change classification ([analyzePR]) *)

(** The [path] of a changed-file entry as the pull-request host sends it: a
    string, an object (its own properties in enumeration order, each with its
    value when that is a string), or anything else (missing, [null], ...). *)
Inductive PathField :=
  | PathString (s : jsstring)
  | PathObject (props : list (jsstring * option jsstring))
  | PathOther.

(** A changed-file entry.  [rf_new_path] and [rf_old_path] stand for
    [f.new.path] and [f.old.path] ([None] when [f.new], respectively [f.old],
    or its [path] is missing); a line count is [None] when the field is
    missing. *)
Record RawFile := mkRawFile {
  rf_path : PathField;
  rf_new_path : option jsstring;
  rf_old_path : option jsstring;
  rf_linesAdded : option Z;
  rf_lines_added : option Z;
  rf_linesRemoved : option Z;
  rf_lines_removed : option Z
}.

Record PullRequest := mkPullRequest {
  pr_title : option jsstring
}.

(** [typeof o[key] === 'string'] and its value. *)
Definition stringProp (key : string) (props : list (jsstring * option jsstring))
    : option jsstring :=
  match assoc (lit key) props with
  | Some (Some s) => Some s
  | _ => None
  end.

Fixpoint firstStringProp (props : list (jsstring * option jsstring)) : option jsstring :=
  match props with
  | [] => None
  | (_, Some s) :: _ => Some s
  | (_, None) :: r => firstStringProp r
  end.

Definition truthyPath (o : option jsstring) : option jsstring :=
  match o with
  | Some s => if truthy s then Some s else None
  | None => None
  end.

(** The helper [getPath] of [analyzePR]. *)
Definition getPath (f : RawFile) : jsstring :=
  let fallback :=
    match truthyPath (rf_new_path f) with
    | Some s => s
    | None =>
        match truthyPath (rf_old_path f) with
        | Some s => s
        | None => lit "[unknown]"
        end
    end in
  match rf_path f with
  | PathString s => s
  | PathObject props =>
      match stringProp "value" props with
      | Some s => s
      | None =>
          match stringProp "text" props with
          | Some s => s
          | None =>
              match firstStringProp props with
              | Some s => s
              | None => fallback
              end
          end
      end
  | PathOther => fallback
  end.

(** [a || b || 0] on line counts. *)
Definition linesOr (a b : option Z) : Z :=
  match a with
  | Some x => if x =? 0 then match b with Some y => y | None => 0 end else x
  | None => match b with Some y => y | None => 0 end
  end.

Definition totalLines (files : list RawFile) : Z :=
  List.fold_left
    (fun sum f => sum + linesOr (rf_linesAdded f) (rf_lines_added f)
                      + linesOr (rf_linesRemoved f) (rf_lines_removed f))
    files 0.

Definition touchesShared (f : RawFile) : bool :=
  let path := getPath f in
  includes path (lit "shared") || includes path (lit "core")
  || includes path (lit "common") || includes path (lit "utils").

Definition sharedComponents (files : list RawFile) : Z :=
  Z.of_nat (length (List.filter touchesShared files)).

Definition isStyleFile (f : RawFile) : bool :=
  let path := getPath f in
  endsWith path (lit ".css") || endsWith path (lit ".scss")
  || endsWith path (lit ".less") || includes path (lit "style").

Definition onlyStyleChanges (files : list RawFile) : bool :=
  List.forallb isStyleFile files.

Definition titleSuggestsMinor (pr : PullRequest) : bool :=
  let title := toLowerCase (orEmpty (pr_title pr)) in
  includes title (lit "minor") || includes title (lit "quick")
  || includes title (lit "small") || includes title (lit "fix").

(** [x < y] on rationals. *)
Definition Qlt_bool (x y : Q) : bool := negb (Qle_bool y x).

(** [Math.min(100, x)]. *)
Definition min100 (x : Q) : Q := if Qle_bool 100 x then 100%Q else x.

(** [Math.round]: the nearest integer, halves upwards. *)
Definition round (x : Q) : Z := Qfloor (x + (1 # 2))%Q.

(** The local [riskScore] of [analyzePR], before it is rounded for the
    result. *)
Definition rawRiskScore (totalFiles sharedComps lines : Z) : Q :=
  min100 (inject_Z totalFiles * 1 + inject_Z sharedComps * 10
          + inject_Z lines * (5 # 100))%Q.

(** The same formula in the double-precision arithmetic of the source, to
    compare the two on given inputs.  The constant is the double nearest to
    0.05. *)
Module Double.

Import Floats.

Definition of_count (n : Z) : float := PrimFloat.of_uint63 (Uint63.of_Z n).

Definition rawRiskScore (totalFiles sharedComps lines : Z) : float :=
  let x := (of_count totalFiles * 1 + of_count sharedComps * 10
            + of_count lines * 0x1.999999999999ap-5)%float in
  if PrimFloat.leb 100 x then 100%float else x.

(** Doubles that are exact: whole numbers, and 29.5 as 59 / 2. *)
Definition whole (n : Z) : float := of_count n.
Definition twenty_nine_and_a_half : float := (of_count 59 / of_count 2)%float.

Definition same (x y : float) : bool := PrimFloat.eqb x y.

End Double.

(** The sum of the risk formula in twentieths: the formula has the value
    [twentieths n s t / 20]. *)
Definition twentieths (n s t : Z) : Z := 20 * n + 200 * s + t.

Inductive Category := Sleepy | Sarcastic | Overloaded | Angry | Relaxed.

Definition categoryName (c : Category) : jsstring :=
  match c with
  | Sleepy => lit "Sleepy PR"
  | Sarcastic => lit "Sarcastic PR"
  | Overloaded => lit "Overloaded PR"
  | Angry => lit "Angry PR"
  | Relaxed => lit "Relaxed PR"
  end.

Inductive RiskLevel := Low | Medium | High.

Record Metrics := mkMetrics {
  filesChanged : Z;
  linesChanged : Z;
  metric_sharedComponents : Z;
  metric_onlyStyleChanges : bool
}.

(** The object [analyzePR] returns (its [emoji] is a constant of the
    category and is left out). *)
Record Analysis := mkAnalysis {
  category : Category;
  riskScore : Z;
  riskLevel : RiskLevel;
  metrics : Metrics
}.

Definition analyzePR (pr : PullRequest) (files : list RawFile) : Analysis :=
  let totalFiles := Z.of_nat (length files) in
  let lines := totalLines files in
  let shared := sharedComponents files in
  let onlyStyle := onlyStyleChanges files in
  let isSarcastic :=
    titleSuggestsMinor pr && ((5 <? totalFiles) || (100 <? lines)) in
  let risk := rawRiskScore totalFiles shared lines in
  let cat :=
    if onlyStyle then Sleepy
    else if isSarcastic then Sarcastic
    else if (3 <? shared) || Qlt_bool 85 risk then Overloaded
    else if (10 <? totalFiles) || (500 <? lines) then Angry
    else Relaxed in
  let level :=
    if Qlt_bool risk 30 then Low
    else if Qlt_bool risk 70 then Medium
    else High in
  {| category := cat;
     riskScore := round risk;
     riskLevel := level;
     metrics := {| filesChanged := totalFiles; linesChanged := lines;
                   metric_sharedComponents := shared;
                   metric_onlyStyleChanges := onlyStyle |} |}.

(** *** The decision table

    The category in words: five rules, the first that applies wins.  The
    third rule speaks of the risk score; the table is given for either
    reading of it. *)

Definition styleFile (f : RawFile) : Prop :=
  endsWith (getPath f) (lit ".css") = true
  \/ endsWith (getPath f) (lit ".scss") = true
  \/ endsWith (getPath f) (lit ".less") = true
  \/ includes (getPath f) (lit "style") = true.

Definition allStyle (files : list RawFile) : Prop :=
  forall f, In f files -> styleFile f.

Definition minorTitle (pr : PullRequest) : Prop :=
  let title := toLowerCase (orEmpty (pr_title pr)) in
  includes title (lit "minor") = true \/ includes title (lit "quick") = true
  \/ includes title (lit "small") = true \/ includes title (lit "fix") = true.

Definition claimsSmallButIsNot (pr : PullRequest) (files : list RawFile) : Prop :=
  minorTitle pr /\ (5 < Z.of_nat (length files) \/ 100 < totalLines files).

(** The third rule on the score that the function holds when it decides,
    before the rounding. *)
Definition heavyBeforeRounding (files : list RawFile) : Prop :=
  3 < sharedComponents files
  \/ (85 < rawRiskScore (Z.of_nat (length files)) (sharedComponents files)
                        (totalLines files))%Q.

(** The risk score in the words of the specification:
    [min(100, filesChanged*1 + sharedComponentsTouched*10 + totalLinesChanged*0.05)],
    rounded to the nearest integer. *)
Definition specifiedRiskScore (filesChanged sharedComponentsTouched totalLinesChanged : Z)
    : Z :=
  let sum := (inject_Z filesChanged * 1 + inject_Z sharedComponentsTouched * 10
              + inject_Z totalLinesChanged * (5 # 100))%Q in
  let capped := if Qle_bool sum 100 then sum else 100%Q in
  Qfloor (capped + (1 # 2))%Q.

(** The third rule in the words of the specification,
    [sharedComponentsTouched > 3 OR riskScore > 85], on the risk score of
    the result. *)
Definition heavyAsSpecified (files : list RawFile) : Prop :=
  3 < sharedComponents files
  \/ 85 < specifiedRiskScore (Z.of_nat (length files)) (sharedComponents files)
                             (totalLines files).

Definition large (files : list RawFile) : Prop :=
  10 < Z.of_nat (length files) \/ 500 < totalLines files.

(** The five rules in their order, for a given reading [heavy] of the
    third one. *)
Inductive decided (heavy : list RawFile -> Prop) (pr : PullRequest) (files : list RawFile)
    : Category -> Prop :=
  | rule_sleepy : allStyle files -> decided heavy pr files Sleepy
  | rule_sarcastic :
      ~ allStyle files -> claimsSmallButIsNot pr files -> decided heavy pr files Sarcastic
  | rule_overloaded :
      ~ allStyle files -> ~ claimsSmallButIsNot pr files -> heavy files ->
      decided heavy pr files Overloaded
  | rule_angry :
      ~ allStyle files -> ~ claimsSmallButIsNot pr files -> ~ heavy files ->
      large files -> decided heavy pr files Angry
  | rule_relaxed :
      ~ allStyle files -> ~ claimsSmallButIsNot pr files -> ~ heavy files ->
      ~ large files -> decided heavy pr files Relaxed.

(** The table with the score before the rounding. *)
Definition classified : PullRequest -> list RawFile -> Category -> Prop :=
  decided heavyBeforeRounding.

(** The table as the specification gives it, with the score of the result. *)
Definition classifiedAsSpecified : PullRequest -> list RawFile -> Category -> Prop :=
  decided heavyAsSpecified.

(** ** Relevance scoring ([scoreRegressionTestsForRelevance]) *)

(** A regression test as TestRail returns it.  [rt_custom_fields] is the text
    [JSON.stringify(testCase.custom_fields || {})]; [rt_sectionPath] is [None]
    when the case was not given a section path. *)
Record RegressionTest := mkRegressionTest {
  rt_id : Z;
  rt_title : option jsstring;
  rt_refs : option jsstring;
  rt_custom_fields : jsstring;
  rt_sectionPath : option jsstring;
  rt_section_id : option Z;
  rt_priority_id : option Z
}.

(** [n] points for every element of [l] that passes [p]. *)
Definition pointsEach {A} (n : Z) (p : A -> bool) (l : list A) : Z :=
  List.fold_left (fun score x => if p x then score + n else score) l 0.

Definition someIncludes (parts : list jsstring) (s : jsstring) : bool :=
  List.existsb (fun part => includes part s) parts.

Definition anyOf (words : list string) (s : jsstring) : bool :=
  List.existsb (fun kw => includes s (lit kw)) words.

(** [obj[key] = value] on an object held as its entries. *)
Fixpoint setProp {A} (k : jsstring) (v : A) (l : list (jsstring * A)) : list (jsstring * A) :=
  match l with
  | [] => [(k, v)]
  | (k', v') :: r => if str_eqb k k' then (k', v) :: r else (k', v') :: setProp k v r
  end.

(** [mapFilesToFunctionalAreas]; [componentMap] is
    [config.traceabilityMatrix?.components || {}]. *)
Definition tagToComponent (componentMap : list (jsstring * TrComponent))
    : list (jsstring * jsstring) :=
  List.fold_left
    (fun acc entry =>
       List.fold_left (fun acc' tag => setProp (toLowerCase tag) (fst entry) acc')
                      (default [] (tr_tags (snd entry))) acc)
    componentMap [].

Definition mapFilesToFunctionalAreas (componentMap : list (jsstring * TrComponent))
    (files : list jsstring) : list jsstring :=
  let table := tagToComponent componentMap in
  uniq (List.flat_map
          (fun file =>
             let path := toLowerCase file in
             List.map snd (List.filter (fun tc => includes path (fst tc)) table))
          files).

Record FileTypes := mkFileTypes {
  ft_html : Z; ft_ts : Z; ft_js : Z; ft_css : Z; ft_java : Z; ft_both : bool
}.

Record PRContext := mkPRContext {
  uiElements : list jsstring;
  behaviors : list jsstring;
  isBugFix : bool;
  fileTypes : FileTypes
}.

Definition uiElementPatterns : list jsstring :=
  List.map lit
    ["button"; "submit"; "dropdown"; "checkbox"; "radio"; "input"; "field";
     "form"; "modal"; "dialog"; "popup"; "menu"; "tab"; "panel"; "table";
     "grid"; "list"; "card"; "link"; "icon"; "image"; "tooltip"; "notification"]%string.

Definition behaviorPatterns : list jsstring :=
  List.map lit
    ["always available"; "always visible"; "always enabled"; "disabled"; "enabled";
     "hidden"; "visible"; "validation"; "required"; "optional"; "mandatory";
     "editable"; "readonly"; "clickable"; "selectable"; "expandable"; "collapsible";
     "loading"; "error"; "success"; "warning"; "submitted"; "saved"; "deleted"]%string.

(** [/^fix\(|\bfix:|\bbug\b|\bbugfix\b|\bissue\b/.test(titleLower)]. *)
Definition bugFixTitle (titleLower : jsstring) : bool :=
  startsWith (lit "fix(") titleLower
  || find_word (lit "fix:") false false titleLower
  || find_word (lit "bug") true false titleLower
  || find_word (lit "bugfix") true false titleLower
  || find_word (lit "issue") true false titleLower.

Definition countEnding (suffixes : list string) (files : list jsstring) : Z :=
  pointsEach 1
    (fun file => List.existsb (fun suf => endsWith (toLowerCase file) (lit suf)) suffixes)
    files.

Definition extractPRContext (prTitle prDescription : jsstring) (changedFiles : list jsstring)
    : PRContext :=
  let titleLower := toLowerCase prTitle in
  let descLower := toLowerCase prDescription in
  let combined := titleLower ++ lit " " ++ descLower in
  let html := countEnding [".html"; ".htm"]%string changedFiles in
  let ts := countEnding [".ts"]%string changedFiles in
  let js := countEnding [".js"; ".jsx"]%string changedFiles in
  let css := countEnding [".css"; ".scss"; ".sass"]%string changedFiles in
  let java := countEnding [".java"]%string changedFiles in
  {| uiElements := List.filter (fun element => includes combined element) uiElementPatterns;
     behaviors := List.filter (fun behavior => includes combined behavior) behaviorPatterns;
     isBugFix := bugFixTitle titleLower;
     fileTypes := {| ft_html := html; ft_ts := ts; ft_js := js; ft_css := css;
                     ft_java := java;
                     ft_both := (0 <? html) && ((0 <? ts) || (0 <? js) || (0 <? java)) |} |}.

Definition calculateFileTypeRelevance (ft : FileTypes) (testTitle : jsstring) : Z :=
  let bonus := 0 in
  let bonus :=
    if (0 <? ft_html ft) && (ft_ts ft =? 0) && (ft_js ft =? 0) && (ft_java ft =? 0)
       && anyOf ["display"; "render"; "visible"; "shown"; "appear"; "ui"; "layout";
                 "screen"]%string testTitle
    then 20 else bonus in
  let bonus :=
    if ((0 <? ft_ts ft) || (0 <? ft_js ft) || (0 <? ft_java ft)) && (ft_html ft =? 0)
       && anyOf ["validate"; "calculate"; "process"; "save"; "submit"; "api"; "service";
                 "logic"; "function"]%string testTitle
    then 20 else bonus in
  let bonus :=
    if ft_both ft
    then if anyOf ["integration"; "end-to-end"; "e2e"; "workflow"; "complete";
                   "full"]%string testTitle
         then 30
         else if includes testTitle (lit "verify") || includes testTitle (lit "test")
              then 15 else bonus
    else bonus in
  bonus.

Definition sectionPathTruthy (t : RegressionTest) : bool :=
  truthy (orEmpty (rt_sectionPath t)).

Definition getSectionPathDepth (t : RegressionTest) : Z :=
  if sectionPathTruthy t
  then Z.of_nat (length (split_string (lit " > ") (orEmpty (rt_sectionPath t))))
  else 0.

(** The [score] field of the result of [checkSectionPathMatch]. *)
Definition checkSectionPathMatch (t : RegressionTest) (components functionalAreas : list jsstring)
    : Z :=
  if negb (sectionPathTruthy t) then 0
  else
    let pathParts := split_string (lit " > ") (toLowerCase (orEmpty (rt_sectionPath t))) in
    if Nat.ltb (length pathParts) 2 then 0
    else
      let componentMatch :=
        List.existsb (fun comp => someIncludes pathParts (toLowerCase comp)) components in
      let areaMatch :=
        List.existsb (fun area => someIncludes pathParts (toLowerCase area)) functionalAreas in
      let score := if componentMatch then 30 else 0 in
      if areaMatch && negb componentMatch then 25 else score.

Definition isGenericTest (testTitle : jsstring) (components : list jsstring) : bool :=
  let titleWords := split_class_plus is_space (toLowerCase testTitle) in
  let hasSpecificKeyword :=
    anyOf ["form"; "button"; "field"; "page"; "screen"; "api"; "endpoint";
           "submit"; "save"; "delete"; "update"; "create"; "validate";
           "search"; "filter"; "sort"; "export"; "import"; "upload"; "download"]%string
          testTitle in
  if negb hasSpecificKeyword
  then List.existsb
         (fun comp => includes testTitle (toLowerCase comp)
                      && Nat.ltb (length titleWords) 8)
         components
  else false.

(** The stem of a changed file: last path segment, extension dropped, lower case. *)
Definition fileStem (path : jsstring) : jsstring :=
  toLowerCase (strip_extension (last_part (split_string (lit "/") path))).

Definition truthyNum (o : option Z) : bool :=
  match o with
  | Some n => negb (n =? 0)
  | None => false
  end.

Definition hasSharedComponentImpact (changedFiles : list jsstring) : bool :=
  List.existsb
    (fun f =>
       let path := toLowerCase f in
       includes path (lit "shared") || includes path (lit "core")
       || includes path (lit "common") || includes path (lit "utils")
       || includes path (lit "service") || includes path (lit "api"))
    changedFiles.

(** What one run of the scoring shares between all test cases. *)
Record ScoringContext := mkScoringContext {
  sc_changedFiles : list jsstring;
  sc_components : list jsstring;
  sc_keywords : list jsstring;
  sc_functionalAreas : list jsstring;
  sc_shared : bool;
  sc_prContext : PRContext
}.

(** The sum of the additive terms of one test case, sections 1 to 12 of the
    loop body, before the clamp. *)
Definition rawScore (c : ScoringContext) (t : RegressionTest) : Z :=
  let changedFiles := sc_changedFiles c in
  let components := sc_components c in
  let keywords := sc_keywords c in
  let functionalAreas := sc_functionalAreas c in
  let prContext := sc_prContext c in
  let title := toLowerCase (orEmpty (rt_title t)) in
  let refs := toLowerCase (orEmpty (rt_refs t)) in
  let customFields := toLowerCase (rt_custom_fields t) in
  let searchText := title ++ lit " " ++ refs ++ lit " " ++ customFields in
  let sectionPath := toLowerCase (orEmpty (rt_sectionPath t)) in
  let score := 0 in
  (* 1. section path *)
  let score :=
    if sectionPathTruthy t
    then
      let pathParts := List.map trim (split_string (lit " > ") sectionPath) in
      score
      + pointsEach 35 (fun comp => someIncludes pathParts (toLowerCase comp)) components
      + pointsEach 30 (fun area => someIncludes pathParts (toLowerCase area)) functionalAreas
      + pointsEach 25
          (fun file => Nat.ltb 3 (length (fileStem file))
                       && someIncludes pathParts (fileStem file))
          changedFiles
      + pointsEach 20 (fun kw => someIncludes pathParts (toLowerCase kw)) keywords
    else score in
  (* 2. feature in title *)
  let score :=
    score + pointsEach 40 (fun area => includes title (toLowerCase area)) functionalAreas in
  (* 3. component in title *)
  let score :=
    score
    + pointsEach 30 (fun word => Nat.ltb 3 (length word) && includes title word)
        (List.flat_map (fun comp => split_class_plus is_space (toLowerCase comp)) components) in
  (* 4. keyword in title *)
  let score :=
    score + pointsEach 20 (fun kw => includes title (toLowerCase kw)) keywords in
  (* 5. file name in title *)
  let score :=
    score
    + pointsEach 35
        (fun file => Nat.ltb 3 (length (fileStem file)) && includes title (fileStem file))
        changedFiles in
  (* 6. API and screen references *)
  let score :=
    score
    + pointsEach 20 (fun pf => includes (toLowerCase (snd pf)) (fst pf)
                               || includes (toLowerCase (snd pf)) (lit "api"))
        (List.flat_map
           (fun pattern => if includes searchText pattern
                           then List.map (fun file => (pattern, file)) changedFiles
                           else [])
           (List.map lit ["api"; "endpoint"; "service"; "rest"; "graphql"]%string)) in
  let score :=
    score
    + pointsEach 20 (fun pf => includes (toLowerCase (snd pf)) (lit "component")
                               || includes (toLowerCase (snd pf)) (lit "view")
                               || includes (toLowerCase (snd pf)) (lit ".html"))
        (List.flat_map
           (fun pattern => if includes searchText pattern
                           then List.map (fun file => (pattern, file)) changedFiles
                           else [])
           (List.map lit ["screen"; "page"; "view"; "component"; "modal"; "dialog"]%string)) in
  (* 6. critical and smoke tests *)
  let isCritical :=
    includes title (lit "smoke") || includes title (lit "critical")
    || includes title (lit "p0") || includes title (lit "p1")
    || (truthyNum (rt_priority_id t) && (default 0 (rt_priority_id t) <=? 2)) in
  let score :=
    if isCritical && sc_shared c then score + 50
    else if isCritical then score + 10
    else score in
  (* 7. keyword in the other fields *)
  let score :=
    score
    + pointsEach 5 (fun kw => negb (includes title (toLowerCase kw))
                              && includes searchText (toLowerCase kw))
        keywords in
  (* 8. context of the pull-request title and description *)
  let score :=
    if Nat.ltb 0 (length (uiElements prContext)) || Nat.ltb 0 (length (behaviors prContext))
    then
      let elementHits := List.filter (fun element => includes title element)
                                     (uiElements prContext) in
      let behaviorHits := List.filter (fun behavior => includes title behavior)
                                      (behaviors prContext) in
      let contextScore :=
        20 * Z.of_nat (length elementHits) + 15 * Z.of_nat (length behaviorHits) in
      let contextScore :=
        if Nat.leb 2 (length elementHits + length behaviorHits)
        then contextScore + 20 else contextScore in
      score + Z.min contextScore 40
    else score in
  (* 9. bug fixes *)
  let score :=
    if isBugFix prContext
    then
      let score :=
        if anyOf ["should not"; "prevent"; "disable"; "block"; "reject"; "invalid";
                  "error"; "validation"; "verify"; "edge case"]%string title
        then score + 25 else score in
      let hasComponentMatch :=
        List.existsb (fun comp => includes title (toLowerCase comp)) components in
      if hasComponentMatch && includes title (lit "regression")
      then score + 30 else score
    else score in
  (* 10. file types *)
  let fileTypeBonus := calculateFileTypeRelevance (fileTypes prContext) title in
  let score := if 0 <? fileTypeBonus then score + fileTypeBonus else score in
  (* 11. depth of the section path *)
  let score :=
    if truthyNum (rt_section_id t)
    then
      let sectionPathDepth := getSectionPathDepth t in
      if 2 <=? sectionPathDepth
      then
        let sectionPathMatch := checkSectionPathMatch t components functionalAreas in
        if 0 <? sectionPathMatch then score + sectionPathMatch else score
      else if sectionPathDepth =? 1
           then if isGenericTest title components then score - 20 else score
           else score
    else score in
  (* 12. generic tests *)
  let score :=
    if isGenericTest title components && (score <? 50) then score - 20 else score in
  score.

(** [Math.min(Math.max(score, 0), 100)]. *)
Definition clamp (score : Z) : Z := Z.min (Z.max score 0) 100.

(** The relevance score of one test case. *)
Definition relevance (c : ScoringContext) (t : RegressionTest) : Z :=
  clamp (rawScore c t).

Record ScoredTest := mkScoredTest {
  st_testCase : RegressionTest;
  st_score : Z
}.

(** The loop over the tests: a test is kept when its score is positive. *)
Definition scoreAll (c : ScoringContext) (regressionTests : list RegressionTest)
    : list ScoredTest :=
  List.flat_map
    (fun t =>
       let score := relevance c t in
       if 0 <? score then [ {| st_testCase := t; st_score := score |} ] else [])
    regressionTests.

(** [scoredTests.sort((a, b) => b.score - a.score)]: a stable sort, highest
    score first. *)
Fixpoint insertByScore (x : ScoredTest) (l : list ScoredTest) : list ScoredTest :=
  match l with
  | [] => [x]
  | y :: r => if st_score x <? st_score y then y :: insertByScore x r else x :: l
  end.

Definition sortByScore (l : list ScoredTest) : list ScoredTest :=
  List.fold_right insertByScore [] l.

Definition atLeast (threshold : Z) (l : list ScoredTest) : list ScoredTest :=
  List.filter (fun st => threshold <=? st_score st) l.

Definition isEmpty {A} (l : list A) : bool :=
  match l with [] => true | _ => false end.

(** The thresholds 60, 40, 25, then the ten best. *)
Definition relevantTests (scoredTests : list ScoredTest) : list ScoredTest :=
  let relevant := atLeast 60 scoredTests in
  let relevant :=
    if isEmpty relevant && negb (isEmpty scoredTests)
    then atLeast 40 scoredTests else relevant in
  let relevant :=
    if isEmpty relevant && negb (isEmpty scoredTests)
    then atLeast 25 scoredTests else relevant in
  let relevant :=
    if isEmpty relevant && negb (isEmpty scoredTests)
    then List.firstn 10 scoredTests else relevant in
  relevant.

Definition getMaxTestsForPRSize (filesChanged : Z) : Z :=
  if filesChanged <=? 2 then 10
  else if filesChanged <=? 5 then 15
  else if filesChanged <=? 10 then 20
  else if filesChanged <=? 20 then 40
  else 60.

(** A returned test: the test case with its [relevanceScore]. *)
Record RankedTest := mkRankedTest {
  ranked_testCase : RegressionTest;
  relevanceScore : Z
}.

Definition scoringContext (componentMap : list (jsstring * TrComponent))
    (changedFiles components keywords : list jsstring) (prTitle prDescription : jsstring)
    : ScoringContext :=
  {| sc_changedFiles := changedFiles;
     sc_components := components;
     sc_keywords := keywords;
     sc_functionalAreas := mapFilesToFunctionalAreas componentMap changedFiles;
     sc_shared := hasSharedComponentImpact changedFiles;
     sc_prContext := extractPRContext prTitle prDescription changedFiles |}.

(** [scoreRegressionTestsForRelevance]; [componentMap] is the traceability
    matrix of the configuration module, which the function reads through
    [mapFilesToFunctionalAreas]. *)
Definition scoreRegressionTestsForRelevance
    (componentMap : list (jsstring * TrComponent))
    (regressionTests : list RegressionTest)
    (changedFiles components keywords : list jsstring)
    (prTitle prDescription : jsstring) : list RankedTest :=
  let c := scoringContext componentMap changedFiles components keywords
                          prTitle prDescription in
  let scoredTests := sortByScore (scoreAll c regressionTests) in
  let relevant := relevantTests scoredTests in
  let maxTests := getMaxTestsForPRSize (Z.of_nat (length changedFiles)) in
  List.map (fun st => {| ranked_testCase := st_testCase st;
                         relevanceScore := st_score st |})
           (List.firstn (Z.to_nat maxTests) relevant).

(** Highest score first. *)
Definition scoredDescending (a b : ScoredTest) : Prop := st_score b <= st_score a.
Definition rankedDescending (a b : RankedTest) : Prop := relevanceScore b <= relevanceScore a.

(** ** Sample data *)

Module Sample.

(** A traceability matrix with one entry, "Webform". *)
Definition matrix : list (jsstring * TrComponent) :=
  [(lit "Webform", {| tr_tags := Some [lit "webform"; lit "form-submission"] |})].

(** The separator of section paths, [' › ']. *)
Definition arrow : jsstring := [32%N; 8250%N; 32%N].

Definition case1 : TestCase :=
  {| tc_id := 1;
     tc_title := Some (lit "Verify webform submit button disabled when required fields empty");
     tc_refs := Some (lit "PROJ-7, proj-12");
     tc_sectionPath := lit "Forms" ++ arrow ++ lit "Applicant" ++ arrow ++ lit "Webform" |}.

Definition case2 : TestCase :=
  {| tc_id := 2; tc_title := Some (lit "Login works"); tc_refs := None;
     tc_sectionPath := lit "Auth" ++ arrow ++ lit "Login" |}.

(** A case with no title and no section, referring to the ticket. *)
Definition case3 : TestCase :=
  {| tc_id := 3; tc_title := None; tc_refs := Some (lit "see PROJ-12");
     tc_sectionPath := [] |}.

Definition case4 : TestCase :=
  {| tc_id := 4; tc_title := Some (lit "Webform renders"); tc_refs := None;
     tc_sectionPath := lit "Forms" ++ arrow ++ lit "Webform" |}.

Definition inventory : list TestCase := [case1; case2; case3; case4].

Definition options : Options :=
  {| opt_jiraId := Some (lit "PROJ-12");
     opt_changedFiles := [lit "src/app/webform.ts"];
     opt_componentMapping := matrix;
     opt_jiraTitle := lit "Webform submit button";
     opt_prCategory := Some (lit "Relaxed PR");
     opt_jiraComponents := [lit "Applicant-Webform"] |}.




(** A case that refers to the ticket and sits in a section named
    "constructor", and a ticket with the component of that name. *)
Definition constructorCase : TestCase :=
  {| tc_id := 5; tc_title := Some (lit "New object is initialised");
     tc_refs := Some (lit "PROJ-12"); tc_sectionPath := lit "constructor" |}.

Definition constructorOptions : Options :=
  {| opt_jiraId := Some (lit "PROJ-12");
     opt_changedFiles := [];
     opt_componentMapping := [];
     opt_jiraTitle := [];
     opt_prCategory := None;
     opt_jiraComponents := [lit "Constructor"] |}.

(** Twenty-one cases that all refer to the ticket. *)
Definition manyCases : list TestCase :=
  List.map (fun i => {| tc_id := Z.of_nat i; tc_title := None;
                        tc_refs := Some (lit "PROJ-12"); tc_sectionPath := [] |})
           (List.seq 1 21).

(** A changed file with its path as a plain string and its added lines. *)
Definition file (path : string) (added : Z) : RawFile :=
  {| rf_path := PathString (lit path); rf_new_path := None; rf_old_path := None;
     rf_linesAdded := Some added; rf_lines_added := None;
     rf_linesRemoved := None; rf_lines_removed := None |}.

Definition widgetPR : PullRequest :=
  {| pr_title := Some (lit "Add new reporting widget") |}.

(** Fifteen files, none shared, 300 lines changed. *)
Definition files15 : list RawFile :=
  file "src/report/widget.ts" 300 :: List.repeat (file "src/report/part.ts" 0) 14.

(** Twenty-nine files, none shared, 10 lines changed: a raw score of 29.5. *)
Definition files29 : list RawFile :=
  file "src/report/widget.ts" 10 :: List.repeat (file "src/report/part.ts" 0) 28.

Definition loginPR : PullRequest :=
  {| pr_title := Some (lit "Quick fix for login") |}.

(** Three files, 250 lines changed. *)
Definition files3 : list RawFile :=
  [file "src/login/login.ts" 100; file "src/login/session.ts" 100;
   file "src/login/login.css" 50].

(** A run of the regression scoring. *)
Definition changedFiles : list jsstring := [lit "src/app/webform/webform.component.ts"].
Definition components : list jsstring := [lit "Webform"; lit "Billing"].
Definition keywords : list jsstring := [lit "webform"; lit "submit"].
Definition prTitle : jsstring := lit "fix: webform submit button disabled".

Definition webformTest : RegressionTest :=
  {| rt_id := 11;
     rt_title := Some (lit "Verify webform submit button disabled when required fields empty");
     rt_refs := None; rt_custom_fields := lit "{}";
     rt_sectionPath := Some (lit "Forms > Applicant > Webform");
     rt_section_id := Some 5; rt_priority_id := Some 1 |}.

(** A generic test in a shallow section. *)
Definition billingTest : RegressionTest :=
  {| rt_id := 12; rt_title := Some (lit "Billing summary");
     rt_refs := None; rt_custom_fields := lit "{}";
     rt_sectionPath := Some (lit "Regression");
     rt_section_id := Some 1; rt_priority_id := Some 3 |}.

Definition loginTest : RegressionTest :=
  {| rt_id := 13; rt_title := Some (lit "Login page loads");
     rt_refs := None; rt_custom_fields := lit "{}";
     rt_sectionPath := None; rt_section_id := None; rt_priority_id := None |}.

Definition renderTest : RegressionTest :=
  {| rt_id := 14; rt_title := Some (lit "Webform renders");
     rt_refs := None; rt_custom_fields := lit "{}";
     rt_sectionPath := Some (lit "Regression"); rt_section_id := None;
     rt_priority_id := None |}.

Definition regressionTests : list RegressionTest :=
  [loginTest; renderTest; billingTest; webformTest].

Definition context : ScoringContext :=
  scoringContext matrix changedFiles components keywords prTitle [].

End Sample.
(** ** Further functions of the two services *)

(** *** Size tiers ([determinePRType]) *)

Definition determinePRType (filesChanged : Z) : jsstring :=
  if filesChanged <=? 2 then lit "Relaxed"
  else if filesChanged <=? 5 then lit "Sleepy"
  else if filesChanged <=? 10 then lit "Sarcastic"
  else if filesChanged <=? 20 then lit "Overloaded"
  else lit "Angry".

(** The same run with one more keyword. *)
Definition withKeyword (c : ScoringContext) (kw : jsstring) : ScoringContext :=
  {| sc_changedFiles := sc_changedFiles c;
     sc_components := sc_components c;
     sc_keywords := sc_keywords c ++ [kw];
     sc_functionalAreas := sc_functionalAreas c;
     sc_shared := sc_shared c;
     sc_prContext := sc_prContext c |}.

(** A changed file that [extractPRContext] counts as markup or as code. *)
Definition markupOrCode (file : jsstring) : bool :=
  List.existsb (fun suf => endsWith (toLowerCase file) (lit suf))
               [".html"; ".htm"; ".ts"; ".js"; ".jsx"; ".java"]%string.

(** The line counts of a changed-file entry, as [analyzePR] reads them, are
    not negative. *)
Definition nonNegativeLines (f : RawFile) : Prop :=
  0 <= linesOr (rf_linesAdded f) (rf_lines_added f)
  /\ 0 <= linesOr (rf_linesRemoved f) (rf_lines_removed f).

(** *** Search by criteria ([searchTestCases]) *)

(** The criteria of a search; a missing list is the empty list, a missing
    ticket id is [None]. *)
Record Criteria := mkCriteria {
  cr_components : list jsstring;
  cr_keywords : list jsstring;
  cr_jiraId : option jsstring
}.

(** [s.replace(/([a-z])([A-Z])/g, '$1 $2')]: a space between a small letter
    and the capital that follows it. *)
Fixpoint spaceCamelCase (s : jsstring) : jsstring :=
  match s with
  | a :: r =>
      match r with
      | b :: _ =>
          if is_lower a && is_upper b
          then a :: 32%N :: spaceCamelCase r
          else a :: spaceCamelCase r
      | [] => [a]
      end
  | [] => []
  end.

(** [s.replace(/[\s_-]+/g, ' ')]: every run of separators becomes one
    space; [inRun] tells whether the previous character was a separator. *)
Fixpoint collapseSeparators (inRun : bool) (s : jsstring) : jsstring :=
  match s with
  | c :: r =>
      if is_part_sep c
      then if inRun then collapseSeparators true r
           else 32%N :: collapseSeparators true r
      else c :: collapseSeparators false r
  | [] => []
  end.

Definition longerThan2 (word : jsstring) : bool := Nat.ltb 2 (length word).

(** The search terms of one component: the whole name, then its words. *)
Definition componentTerms (comp : jsstring) : list jsstring :=
  let whole := if longerThan2 comp then [toLowerCase comp] else [] in
  let words := split_string (lit " ") (collapseSeparators false (spaceCamelCase comp)) in
  whole ++ List.map toLowerCase (List.filter longerThan2 words).

Definition keywordTerms (kw : jsstring) : list jsstring :=
  List.map toLowerCase (List.filter longerThan2 (split_class_plus is_space kw)).

Definition criteriaSearchTerms (criteria : Criteria) : list jsstring :=
  List.flat_map componentTerms (cr_components criteria)
  ++ List.flat_map keywordTerms (cr_keywords criteria).

(** The ticket id of the criteria occurs in the reference field. *)
Definition referencesTicket (criteria : Criteria) (testCase : RegressionTest) : bool :=
  match cr_jiraId criteria with
  | Some jiraId =>
      truthy jiraId
      && includes (toLowerCase (orEmpty (rt_refs testCase))) (toLowerCase jiraId)
  | None => false
  end.

(** The score of one test case: 100 for the ticket reference, then 10 for
    every search term found in the title and 3 for every other one found in
    the title, the references or the custom fields. *)
Definition searchScore (criteria : Criteria) (searchTerms : list jsstring)
    (testCase : RegressionTest) : Z :=
  let title := toLowerCase (orEmpty (rt_title testCase)) in
  let refs := toLowerCase (orEmpty (rt_refs testCase)) in
  let customFields := toLowerCase (rt_custom_fields testCase) in
  let searchText := title ++ lit " " ++ refs ++ lit " " ++ customFields in
  let score := 0 in
  let score := if referencesTicket criteria testCase then score + 100 else score in
  List.fold_left
    (fun score term =>
       if includes title term then score + 10
       else if includes searchText term then score + 3
       else score)
    searchTerms score.

(** [searchTestCases], from the cases of the suite to the returned list. *)
Definition searchTestCases (cases : list RegressionTest) (criteria : Criteria)
    : list RegressionTest :=
  let searchTerms := criteriaSearchTerms criteria in
  let scoredCases :=
    List.flat_map
      (fun testCase =>
         let score := searchScore criteria searchTerms testCase in
         if 0 <? score then [ {| st_testCase := testCase; st_score := score |} ] else [])
      cases in
  List.map st_testCase (sortByScore scoredCases).

(** The score [searchTestCases] gives a case. *)
Definition scoreOf (criteria : Criteria) (testCase : RegressionTest) : Z :=
  searchScore criteria (criteriaSearchTerms criteria) testCase.

(** *** Upload of new cases ([bulkAddTestCases]) *)

(** A case to create; the loop reads its title only. *)
Record NewCase := mkNewCase {
  nc_title : jsstring
}.

(** What [addTestCase] does with a request: it returns the created case,
    or throws. *)
Inductive Response :=
  | Created (id : Z)
  | Thrown (message : jsstring).

Record Uploaded := mkUploaded { up_title : jsstring; up_id : Z }.
Record Failure := mkFailure { fl_title : jsstring; fl_error : jsstring }.

Record BulkResults := mkBulkResults {
  success : list Uploaded;
  failed : list Failure;
  skipped : list NewCase
}.

(** What the progress callback is told before each request. *)
Record Progress := mkProgress {
  pg_current : Z;
  pg_total : Z;
  pg_testCase : jsstring
}.

(** The loop from index [i] on.  [addTestCase i testCase] is the outcome of
    the request made for the case at index [i]; the state is the results
    object and the list of the progress reports made so far. *)
Fixpoint uploadFrom (addTestCase : nat -> NewCase -> Response) (total : nat) (i : nat)
    (testCases : list NewCase) (results : BulkResults) (reports : list Progress)
    : BulkResults * list Progress :=
  match testCases with
  | [] => (results, reports)
  | testCase :: rest =>
      let reports :=
        reports ++ [ {| pg_current := Z.of_nat i + 1; pg_total := Z.of_nat total;
                        pg_testCase := nc_title testCase |} ] in
      match addTestCase i testCase with
      | Created id =>
          uploadFrom addTestCase total (S i) rest
            {| success := success results
                          ++ [ {| up_title := nc_title testCase; up_id := id |} ];
               failed := failed results;
               skipped := skipped results |}
            reports
      | Thrown message =>
          ({| success := success results;
              failed := failed results
                        ++ [ {| fl_title := nc_title testCase; fl_error := message |} ];
              skipped := skipped results |},
           reports)
      end
  end.

Definition bulkAddTestCases (addTestCase : nat -> NewCase -> Response)
    (testCases : list NewCase) : BulkResults * list Progress :=
  uploadFrom addTestCase (length testCases) 0 testCases
             {| success := []; failed := []; skipped := [] |} [].

(** *** Section paths ([getSectionsWithHierarchy]) *)

(** A section as TestRail returns it; [s_parent_id] is [None] for a section
    without parent. *)
Record TrSection := mkTrSection {
  s_id : Z;
  s_name : jsstring;
  s_parent_id : option Z
}.

(** [new Map(sections.map(s => [s.id, s]))]: of two sections with one id the
    later one stays. *)
Definition sectionMapOf (sections : list TrSection) : gmap Z TrSection :=
  List.fold_left (fun m s => <[ s_id s := s ]> m) sections ∅.

(** [current.parent_id ? sectionMap.get(current.parent_id) : null]. *)
Definition parentOf (sectionMap : gmap Z TrSection) (current : TrSection)
    : option TrSection :=
  if truthyNum (s_parent_id current)
  then sectionMap !! default 0 (s_parent_id current)
  else None.

(** The loop [while (current) { path.unshift(current.name); current = ... }].
    The source sets no bound on it; [fuel] bounds the number of rounds, and
    [None] says that the loop has not ended within them. *)
Fixpoint walkUp (fuel : nat) (sectionMap : gmap Z TrSection)
    (current : option TrSection) (path : list jsstring) : option (list jsstring) :=
  match current with
  | None => Some path
  | Some section =>
      match fuel with
      | O => None
      | S fuel' =>
          walkUp fuel' sectionMap (parentOf sectionMap section) (s_name section :: path)
      end
  end.

(** The [path] a section is given. *)
Definition sectionPath (fuel : nat) (sectionMap : gmap Z TrSection) (section : TrSection)
    : option jsstring :=
  option_map (join (lit " > ")) (walkUp fuel sectionMap (Some section) []).

(** [sections.forEach]: every section in turn, each paired with its path. *)
Fixpoint withPaths (fuel : nat) (sectionMap : gmap Z TrSection)
    (sections : list TrSection) : option (list (TrSection * jsstring)) :=
  match sections with
  | [] => Some []
  | section :: rest =>
      match sectionPath fuel sectionMap section with
      | Some path =>
          option_map (cons (section, path)) (withPaths fuel sectionMap rest)
      | None => None
      end
  end.

Definition getSectionsWithHierarchy (fuel : nat) (sections : list TrSection)
    : option (list (TrSection * jsstring)) :=
  withPaths fuel (sectionMapOf sections) sections.

(** *** Regression cases ([getRegressionTestCases]) *)

(** [tc.sectionPath = path]. *)
Definition withSectionPath (path : jsstring) (tc : RegressionTest) : RegressionTest :=
  {| rt_id := rt_id tc; rt_title := rt_title tc; rt_refs := rt_refs tc;
     rt_custom_fields := rt_custom_fields tc; rt_sectionPath := Some path;
     rt_section_id := rt_section_id tc; rt_priority_id := rt_priority_id tc |}.

(** [new Map(sectionsWithPaths.map(s => [s.id, s.path]))]. *)
Definition sectionPathMapOf (sectionsWithPaths : list (TrSection * jsstring))
    : gmap Z jsstring :=
  List.fold_left (fun m s => <[ s_id (fst s) := snd s ]> m) sectionsWithPaths ∅.

(** The enrichment of a case of the whole suite: the path of its section
    when the section is known. *)
Definition enrichWithPath (sectionPathMap : gmap Z jsstring) (tc : RegressionTest)
    : RegressionTest :=
  if truthyNum (rt_section_id tc)
  then match sectionPathMap !! default 0 (rt_section_id tc) with
       | Some path => withSectionPath path tc
       | None => tc
       end
  else tc.

(** The filter of the folder method: the keyword occurs in the name or in
    the path of the section, compared in lower case. *)
Definition isRegressionSection (keyword : jsstring) (s : TrSection * jsstring) : bool :=
  includes (toLowerCase (s_name (fst s))) (toLowerCase keyword)
  || (truthy (snd s) && includes (toLowerCase (snd s)) (toLowerCase keyword)).

(** [section.path || section.name]. *)
Definition pathOrName (s : TrSection * jsstring) : jsstring :=
  if truthy (snd s) then snd s else s_name (fst s).

(** [getRegressionTestCases] on the answers of TestRail: [sections] are the
    sections of the suite, [suiteCases] the cases of the whole suite and
    [sectionCases id] the cases of the section [id].  The result is [None]
    when the section paths cannot be built within [fuel] rounds. *)
Definition getRegressionTestCases (fuel : nat) (sections : list TrSection)
    (suiteCases : list RegressionTest) (sectionCases : Z -> list RegressionTest)
    (method keyword : jsstring) : option (list RegressionTest) :=
  match getSectionsWithHierarchy fuel sections with
  | None => None
  | Some sectionsWithPaths =>
      let sectionPathMap := sectionPathMapOf sectionsWithPaths in
      if str_eqb method (lit "folder")
      then
        let regressionSections :=
          List.filter (isRegressionSection keyword) sectionsWithPaths in
        match regressionSections with
        | [] => Some (List.map (enrichWithPath sectionPathMap) suiteCases)
        | _ =>
            Some (List.flat_map
                    (fun section =>
                       List.map (withSectionPath (pathOrName section))
                                (sectionCases (s_id (fst section))))
                    regressionSections)
        end
      else Some (List.map (enrichWithPath sectionPathMap) suiteCases)
  end.

(** *** Keywords of changed paths ([extractFileKeywords]) *)

Definition fileStopWords : list jsstring :=
  List.map lit
    ["src"; "app"; "common"; "components"; "services"; "models"; "views"; "controllers";
     "utils"; "lib"; "core"]%string.

(** [s.replace(/([A-Z])/g, ' $1')]. *)
Definition spaceBeforeCapitals (s : jsstring) : jsstring :=
  List.flat_map (fun c => if is_upper c then [32%N; c] else [c]) s.

(** The class of [/[._-]/]. *)
Definition is_punctuation (c : char) : bool :=
  N.eqb c 46 || N.eqb c 95 || N.eqb c 45.

(** [s.replace(/[._-]/g, ' ')]. *)
Definition punctuationToSpace (s : jsstring) : jsstring :=
  List.map (fun c => if is_punctuation c then 32%N else c) s.

(** The words of one segment of a path. *)
Definition wordsOfPart (part : jsstring) : list jsstring :=
  let cleanPart := strip_extension part in
  split_class_plus is_space
    (toLowerCase (trim (punctuationToSpace (spaceBeforeCapitals cleanPart)))).

(** The filter on the words: four characters or more, no stop word,
    lower-case alphanumeric. *)
Definition fileKeyword (word : jsstring) : bool :=
  Nat.leb 4 (length word) && negb (mem word fileStopWords) && is_alnum_lower word.

(** [extractFileKeywords]; a file is given by its [path], which may be
    missing. *)
Definition extractFileKeywords (files : list (option jsstring)) : list jsstring :=
  uniq (List.flat_map
          (fun file =>
             let path := orEmpty file in
             List.flat_map (fun part => List.filter fileKeyword (wordsOfPart part))
                           (split_string (lit "/") path))
          files).

(** *** Components of a change set ([extractComponents]) *)

Definition skipWords : list jsstring :=
  List.map lit
    ["src"; "app"; "common"; "components"; "services"; "models"; "views";
     "controllers"]%string.

(** [set.add(x)] on a set held as the list of its elements in insertion
    order. *)
Definition setAdd (x : jsstring) (l : list jsstring) : list jsstring :=
  if mem x l then l else l ++ [x].

Definition upper_char (c : char) : char :=
  if is_lower c then (c - 32)%N else c.

(** [kw.charAt(0).toUpperCase() + kw.slice(1)]. *)
Definition capitalize (kw : jsstring) : jsstring :=
  match kw with
  | c :: r => upper_char c :: r
  | [] => []
  end.

(** The keywords one path contributes: the readable form of every segment
    that is longer than three characters and no skip word. *)
Definition pathKeywords (path : jsstring) : list jsstring :=
  List.flat_map
    (fun part =>
       if truthy part && negb (mem (toLowerCase part) skipWords)
          && Nat.ltb 3 (length part)
       then
         let readable := trim (punctuationToSpace (spaceBeforeCapitals part)) in
         if truthy readable && negb (includes readable (lit "."))
         then [readable] else []
       else [])
    (split_string (lit "/") path).

(** The two sets the function builds. *)
Record Extracted := mkExtracted {
  ex_components : list jsstring;
  ex_keywords : list jsstring
}.

(** One round of [files.forEach]. *)
Definition extractFrom (componentMapping : list (jsstring * jsstring))
    (sets : Extracted) (file : option jsstring) : Extracted :=
  let path := orEmpty file in
  let components :=
    List.fold_left
      (fun components entry =>
         if includes (toLowerCase path) (toLowerCase (fst entry))
         then setAdd (snd entry) components else components)
      componentMapping (ex_components sets) in
  let keywords :=
    List.fold_left (fun keywords kw => setAdd kw keywords)
                   (pathKeywords path) (ex_keywords sets) in
  let components :=
    if isEmpty components && negb (isEmpty keywords)
    then List.fold_left (fun components kw => setAdd (capitalize kw) components)
                        keywords components
    else components in
  {| ex_components := components; ex_keywords := keywords |}.

(** [extractComponents]; a file is given by its [path], which may be missing,
    and [componentMapping] by its entries. *)
Definition extractComponents (files : list (option jsstring))
    (componentMapping : list (jsstring * jsstring)) : Extracted :=
  List.fold_left (extractFrom componentMapping) files
                 {| ex_components := []; ex_keywords := [] |}.

(** A path that a pattern of the mapping matches. *)
Definition mapped (componentMapping : list (jsstring * jsstring)) (file : option jsstring)
    : bool :=
  List.existsb
    (fun entry => includes (toLowerCase (orEmpty file)) (toLowerCase (fst entry)))
    componentMapping.

(** *** Duplicates of a ticket ([checkForDuplicates]) *)

(** Text of the first 128 code points. *)
Definition asciiText (s : jsstring) : Prop := List.Forall (fun c => (c < 128)%N) s.

(** What [String.prototype.toUpperCase] gives on such text: every letter
    from a to z becomes its capital.  On other text the result need not have
    the length of the string (the sharp s becomes two capitals). *)
Definition asciiUpperCase (s : jsstring) : jsstring := List.map upper_char s.

(** [checkForDuplicates] on the cases of the section: those whose reference
    field contains one of the ticket ids, compared in upper case.
    [toUpperCase] stands for [String.prototype.toUpperCase]. *)
Definition checkForDuplicates (toUpperCase : jsstring -> jsstring)
    (existingCases : list TestCase) (jiraRefs : list jsstring)
    : list TestCase :=
  List.filter
    (fun testCase =>
       let refs := toUpperCase (orEmpty (tc_refs testCase)) in
       List.existsb (fun jiraId => includes refs (toUpperCase jiraId)) jiraRefs)
    existingCases.

(** *** Pull-request URLs ([parsePRUrl]) *)

(** What [parsePRUrl] returns: [{ project, repo, prId }] for a server,
    [{ workspace, repo, prId }] for the cloud. *)
Inductive ParsedUrl :=
  | ServerPR (project repo prId : jsstring)
  | CloudPR (workspace repo prId : jsstring).

(** The class [[^/]]. *)
Definition not_slash (c : char) : bool := negb (N.eqb c 47).

(** A literal of the pattern at the start of [s]: what follows it. *)
Definition afterLiteral (literal s : jsstring) : option jsstring :=
  if startsWith literal s then Some (List.skipn (length literal) s) else None.

(** A group [([^/]+)] or [(\d+)] at the start of [s]: the longest run of the
    class, which must not be empty, and what follows it.  In both patterns a
    group of [[^/]+] is followed by a slash, so that no shorter run can
    match. *)
Definition group (class : char -> bool) (s : jsstring) : option (jsstring * jsstring) :=
  match span class s with
  | O => None
  | n => Some (List.firstn n s, List.skipn n s)
  end.

(** The pattern [prefix([^/]+)between([^/]+)\/pull-requests\/(\d+)] at the
    start of [s]. *)
Definition matchHere (prefix between s : jsstring)
    : option (jsstring * jsstring * jsstring) :=
  match afterLiteral prefix s with
  | None => None
  | Some s1 =>
      match group not_slash s1 with
      | None => None
      | Some (first, s2) =>
          match afterLiteral between s2 with
          | None => None
          | Some s3 =>
              match group not_slash s3 with
              | None => None
              | Some (second, s4) =>
                  match afterLiteral (lit "/pull-requests/") s4 with
                  | None => None
                  | Some s5 =>
                      match group is_digit s5 with
                      | None => None
                      | Some (digits, _) => Some (first, second, digits)
                      end
                  end
              end
          end
      end
  end.

(** [s.match(pattern)]: the match at the first position that has one. *)
Fixpoint firstMatch (prefix between s : jsstring)
    : option (jsstring * jsstring * jsstring) :=
  match matchHere prefix between s with
  | Some found => Some found
  | None =>
      match s with
      | [] => None
      | _ :: rest => firstMatch prefix between rest
      end
  end.

(** [parsePRUrl]; [None] stands for the error 'Invalid Bitbucket PR URL
    format'. *)
Definition parsePRUrl (isServer : bool) (prUrl : jsstring) : option ParsedUrl :=
  if isServer
  then match firstMatch (lit "projects/") (lit "/repos/") prUrl with
       | Some (project, repo, prId) => Some (ServerPR project repo prId)
       | None => None
       end
  else match firstMatch (lit "bitbucket.org/") (lit "/") prUrl with
       | Some (workspace, repo, prId) => Some (CloudPR workspace repo prId)
       | None => None
       end.

(** The path [getPRDetails] requests from a server for a parsed URL. *)
Definition serverRequestPath (project repo prId : jsstring) : jsstring :=
  lit "/projects/" ++ project ++ lit "/repos/" ++ repo ++ lit "/pull-requests/" ++ prId.

(** *** The file list of [getPRDetails] *)

(** A changed-file entry as [getPRDetails] reads it: the fields [analyzePR]
    reads, and the other string-valued properties of the entry in
    enumeration order, for the last resort of its path helper.  A path given
    as an object is a plain object as [JSON.parse] builds it, so that its
    inherited [toString] gives '[object Object]' and that branch of the
    helper never returns. *)
Record ChangeEntry := mkChangeEntry {
  ce_file : RawFile;
  ce_strings : list (jsstring * jsstring)
}.

(** The properties of a path object that the helper passes over. *)
Definition fragmentKeys : list jsstring :=
  List.map lit ["parent"; "name"; "extension"; "components"]%string.

Fixpoint firstWholeStringProp (props : list (jsstring * option jsstring))
    : option jsstring :=
  match props with
  | [] => None
  | (key, Some s) :: r => if mem key fragmentKeys then firstWholeStringProp r else Some s
  | (_, None) :: r => firstWholeStringProp r
  end.

(** The helper [getPath] of [getPRDetails]. *)
Definition detailsPath (e : ChangeEntry) : jsstring :=
  let f := ce_file e in
  let fallback :=
    match truthyPath (rf_new_path f) with
    | Some s => s
    | None =>
        match truthyPath (rf_old_path f) with
        | Some s => s
        | None =>
            match List.find (fun kv => includes (snd kv) (lit ".")) (ce_strings e) with
            | Some kv => snd kv
            | None => lit "[unknown]"
            end
        end
    end in
  match rf_path f with
  | PathString s => s
  | PathObject props =>
      match stringProp "toString" props with
      | Some s => s
      | None =>
          match stringProp "value" props with
          | Some s => s
          | None =>
              match stringProp "text" props with
              | Some s => s
              | None =>
                  match firstWholeStringProp props with
                  | Some s => s
                  | None => fallback
                  end
              end
          end
      end
  | PathOther => fallback
  end.

(** An entry of the returned file list ([status] is left out). *)
Record FileInfo := mkFileInfo {
  fi_path : jsstring;
  fi_linesAdded : Z;
  fi_linesRemoved : Z
}.

(** What [getPRDetails] computes from the pull request and its change
    entries (the fields copied from the pull request are left out). *)
Record PRDetails := mkPRDetails {
  pd_filesChanged : Z;
  pd_files : list FileInfo;
  pd_analysis : Analysis
}.

Definition getPRDetails (pr : PullRequest) (files : list ChangeEntry) : PRDetails :=
  {| pd_filesChanged := Z.of_nat (length files);
     pd_files :=
       List.map
         (fun e =>
            {| fi_path := detailsPath e;
               fi_linesAdded :=
                 linesOr (rf_linesAdded (ce_file e)) (rf_lines_added (ce_file e));
               fi_linesRemoved :=
                 linesOr (rf_linesRemoved (ce_file e)) (rf_lines_removed (ce_file e)) |})
         files;
     pd_analysis := analyzePR pr (List.map ce_file files) |}.

(** An entry with its path as a string, or without [path] and with the path
    of its new or old side: the shapes on which the two path helpers take
    the same branch. *)
Definition plainEntry (e : ChangeEntry) : Prop :=
  match rf_path (ce_file e) with
  | PathString _ => True
  | PathObject _ => False
  | PathOther =>
      truthyPath (rf_new_path (ce_file e)) <> None
      \/ truthyPath (rf_old_path (ce_file e)) <> None
  end.

(** The tests of [analyzePR] on a path. *)
Definition sharedPath (path : jsstring) : bool :=
  includes path (lit "shared") || includes path (lit "core")
  || includes path (lit "common") || includes path (lit "utils").

Definition stylePath (path : jsstring) : bool :=
  endsWith path (lit ".css") || endsWith path (lit ".scss")
  || endsWith path (lit ".less") || includes path (lit "style").

(** A path object of a server: [components] (an array), then the fragments
    and the whole path. *)
Definition serverPath (parent name extension whole : jsstring) : PathField :=
  PathObject [(lit "components", None); (lit "parent", Some parent);
              (lit "name", Some name); (lit "extension", Some extension);
              (lit "toString", Some whole)].

(** *** Further sample data *)

Module Fixture.

(** The entry of [Sample.case4] as the component stage builds it for
    [Sample.options]. *)
Definition webformEntry : ImpactEntry :=
  enrichedTC {| m_testCase := Sample.case4;
                m_jiraComponent := lit "Applicant-Webform";
                m_matchedBy := [];
                m_matchedTerm := lit "webform";
                m_matchedKeywords := Some [lit "webform"];
                m_matchedFileKeywords := Some [lit "webform"] |}.

(** A search with a ticket id, and one whose words are all too short. *)
Definition criteria : Criteria :=
  {| cr_components := [lit "Webform"]; cr_keywords := [lit "submit button"];
     cr_jiraId := Some (lit "proj-12") |}.

Definition shortCriteria : Criteria :=
  {| cr_components := [lit "UI"]; cr_keywords := [lit "to be"];
     cr_jiraId := Some (lit "PROJ-12") |}.

Definition referencedTest : RegressionTest :=
  {| rt_id := 21; rt_title := Some (lit "Applicant profile is saved");
     rt_refs := Some (lit "PROJ-12"); rt_custom_fields := lit "{}";
     rt_sectionPath := None; rt_section_id := Some 2; rt_priority_id := None |}.

(** A suite with a regression folder and a folder below it, and a section
    that names itself as its parent. *)
Definition regression : TrSection :=
  {| s_id := 1; s_name := lit "Regression"; s_parent_id := None |}.

Definition login : TrSection :=
  {| s_id := 2; s_name := lit "Login"; s_parent_id := Some 1 |}.

Definition loop : TrSection :=
  {| s_id := 7; s_name := lit "Loop"; s_parent_id := Some 7 |}.

Definition sectionCases (id : Z) : list RegressionTest :=
  if id =? 2 then [Sample.loginTest] else [].

Definition byId (section : TrSection) : nat := Z.to_nat (s_id section).

(** The mapping of the configuration template, in part. *)
Definition componentMapping : list (jsstring * jsstring) :=
  [(lit "src/auth", lit "Authentication"); (lit "src/reports", lit "Reports")].

Definition serverUrl : jsstring :=
  lit "https://bitbucket.company.com/projects/PROJ/repos/repo-name/pull-requests/123".

(** A change entry of a server and one with its path as a string. *)
Definition serverEntry : ChangeEntry :=
  {| ce_file :=
       {| rf_path := serverPath (lit "src/app") (lit "login.css") (lit "css")
                                (lit "src/app/login.css");
          rf_new_path := None; rf_old_path := None;
          rf_linesAdded := None; rf_lines_added := None;
          rf_linesRemoved := None; rf_lines_removed := None |};
     ce_strings := [(lit "type", lit "MODIFY")] |}.

Definition plainFile : ChangeEntry :=
  {| ce_file := Sample.file "src/shared/theme.css" 12; ce_strings := [] |}.

End Fixture.

(** * Properties *)

(** ** The functions on sample inputs *)

Example extract_example :
  extractSignificantKeywords (lit "Fix the login-page validation, for Login page. done")
  = [lit "login"; lit "page"; lit "validation"].
Proof. vm_compute. reflexivity. Qed.

Example split_keeps_empty_ends :
  split_class_plus is_keyword_sep (lit " a,b- ") = [[]; lit "a"; lit "b"; []].
Proof. vm_compute. reflexivity. Qed.

Example folders_example :
  foldersOf (Sample.case1.(tc_sectionPath)) = [lit "Forms"; lit "Applicant"; lit "Webform"].
Proof. vm_compute. reflexivity. Qed.

Example resolve_webform :
  resolveTags Sample.matrix (lit "Applicant-Webform") = [lit "webform"; lit "form-submission"]
  /\ searchTermsOf (resolveTags Sample.matrix (lit "Applicant-Webform"))
     = [lit "webform"; lit "form"; lit "submission"].
Proof. split; vm_compute; reflexivity. Qed.

Example impact_example :
  exists r,
    getImpactedTestCases Sample.inventory Sample.options = Some r
    /\ List.map e_id (directJiraMatch r) = [1; 3]
    /\ List.map e_id (componentWithKeywords r) = [4]
    /\ List.map e_id (allCases r) = [1; 3; 4].
Proof.
  destruct (getImpactedTestCases Sample.inventory Sample.options) as [r|] eqn:E.
  - exists r. split; [reflexivity|]. vm_compute in E. injection E as <-.
    repeat split.
  - vm_compute in E. discriminate E.
Qed.

Example impact_example_throw :
  getImpactedTestCases [Sample.constructorCase] Sample.constructorOptions = None.
Proof. vm_compute. reflexivity. Qed.

Example reporting_widget_scenario :
  let a := analyzePR Sample.widgetPR Sample.files15 in
  category a = Angry /\ riskScore a = 30 /\ riskLevel a = Medium.
Proof. repeat split; vm_compute; reflexivity. Qed.

Example file_stem_example :
  fileStem (lit "src/app/webform/webform.component.ts") = lit "webform.component".
Proof. vm_compute. reflexivity. Qed.

Example bug_fix_titles :
  bugFixTitle (lit "fix: webform submit button disabled") = true
  /\ bugFixTitle (lit "debug the prefix handling") = false
  /\ bugFixTitle (lit "resolve issue with login") = true.
Proof. repeat split; vm_compute; reflexivity. Qed.

(** ** Characters and strings *)

Ltac char_arith :=
  unfold is_keyword_sep, is_part_sep, is_space, is_upper, is_lower, is_digit, is_word in *;
  repeat match goal with
         | |- _ = false => apply not_true_iff_false; intro
         | H : _ = false |- _ => apply not_true_iff_false in H
         end;
  rewrite ?orb_true_iff, ?andb_true_iff, ?N.leb_le, ?N.eqb_eq in *;
  lia.

Lemma alnum_not_keyword_sep c :
  is_lower c || is_digit c = true -> is_keyword_sep c = false.
Proof. intros H. char_arith. Qed.

Lemma alnum_not_upper c :
  is_lower c || is_digit c = true -> is_upper c = false.
Proof. intros H. char_arith. Qed.

Lemma lower_char_upper c : is_upper (lower_char c) = false.
Proof.
  unfold lower_char. destruct (is_upper c) eqn:E; [|exact E]. char_arith.
Qed.

Lemma lower_char_id c : is_upper c = false -> lower_char c = c.
Proof. intros H. unfold lower_char. now rewrite H. Qed.

Lemma toLowerCase_id s :
  Forall (fun c => is_upper c = false) s -> toLowerCase s = s.
Proof.
  induction 1 as [|c s Hc _ IH]; simpl; [reflexivity|].
  now rewrite lower_char_id, IH.
Qed.

Lemma toLowerCase_no_upper s : Forall (fun c => is_upper c = false) (toLowerCase s).
Proof.
  induction s as [|c s IH]; simpl; constructor; auto using lower_char_upper.
Qed.

Lemma toLowerCase_idempotent s : toLowerCase (toLowerCase s) = toLowerCase s.
Proof. apply toLowerCase_id, toLowerCase_no_upper. Qed.

Lemma str_eqb_eq a b : str_eqb a b = true <-> a = b.
Proof.
  revert b. induction a as [|x a IH]; intros [|y b]; simpl; split; try congruence.
  - rewrite andb_true_iff, N.eqb_eq, IH. intros [-> ->]. reflexivity.
  - intros [= -> ->]. rewrite N.eqb_refl. simpl. now apply IH.
Qed.

Lemma mem_In s l : mem s l = true <-> In s l.
Proof.
  unfold mem. rewrite existsb_exists. split.
  - intros (x & Hx & E). apply str_eqb_eq in E. now subst.
  - intros H. exists s. split; [exact H|]. now apply str_eqb_eq.
Qed.

(** ** [uniq] *)

Lemma uniq_from_In seen l x : In x (uniq_from seen l) -> In x l.
Proof.
  revert seen. induction l as [|y l IH]; intros seen; simpl; [tauto|].
  destruct (mem y seen); simpl; intros H.
  - right. eapply IH, H.
  - destruct H as [->|H]; [now left|right; eapply IH, H].
Qed.

Lemma uniq_from_Forall (P : jsstring -> Prop) seen l :
  Forall P l -> Forall P (uniq_from seen l).
Proof.
  rewrite !List.Forall_forall. intros H x Hx. eapply H, uniq_from_In, Hx.
Qed.

Lemma uniq_from_idempotent seen l :
  uniq_from seen (uniq_from seen l) = uniq_from seen l.
Proof.
  revert seen. induction l as [|x l IH]; intros seen; simpl; [reflexivity|].
  destruct (mem x seen) eqn:E; [apply IH|].
  simpl. rewrite E. f_equal. apply IH.
Qed.

Lemma uniq_idempotent l : uniq (uniq l) = uniq l.
Proof. apply uniq_from_idempotent. Qed.

Lemma filter_all {A} (p : A -> bool) l :
  Forall (fun x => p x = true) l -> List.filter p l = l.
Proof.
  induction 1 as [|x l Hx _ IH]; simpl; [reflexivity|]. now rewrite Hx, IH.
Qed.

Lemma filter_Forall {A} (p : A -> bool) l :
  Forall (fun x => p x = true) (List.filter p l).
Proof.
  rewrite List.Forall_forall. intros x Hx. now apply List.filter_In in Hx.
Qed.

(** ** Splitting a joined list of words *)

Section SplitJoin.

Variable sep : char -> bool.

Variable space : char.
Hypothesis space_sep : sep space = true.

Lemma splitWith_word w cur s :
  Forall (fun c => sep c = false) w ->
  splitWith (sep_class_plus sep) O cur (w ++ s)
  = splitWith (sep_class_plus sep) O (rev w ++ cur) s.
Proof.
  intros Hw. revert cur. induction Hw as [|c w Hc _ IH]; intros cur; [reflexivity|].
  simpl. unfold sep_class_plus at 1. simpl. rewrite Hc.
  rewrite IH. now rewrite <- app_assoc.
Qed.

Lemma span_word w s : word_of sep w -> span sep (w ++ s) = O.
Proof.
  intros [Hne Hw]. destruct Hw as [|c w Hc _]; [congruence|]. simpl. now rewrite Hc.
Qed.

Lemma join_cons_cons w w' l :
  join [space] (w :: w' :: l) = w ++ space :: join [space] (w' :: l).
Proof. reflexivity. Qed.

Lemma join_starts_word w l :
  word_of sep w -> span sep (join [space] (w :: l)) = O.
Proof.
  intros Hw. destruct l as [|w' l].
  - simpl. rewrite <- (app_nil_r w). now apply span_word.
  - rewrite join_cons_cons. now apply span_word.
Qed.

Lemma splitWith_space cur s :
  span sep s = O ->
  splitWith (sep_class_plus sep) O cur (space :: s)
  = rev cur :: splitWith (sep_class_plus sep) O [] s.
Proof.
  intros H. cbn [splitWith]. unfold sep_class_plus at 1. cbn [span].
  now rewrite space_sep, H.
Qed.

Lemma split_join w l :
  Forall (word_of sep) (w :: l) ->
  split_class_plus sep (join [space] (w :: l)) = w :: l.
Proof.
  unfold split_class_plus. revert w.
  induction l as [|w' l IH]; intros w Hall.
  - inversion Hall as [|? ? [_ Hw] _]; subst. cbn [join].
    rewrite <- (app_nil_r w) at 1. rewrite splitWith_word by exact Hw.
    cbn [splitWith]. now rewrite app_nil_r, rev_involutive.
  - inversion Hall as [|? ? [_ Hw] Hl]; subst.
    inversion Hl as [|? ? Hw' _]; subst.
    rewrite join_cons_cons, splitWith_word by exact Hw.
    rewrite splitWith_space by (now apply join_starts_word).
    rewrite app_nil_r, rev_involutive.
    f_equal. now apply IH.
Qed.

End SplitJoin.

(** ** Keyword extraction *)

Lemma significant_word w : significant w = true -> word_of is_keyword_sep w.
Proof.
  unfold significant, is_alnum_lower.
  rewrite !andb_true_iff, forallb_forall. intros [[Hlen [_ Hall]] _]. split.
  - destruct w; [discriminate|congruence].
  - apply List.Forall_forall. intros c Hc. apply alnum_not_keyword_sep, Hall, Hc.
Qed.

Lemma significant_no_upper w :
  significant w = true -> Forall (fun c => is_upper c = false) w.
Proof.
  unfold significant, is_alnum_lower.
  rewrite !andb_true_iff, forallb_forall. intros [[_ [_ Hall]] _].
  apply List.Forall_forall. intros c Hc. apply alnum_not_upper, Hall, Hc.
Qed.

Lemma join_no_upper l :
  Forall (fun w => Forall (fun c => is_upper c = false) w) l ->
  Forall (fun c => is_upper c = false) (join [32%N] l).
Proof.
  induction 1 as [|w l Hw Hl IH]; [constructor|].
  destruct l as [|w' l]; [exact Hw|].
  change (join [32%N] (w :: w' :: l)) with (w ++ 32%N :: join [32%N] (w' :: l)).
  apply Forall_app. split; [exact Hw|]. constructor; [reflexivity|exact IH].
Qed.

Lemma extract_significant text :
  Forall (fun w => significant w = true) (extractSignificantKeywords text).
Proof.
  unfold extractSignificantKeywords. destruct (negb (truthy text)); [constructor|].
  apply uniq_from_Forall, filter_Forall.
Qed.

(** C9. Keyword extraction is idempotent on its own output: extracting the
    keywords of the space-joined result of an extraction gives the same
    keywords again (the same list, hence the same set). *)
Theorem extract_idempotent :
  forall text : jsstring,
    extractSignificantKeywords (join (lit " ") (extractSignificantKeywords text))
    = extractSignificantKeywords text.
Proof.
  intros text.
  pose proof (extract_significant text) as Hsig.
  assert (Huniq : uniq (extractSignificantKeywords text) = extractSignificantKeywords text).
  { unfold extractSignificantKeywords. destruct (negb (truthy text)); [reflexivity|].
    apply uniq_idempotent. }
  destruct (extractSignificantKeywords text) as [|w l] eqn:E; [reflexivity|].
  change (lit " ") with [32%N].
  unfold extractSignificantKeywords at 1.
  assert (Hwords : Forall (word_of is_keyword_sep) (w :: l)).
  { eapply List.Forall_impl; [|exact Hsig]. intros a. apply significant_word. }
  assert (Htruthy : truthy (join [32%N] (w :: l)) = true).
  { inversion Hwords as [|? ? [Hne _] _]; subst.
    destruct w; [congruence|]. destruct l; reflexivity. }
  rewrite Htruthy. simpl negb. cbv iota.
  rewrite toLowerCase_id.
  2:{ apply join_no_upper. eapply List.Forall_impl; [|exact Hsig].
      intros a. apply significant_no_upper. }
  rewrite <- Huniq at 2. f_equal.
  rewrite <- (filter_all significant (w :: l) Hsig) at 2. f_equal.
  exact (split_join is_keyword_sep 32%N eq_refl w l Hwords).
Qed.

(** ** Component resolution *)

Lemma uniq_from_ext s1 s2 l :
  (forall x, mem x s1 = mem x s2) -> uniq_from s1 l = uniq_from s2 l.
Proof.
  revert s1 s2. induction l as [|x l IH]; intros s1 s2 H; [reflexivity|].
  simpl. rewrite <- (H x). destruct (mem x s1) eqn:E.
  - now apply IH.
  - f_equal. apply IH. intros y. simpl. now rewrite H.
Qed.

Lemma uniq_from_app seen l l' :
  uniq_from seen (l ++ l') = uniq_from seen l ++ uniq_from (rev l ++ seen) l'.
Proof.
  revert seen. induction l as [|x l IH]; intros seen; [reflexivity|].
  simpl. destruct (mem x seen) eqn:E.
  - rewrite IH. f_equal. apply uniq_from_ext. intros y.
    apply eq_true_iff_eq. rewrite !mem_In, <- app_assoc, !in_app_iff. simpl.
    apply mem_In in E. intuition (subst; auto).
  - simpl. rewrite IH. now rewrite <- app_assoc.
Qed.

Lemma uniq_from_seen seen l :
  (forall x, In x l -> In x seen) -> uniq_from seen l = [].
Proof.
  induction l as [|x l IH]; intros H; [reflexivity|].
  simpl. assert (E : mem x seen = true) by (apply mem_In, H; now left).
  rewrite E. apply IH. intros y Hy. apply H. now right.
Qed.

Lemma uniq_app_same l : uniq (l ++ l) = uniq l.
Proof.
  unfold uniq. rewrite uniq_from_app, (uniq_from_seen (rev l ++ []) l).
  - apply app_nil_r.
  - intros x Hx. rewrite app_nil_r. now apply in_rev in Hx.
Qed.

Lemma split_before_upper_from_lower cur s :
  Forall (fun c => is_upper c = false) s ->
  split_before_upper_from cur s = [rev cur ++ s].
Proof.
  intros H. revert cur. induction H as [|c s Hc _ IH]; intros cur; simpl.
  - now rewrite app_nil_r.
  - rewrite Hc. simpl. rewrite IH. simpl. now rewrite <- app_assoc.
Qed.

Lemma split_before_upper_lower s :
  split_before_upper (toLowerCase s) = [toLowerCase s].
Proof. apply split_before_upper_from_lower, toLowerCase_no_upper. Qed.

(** The parts are lower-case already when the expansion looks for capitals. *)
Lemma cleanedParts_lower jiraComp :
  Forall (fun p => exists q, p = toLowerCase q /\ p <> []) (cleanedParts jiraComp).
Proof.
  unfold cleanedParts. apply List.Forall_forall. intros p Hp.
  apply List.filter_In in Hp as [Hp _]. apply List.filter_In in Hp as [Hp Ht].
  apply List.in_map_iff in Hp as (q & <- & _).
  exists (trim q). split; [reflexivity|]. intros E. now rewrite E in Ht.
Qed.

Lemma expandedParts_lower parts :
  Forall (fun p => exists q, p = toLowerCase q /\ p <> []) parts ->
  expandedParts parts = parts.
Proof.
  unfold expandedParts. induction 1 as [|p l (q & -> & _) _ IH]; [reflexivity|].
  simpl. rewrite split_before_upper_lower. simpl.
  now rewrite toLowerCase_idempotent, IH.
Qed.

Lemma expandedParts_cleaned jiraComp :
  expandedParts (cleanedParts jiraComp) = cleanedParts jiraComp.
Proof. apply expandedParts_lower, cleanedParts_lower. Qed.

Lemma componentParts_cleaned jiraComp :
  componentParts jiraComp = uniq (cleanedParts jiraComp).
Proof.
  unfold componentParts. rewrite expandedParts_cleaned, uniq_app_same.
  apply filter_all, uniq_from_Forall.
  eapply List.Forall_impl; [|apply cleanedParts_lower].
  intros p (_ & _ & Hne). now destruct p.
Qed.

Lemma uniq_from_nil_iff seen l :
  uniq_from seen l = [] <-> forall x, In x l -> In x seen.
Proof.
  split; [|apply uniq_from_seen].
  revert seen. induction l as [|x l IH]; intros seen H y Hy; [destruct Hy|].
  simpl in H. destruct (mem x seen) eqn:E; [|discriminate].
  destruct Hy as [->|Hy]; [now apply mem_In|]. now apply (IH seen).
Qed.

Lemma uniq_nil_iff l : uniq l = [] <-> l = [].
Proof.
  unfold uniq. rewrite uniq_from_nil_iff. split.
  - intros H. destruct l as [|x l]; [reflexivity|]. destruct (H x). now left.
  - intros -> x [].
Qed.

(** C6. The camel-case expansion never runs on a capital letter: the parts
    are lower-cased before [split(/(?=[A-Z])/)] sees them, so the expansion
    returns the parts it was given and the part set gains nothing.  The
    label "phsTemplates" resolves to the single part "phstemplates"; neither
    "phs" nor "templates" is a part. *)
Theorem camel_case_expansion_adds_nothing :
  (forall jiraComp : jsstring,
      expandedParts (cleanedParts jiraComp) = cleanedParts jiraComp
      /\ componentParts jiraComp = uniq (cleanedParts jiraComp))
  /\ componentParts (lit "phsTemplates") = [lit "phstemplates"]
  /\ ~ In (lit "phs") (componentParts (lit "phsTemplates"))
  /\ ~ In (lit "templates") (componentParts (lit "phsTemplates"))
  /\ List.map toLowerCase (split_before_upper (lit "phsTemplates"))
     = [lit "phs"; lit "templates"].
Proof.
  split; [|split; [|split; [|split]]].
  - intros jiraComp. split; [apply expandedParts_cleaned|apply componentParts_cleaned].
  - vm_compute. reflexivity.
  - intros H. apply mem_In in H. vm_compute in H. discriminate.
  - intros H. apply mem_In in H. vm_compute in H. discriminate.
  - vm_compute. reflexivity.
Qed.

Lemma cleanedParts_nonempty jiraComp :
  cleanedParts jiraComp <> [] <-> exists p, usable_part jiraComp p.
Proof.
  unfold cleanedParts, usable_part. split.
  - intros H.
    destruct (List.filter _ (List.filter _ _)) as [|x l] eqn:E; [congruence|].
    assert (Hx : In x (x :: l)) by now left. rewrite <- E in Hx.
    apply List.filter_In in Hx as [Hx Hr]. apply List.filter_In in Hx as [Hx Ht].
    apply List.in_map_iff in Hx as (p & <- & Hp).
    exists p. split; [exact Hp|]. split.
    + intros E'. now rewrite E' in Ht.
    + intros Hin. apply mem_In in Hin. now rewrite Hin in Hr.
  - intros (p & Hp & Hne & Hrole) E.
    assert (Hin : In (toLowerCase (trim p))
                     (List.filter (fun p => negb (mem p USER_ROLES))
                        (List.filter truthy
                           (List.map (fun p => toLowerCase (trim p))
                                     (split_class is_part_sep jiraComp))))).
    { apply List.filter_In. split.
      - apply List.filter_In. split.
        + apply List.in_map_iff. now exists p.
        + now destruct (toLowerCase (trim p)).
      - destruct (mem (toLowerCase (trim p)) USER_ROLES) eqn:Em; [|reflexivity].
        now apply mem_In in Em. }
    rewrite E in Hin. destruct Hin.
Qed.

Lemma hasMatch_iff compParts trCompName :
  hasMatch compParts trCompName = true <-> containment compParts trCompName.
Proof.
  unfold hasMatch, containment. rewrite existsb_exists. split.
  - intros (part & Hpart & H). apply existsb_exists in H as (word & Hword & H).
    apply orb_true_iff in H. eauto.
  - intros (part & word & Hpart & Hword & H). exists part. split; [exact Hpart|].
    apply existsb_exists. exists word. split; [exact Hword|]. now apply orb_true_iff.
Qed.

Lemma findComponent_None compParts mapping :
  (forall trCompName trCompObj,
      In (trCompName, trCompObj) mapping -> ~ containment compParts trCompName) ->
  findComponent compParts mapping = None.
Proof.
  induction mapping as [|[name obj] mapping IH]; intros H; [reflexivity|].
  simpl. destruct (hasMatch compParts name) eqn:E.
  - apply hasMatch_iff in E. exfalso. apply (H name obj); [now left|exact E].
  - apply IH. intros n o Hin. apply (H n o). now right.
Qed.

Lemma no_containment_computed compParts trCompName :
  hasMatch compParts trCompName = false -> ~ containment compParts trCompName.
Proof. intros E H. apply hasMatch_iff in H. congruence. Qed.

(** C8 (amended). When no entry of the traceability table matches the parts
    of a component label, in either direction of containment, the parts
    themselves are the tags.  They are not empty exactly when the label has a
    part that is neither blank nor a role name. *)
Theorem no_mapping_falls_back_to_parts :
  forall (mapping : list (jsstring * TrComponent)) (jiraComp : jsstring),
    (forall trCompName trCompObj,
        In (trCompName, trCompObj) mapping ->
        ~ containment (componentParts jiraComp) trCompName) ->
    resolveTags mapping jiraComp = componentParts jiraComp
    /\ (resolveTags mapping jiraComp <> [] <-> exists p, usable_part jiraComp p).
Proof.
  intros mapping jiraComp Hnone. apply findComponent_None in Hnone.
  assert (E : resolveTags mapping jiraComp = componentParts jiraComp).
  { unfold resolveTags. now rewrite Hnone. }
  split; [exact E|].
  rewrite E, componentParts_cleaned, <- cleanedParts_nonempty.
  now rewrite uniq_nil_iff.
Qed.

Lemma no_mapping_falls_back_to_parts_witness :
  resolveTags Sample.matrix (lit "Billing-Admin") = [lit "billing"]
  /\ (resolveTags Sample.matrix (lit "Billing-Admin") <> []
      <-> exists p, usable_part (lit "Billing-Admin") p).
Proof.
  assert (H : forall trCompName trCompObj,
             In (trCompName, trCompObj) Sample.matrix ->
             ~ containment (componentParts (lit "Billing-Admin")) trCompName).
  { intros name obj [E|[]]. injection E as <- _.
    apply no_containment_computed. vm_compute. reflexivity. }
  destruct (no_mapping_falls_back_to_parts Sample.matrix (lit "Billing-Admin") H)
    as [E Hiff].
  split; [|exact Hiff]. rewrite E. vm_compute. reflexivity.
Defined.

(** C8, as stated, fails: the label "Admin" is not empty, it matches no entry
    of the table, and it resolves to no tag at all, because its only part is
    a role name. *)
Lemma role_only_label_has_no_tags :
  lit "Admin" <> []
  /\ findComponent (componentParts (lit "Admin")) Sample.matrix = None
  /\ resolveTags Sample.matrix (lit "Admin") = [].
Proof.
  split; [discriminate|]. split; vm_compute; reflexivity.
Qed.

(** ** First elements by id *)

Section FirstById.

Context {A : Type} (key : A -> Z).

Lemma firstById_In seen l x :
  In x (firstById key seen l) -> In x l /\ key x ∉ seen.
Proof.
  revert seen. induction l as [|y l IH]; intros seen; simpl; [tauto|].
  case_bool_decide as Hy.
  - intros H. apply IH in H as [H1 H2]. auto.
  - intros [->|H]; [auto|]. apply IH in H as [H1 H2]. split; [auto|set_solver].
Qed.

Lemma firstById_NoDup seen l : List.NoDup (List.map key (firstById key seen l)).
Proof.
  revert seen. induction l as [|y l IH]; intros seen; simpl; [constructor|].
  case_bool_decide as Hy; [apply IH|].
  simpl. constructor; [|apply IH].
  intros Hin. apply List.in_map_iff in Hin as (z & Hz & Hin).
  apply firstById_In in Hin as [_ Hin]. set_solver.
Qed.


(** The element kept for an id is the first one of that id in the list. *)
Lemma firstById_first seen l x :
  In x (firstById key seen l) ->
  exists pre post, l = pre ++ x :: post /\ forall y, In y pre -> key y <> key x.
Proof.
  revert seen. induction l as [|y l IH]; intros seen; simpl; [tauto|].
  case_bool_decide as Hy.
  - intros H. pose proof (firstById_In _ _ _ H) as [_ Hx].
    destruct (IH _ H) as (pre & post & -> & Hpre).
    exists (y :: pre), post. split; [reflexivity|].
    intros z [<-|Hz]; [|now apply Hpre]. intros E. rewrite E in Hy. contradiction.
  - intros [->|H].
    + exists [], l. split; [reflexivity|]. intros z [].
    + pose proof (firstById_In _ _ _ H) as [_ Hx].
      destruct (IH _ H) as (pre & post & -> & Hpre).
      exists (y :: pre), post. split; [reflexivity|].
      intros z [<-|Hz]; [|now apply Hpre]. set_solver.
Qed.

End FirstById.

Lemma NoDup_key_inj {A} (key : A -> Z) (l : list A) x y :
  List.NoDup (List.map key l) -> In x l -> In y l -> key x = key y -> x = y.
Proof.
  induction l as [|z l IH]; simpl; [tauto|].
  intros Hnd. inversion Hnd as [|? ? Hz Hl]; subst.
  intros [->|Hx] [->|Hy] E; auto.
  - exfalso. apply Hz. rewrite E. now apply List.in_map.
  - exfalso. apply Hz. rewrite <- E. now apply List.in_map.
Qed.

(** ** The two stages of the impact selection *)

Lemma fold_pushDirect jiraId l a :
  let a' := List.fold_left (pushDirect jiraId) l a in
  acc_direct a' = acc_direct a
                  ++ List.map (directEntry jiraId) (firstById tc_id (seenCaseIds a) l)
  /\ seenCaseIds a' = list_to_set (List.map tc_id l) ∪ seenCaseIds a
  /\ acc_component a' = acc_component a
  /\ acc_grouped a' = acc_grouped a.
Proof.
  revert a. induction l as [|tc l IH]; intros a; simpl.
  - rewrite app_nil_r. repeat split. set_solver.
  - destruct (IH (pushDirect jiraId a tc)) as (H1 & H2 & H3 & H4).
    rewrite H1, H2, H3, H4. unfold pushDirect.
    case_bool_decide as Hin; simpl.
    + repeat split. set_solver.
    + rewrite <- app_assoc. repeat split. set_solver.
Qed.

(** One step of the grouping: it throws exactly when the section path reads
    as an inherited property, and else adds the entry to its group. *)
Lemma pushFinal_cases a m :
  match pushFinal a m with
  | Some a' =>
      readProp (acc_grouped a) (sectionKey (m_testCase m)) <> Inherited
      /\ acc_grouped a'
         = <[ sectionKey (m_testCase m)
              := default [] (acc_grouped a !! sectionKey (m_testCase m)) ++ [enrichedTC m] ]>
             (acc_grouped a)
      /\ acc_direct a' = acc_direct a
      /\ (if bool_decide (matchId m ∈ seenCaseIds a)
          then seenCaseIds a' = seenCaseIds a /\ acc_component a' = acc_component a
          else seenCaseIds a' = {[ matchId m ]} ∪ seenCaseIds a
               /\ acc_component a' = acc_component a ++ [enrichedTC m])
  | None => readProp (acc_grouped a) (sectionKey (m_testCase m)) = Inherited
  end.
Proof.
  unfold pushFinal, readProp, matchId. cbv zeta.
  destruct (acc_grouped a !! sectionKey (m_testCase m)) as [group|] eqn:E;
    [|destruct (mem (sectionKey (m_testCase m)) objectPrototypeKeys); [reflexivity|]];
    case_bool_decide; cbn [acc_grouped acc_direct acc_component seenCaseIds default];
    repeat split; discriminate.
Qed.

(** The walk over the matches, from a state whose groups have no own property
    under an inherited name. *)
Lemma forEach_pushFinal l a :
  (forall key, mem key objectPrototypeKeys = true -> acc_grouped a !! key = None) ->
  match forEachUntilThrow pushFinal l a with
  | Some a' =>
      List.existsb inheritedSection l = false
      /\ acc_component a'
         = acc_component a ++ List.map enrichedTC (firstById matchId (seenCaseIds a) l)
      /\ acc_direct a' = acc_direct a
      /\ (forall key, mem key objectPrototypeKeys = true -> acc_grouped a' !! key = None)
      /\ (forall key,
             acc_grouped a' !! key
             = match List.filter (fun m => bool_decide (sectionKey (m_testCase m) = key)) l
               with
               | [] => acc_grouped a !! key
               | m :: ms =>
                   Some (default [] (acc_grouped a !! key)
                         ++ List.map enrichedTC (m :: ms))
               end)
  | None => List.existsb inheritedSection l = true
  end.
Proof.
  revert a. induction l as [|m l IH]; intros a Hplain; cbn [forEachUntilThrow].
  - cbn [List.existsb firstById List.map List.filter]. rewrite app_nil_r.
    repeat split; auto.
  - pose proof (pushFinal_cases a m) as Hstep.
    assert (Hread : readProp (acc_grouped a) (sectionKey (m_testCase m)) = Inherited
                    <-> inheritedSection m = true).
    { unfold readProp, inheritedSection.
      destruct (mem (sectionKey (m_testCase m)) objectPrototypeKeys) eqn:E.
      - rewrite (Hplain _ E). tauto.
      - destruct (acc_grouped a !! sectionKey (m_testCase m)); split; discriminate. }
    destruct (pushFinal a m) as [a1|]; cbn [List.existsb].
    + destruct Hstep as (Hno & Hg & Hd & Hc).
      assert (Hm : inheritedSection m = false).
      { destruct (inheritedSection m); [|reflexivity]. exfalso. apply Hno, Hread.
        reflexivity. }
      assert (Hplain1 : forall key, mem key objectPrototypeKeys = true ->
                                    acc_grouped a1 !! key = None).
      { intros key Hkey. rewrite Hg. rewrite lookup_insert_ne; [now apply Hplain|].
        intros <-. unfold inheritedSection in Hm. congruence. }
      specialize (IH a1 Hplain1).
      destruct (forEachUntilThrow pushFinal l a1) as [a'|]; [|now rewrite Hm].
      destruct IH as (Hex & Hcomp & Hdir & Hpl & Hgr).
      rewrite Hm. cbn [orb]. split; [exact Hex|].
      split; [|split; [congruence|split; [exact Hpl|]]].
      * rewrite Hcomp. cbn [firstById].
        destruct (bool_decide (matchId m ∈ seenCaseIds a)); destruct Hc as [-> ->];
          [reflexivity|]. cbn [List.map]. now rewrite <- app_assoc.
      * intros key. rewrite Hgr, Hg. cbn [List.filter].
        destruct (bool_decide_reflect (sectionKey (m_testCase m) = key)) as [Hk|Hk].
        -- subst key. rewrite lookup_insert_eq.
           destruct (List.filter _ l); simpl; [reflexivity|].
           now rewrite <- app_assoc.
        -- now rewrite lookup_insert_ne by exact Hk.
    + rewrite (proj1 Hread Hstep). reflexivity.
Qed.

Lemma directStage_direct o inventory :
  acc_direct (directStage o inventory)
  = List.map (directEntry (orEmpty (opt_jiraId o))) (directCases o inventory).
Proof.
  unfold directStage, directCases. destruct (opt_jiraId o) as [jiraId|]; [|reflexivity].
  destruct (truthy jiraId); [|reflexivity].
  now destruct (fold_pushDirect jiraId (jiraMatches jiraId inventory)
                  {| seenCaseIds := ∅; acc_direct := []; acc_component := [];
                     acc_grouped := ∅ |}) as (-> & _).
Qed.

Lemma directStage_component o inventory : acc_component (directStage o inventory) = [].
Proof.
  unfold directStage. destruct (opt_jiraId o) as [jiraId|]; [|reflexivity].
  destruct (truthy jiraId); [|reflexivity].
  now destruct (fold_pushDirect jiraId (jiraMatches jiraId inventory)
                  {| seenCaseIds := ∅; acc_direct := []; acc_component := [];
                     acc_grouped := ∅ |}) as (_ & _ & -> & _).
Qed.

Lemma directStage_grouped o inventory : acc_grouped (directStage o inventory) = ∅.
Proof.
  unfold directStage. destruct (opt_jiraId o) as [jiraId|]; [|reflexivity].
  destruct (truthy jiraId); [|reflexivity].
  now destruct (fold_pushDirect jiraId (jiraMatches jiraId inventory)
                  {| seenCaseIds := ∅; acc_direct := []; acc_component := [];
                     acc_grouped := ∅ |}) as (_ & _ & _ & ->).
Qed.

Lemma directStage_seen o inventory tc :
  In tc (directCases o inventory) -> tc_id tc ∈ seenCaseIds (directStage o inventory).
Proof.
  unfold directStage, directCases. destruct (opt_jiraId o) as [jiraId|]; [|intros []].
  destruct (truthy jiraId); [|intros []].
  intros H. apply firstById_In in H as [H _].
  destruct (fold_pushDirect jiraId (jiraMatches jiraId inventory)
              {| seenCaseIds := ∅; acc_direct := []; acc_component := [];
                 acc_grouped := ∅ |}) as (_ & -> & _).
  apply elem_of_union_l, elem_of_list_to_set, list_elem_of_In.
  now apply List.in_map.
Qed.

(** The function throws exactly when a match that reaches the grouping has a
    section path of an inherited name. *)
Lemma getImpactedTestCases_None inventory o :
  getImpactedTestCases inventory o = None
  <-> List.existsb inheritedSection (walkedMatches o inventory) = true.
Proof.
  unfold getImpactedTestCases, componentStage, walkedMatches.
  destruct (opt_jiraComponents o); [split; discriminate|].
  pose proof (forEach_pushFinal (finalMatches o inventory) (directStage o inventory)) as H.
  rewrite directStage_grouped in H. specialize (H (fun key _ => lookup_empty key)).
  destruct (forEachUntilThrow pushFinal _ _).
  - destruct H as [-> _]. split; discriminate.
  - rewrite H. tauto.
Qed.

(** What the function returns when it returns. *)
Lemma getImpactedTestCases_Some inventory o r :
  getImpactedTestCases inventory o = Some r ->
  directJiraMatch r
  = List.map (directEntry (orEmpty (opt_jiraId o))) (directCases o inventory)
  /\ componentWithKeywords r = List.map enrichedTC (placedMatches o inventory)
  /\ allCases r = directJiraMatch r ++ componentWithKeywords r
  /\ (forall key,
         groupedByModule r !! key
         = match List.filter (fun m => bool_decide (sectionKey (m_testCase m) = key))
                             (walkedMatches o inventory) with
           | [] => None
           | m :: ms => Some (List.map enrichedTC (m :: ms))
           end)
  /\ (forall key, mem key objectPrototypeKeys = true -> groupedByModule r !! key = None).
Proof.
  unfold getImpactedTestCases, componentStage, placedMatches, walkedMatches.
  destruct (opt_jiraComponents o) as [|c cs].
  - intros [= <-]. cbn [directJiraMatch componentWithKeywords allCases groupedByModule].
    rewrite directStage_direct, directStage_component, directStage_grouped.
    repeat split; auto.
  - pose proof (forEach_pushFinal (finalMatches o inventory) (directStage o inventory)) as H.
    rewrite directStage_grouped in H. specialize (H (fun key _ => lookup_empty key)).
    destruct (forEachUntilThrow pushFinal _ _) as [a|]; [|discriminate].
    intros [= <-]. cbn [directJiraMatch componentWithKeywords allCases groupedByModule].
    destruct H as (_ & Hcomp & Hdir & Hplain & Hgr).
    rewrite Hcomp, Hdir, directStage_direct, directStage_component.
    repeat split; auto.
Qed.

Lemma directJiraMatch_eq inventory o r :
  getImpactedTestCases inventory o = Some r ->
  directJiraMatch r
  = List.map (directEntry (orEmpty (opt_jiraId o))) (directCases o inventory).
Proof. intros H. now apply getImpactedTestCases_Some in H. Qed.

Lemma componentWithKeywords_eq inventory o r :
  getImpactedTestCases inventory o = Some r ->
  componentWithKeywords r = List.map enrichedTC (placedMatches o inventory).
Proof. intros H. now apply getImpactedTestCases_Some in H. Qed.

Lemma allCases_eq inventory o r :
  getImpactedTestCases inventory o = Some r ->
  allCases r = directJiraMatch r ++ componentWithKeywords r.
Proof. intros H. now apply getImpactedTestCases_Some in H. Qed.

Lemma directCases_NoDup o inventory :
  List.NoDup (List.map tc_id (directCases o inventory)).
Proof.
  unfold directCases. destruct (opt_jiraId o) as [jiraId|]; [|constructor].
  destruct (truthy jiraId); [apply firstById_NoDup|constructor].
Qed.

Lemma placedMatches_NoDup o inventory :
  List.NoDup (List.map matchId (placedMatches o inventory)).
Proof.
  unfold placedMatches. destruct (opt_jiraComponents o); [constructor|].
  apply firstById_NoDup.
Qed.

Lemma placedMatches_fresh o inventory m tc :
  In m (placedMatches o inventory) -> In tc (directCases o inventory) ->
  tc_id tc <> matchId m.
Proof.
  unfold placedMatches. destruct (opt_jiraComponents o); [intros []|].
  intros Hm Htc E. apply firstById_In in Hm as [_ Hm].
  apply Hm. rewrite <- E. now apply directStage_seen.
Qed.

Lemma allCases_ids inventory o r :
  getImpactedTestCases inventory o = Some r ->
  List.map e_id (allCases r)
  = List.map tc_id (directCases o inventory)
    ++ List.map matchId (placedMatches o inventory).
Proof.
  intros H.
  rewrite (allCases_eq _ _ _ H), (directJiraMatch_eq _ _ _ H),
    (componentWithKeywords_eq _ _ _ H).
  rewrite List.map_app, !List.map_map. reflexivity.
Qed.

Lemma NoDup_app_disjoint {A} (l l' : list A) :
  List.NoDup l -> List.NoDup l' -> (forall x, In x l -> ~ In x l') -> List.NoDup (l ++ l').
Proof.
  induction 1 as [|x l Hx _ IH]; intros Hl' Hdis; simpl; [exact Hl'|].
  constructor.
  - rewrite in_app_iff. intros [H|H]; [contradiction|].
    apply (Hdis x); [now left|exact H].
  - apply IH; [exact Hl'|]. intros y Hy. apply Hdis. now right.
Qed.

Lemma allCases_NoDup inventory o r :
  getImpactedTestCases inventory o = Some r ->
  List.NoDup (List.map e_id (allCases r)).
Proof.
  intros H. rewrite (allCases_ids _ _ _ H). apply NoDup_app_disjoint.
  - apply directCases_NoDup.
  - apply placedMatches_NoDup.
  - intros i Hd Hm.
    apply List.in_map_iff in Hd as (tc & <- & Htc).
    apply List.in_map_iff in Hm as (m & E & Hm).
    now apply (placedMatches_fresh o inventory m tc).
Qed.





(** C3. [allCases] holds each test-case id at most once.  It is the direct
    matches followed by the component-derived ones; a test case found by
    both stages keeps its direct entry only, and within a stage the first
    occurrence of an id is the one kept. *)
Theorem allCases_has_no_duplicate_ids :
  forall (inventory : list TestCase) (o : Options) (r : Results),
    getImpactedTestCases inventory o = Some r ->
    List.NoDup (List.map e_id (allCases r))
    /\ allCases r = directJiraMatch r ++ componentWithKeywords r
    /\ (forall d c, In d (directJiraMatch r) -> In c (componentWithKeywords r) ->
                    e_id d <> e_id c)
    /\ (forall d e, In d (directJiraMatch r) -> In e (allCases r) ->
                    e_id e = e_id d -> e = d /\ e_matchType e = jira_reference)
    /\ (forall d, In d (directJiraMatch r) ->
          exists jiraId pre post,
            opt_jiraId o = Some jiraId
            /\ d = directEntry jiraId (e_case d)
            /\ jiraMatches jiraId inventory = pre ++ e_case d :: post
            /\ forall tc, In tc pre -> tc_id tc <> e_id d)
    /\ (forall c, In c (componentWithKeywords r) ->
          exists m pre post,
            c = enrichedTC m
            /\ finalMatches o inventory = pre ++ m :: post
            /\ forall m', In m' pre -> matchId m' <> e_id c).
Proof.
  intros inventory o r Hr.
  pose proof (directJiraMatch_eq _ _ _ Hr) as Hdirect.
  pose proof (componentWithKeywords_eq _ _ _ Hr) as Hcomponent.
  split; [exact (allCases_NoDup _ _ _ Hr)|]. split; [exact (allCases_eq _ _ _ Hr)|].
  assert (Hdis : forall d c,
             In d (directJiraMatch r) -> In c (componentWithKeywords r) ->
             e_id d <> e_id c).
  { intros d c Hd Hc. rewrite Hdirect in Hd. rewrite Hcomponent in Hc.
    apply List.in_map_iff in Hd as (tc & <- & Htc).
    apply List.in_map_iff in Hc as (m & <- & Hm).
    now apply (placedMatches_fresh o inventory m tc). }
  split; [exact Hdis|]. split; [|split].
  - intros d e Hd He E.
    assert (e = d).
    { apply (NoDup_key_inj e_id (allCases r));
        [exact (allCases_NoDup _ _ _ Hr)|exact He| |exact E].
      rewrite (allCases_eq _ _ _ Hr). apply in_app_iff. now left. }
    subst e. split; [reflexivity|].
    rewrite Hdirect in Hd. now apply List.in_map_iff in Hd as (tc & <- & _).
  - intros d Hd. rewrite Hdirect in Hd.
    apply List.in_map_iff in Hd as (tc & <- & Htc).
    unfold directCases in Htc. destruct (opt_jiraId o) as [jiraId|]; [|destruct Htc].
    destruct (truthy jiraId); [|destruct Htc].
    apply firstById_first in Htc as (pre & post & E & Hpre).
    exists jiraId, pre, post. auto.
  - intros c Hc. rewrite Hcomponent in Hc.
    apply List.in_map_iff in Hc as (m & <- & Hm).
    unfold placedMatches in Hm. destruct (opt_jiraComponents o); [destruct Hm|].
    apply firstById_first in Hm as (pre & post & E & Hpre).
    exists m, pre, post. auto.
Qed.

Lemma allCases_has_no_duplicate_ids_witness :
  exists r,
    getImpactedTestCases Sample.inventory Sample.options = Some r
    /\ List.NoDup (List.map e_id (allCases r))
    /\ List.map e_id (allCases r) = [1; 3; 4]
    /\ List.map matchId (finalMatches Sample.options Sample.inventory) = [1; 4].
Proof.
  destruct (getImpactedTestCases Sample.inventory Sample.options) as [r|] eqn:E.
  - exists r. split; [reflexivity|]. split.
    + apply (allCases_has_no_duplicate_ids Sample.inventory Sample.options r E).
    + vm_compute in E. injection E as <-. split; vm_compute; reflexivity.
  - vm_compute in E. discriminate E.
Defined.

(** ** The result cap *)

Lemma result_ignores_prCategory inventory o prCategory :
  getImpactedTestCases inventory (withCategory o prCategory)
  = getImpactedTestCases inventory o.
Proof. reflexivity. Qed.

(** C7.  [getImpactedTestCases] computes the cap of the category (Relaxed PR
    20, Sleepy PR 30, Sarcastic PR 40, Overloaded PR 60, Angry PR 80; for
    another name 50, or the inherited value when the name is that of a
    property of [Object.prototype]) and then drops it: what the function
    does, throwing included, is the same whatever the category, so no
    reading of its result gives the cap.  [allCases] is not cut to the cap
    either: it is all of [directJiraMatch] followed by all of
    [componentWithKeywords], and 21 referring cases are all returned under
    the cap of 20. *)
Theorem cap_is_computed_but_not_returned :
  (forall c : Category,
      maxTestCases (Some (categoryName c))
      = CapNumber match c with
                  | Relaxed => 20 | Sleepy => 30 | Sarcastic => 40
                  | Overloaded => 60 | Angry => 80
                  end)
  /\ maxTestCases None = CapNumber 20
  /\ (forall name, assoc name categoryLimits = None ->
        maxTestCases (Some name)
        = if mem name objectPrototypeKeys then CapInherited name else CapNumber 50)
  /\ (forall inventory o prCategory,
         getImpactedTestCases inventory (withCategory o prCategory)
         = getImpactedTestCases inventory o)
  /\ ~ (exists cap : option Results -> Cap,
           forall inventory o,
             cap (getImpactedTestCases inventory o) = maxTestCases (opt_prCategory o))
  /\ (forall inventory o r,
         getImpactedTestCases inventory o = Some r ->
         allCases r = directJiraMatch r ++ componentWithKeywords r)
  /\ (exists r,
         getImpactedTestCases Sample.manyCases Sample.options = Some r
         /\ maxTestCases (opt_prCategory Sample.options) = CapNumber 20
         /\ length (allCases r) = 21%nat).
Proof.
  split; [intros c; destruct c; reflexivity|].
  split; [reflexivity|]. split.
  { intros name H. unfold maxTestCases. cbv zeta.
    change (default (lit "Relaxed PR") (Some name)) with name. now rewrite H. }
  split; [intros; apply result_ignores_prCategory|]. split; [|split].
  - intros (cap & Hcap).
    pose proof (Hcap Sample.inventory
                  (withCategory Sample.options (Some (lit "Relaxed PR")))) as H1.
    pose proof (Hcap Sample.inventory
                  (withCategory Sample.options (Some (lit "Angry PR")))) as H2.
    rewrite result_ignores_prCategory in H1, H2. rewrite H1 in H2. discriminate H2.
  - intros inventory o r Hr. exact (allCases_eq _ _ _ Hr).
  - destruct (getImpactedTestCases Sample.manyCases Sample.options) as [r|] eqn:E;
      vm_compute in E; [|discriminate E].
    injection E as <-. eexists. split; [reflexivity|]. split; reflexivity.
Qed.

(** ** Change classification *)

Lemma Qlt_bool_iff x y : Qlt_bool x y = true <-> (x < y)%Q.
Proof.
  unfold Qlt_bool. rewrite negb_true_iff. split.
  - intros H. apply Qnot_le_lt. intros Hle. apply Qle_bool_iff in Hle. congruence.
  - intros H. destruct (Qle_bool y x) eqn:E; [|reflexivity].
    apply Qle_bool_iff in E. now apply Qlt_not_le in H.
Qed.

Lemma Qlt_bool_false_iff x y : Qlt_bool x y = false <-> (y <= x)%Q.
Proof.
  unfold Qlt_bool. rewrite negb_false_iff. apply Qle_bool_iff.
Qed.

Lemma risk_sum n s t :
  (inject_Z n * 1 + inject_Z s * 10 + inject_Z t * (5 # 100) == twentieths n s t # 20)%Q.
Proof. unfold Qeq, twentieths. simpl. lia. Qed.

Lemma rawRiskScore_eq n s t :
  (rawRiskScore n s t
   == if 2000 <=? twentieths n s t then 100 else twentieths n s t # 20)%Q.
Proof.
  unfold rawRiskScore, min100.
  destruct (Qle_bool 100 _) eqn:E.
  - apply Qle_bool_iff in E. rewrite risk_sum in E.
    unfold Qle in E. simpl in E.
    destruct (Z.leb_spec 2000 (twentieths n s t)); [reflexivity|lia].
  - assert (H : ~ (100 <= twentieths n s t # 20)%Q).
    { intros H. rewrite <- risk_sum in H. apply Qle_bool_iff in H. congruence. }
    unfold Qle in H. simpl in H.
    destruct (Z.leb_spec 2000 (twentieths n s t)); [lia|apply risk_sum].
Qed.

Lemma rawRiskScore_lt n s t (k : Z) :
  k <= 100 -> (rawRiskScore n s t < inject_Z k)%Q <-> twentieths n s t < 20 * k.
Proof.
  intros Hk. rewrite rawRiskScore_eq.
  destruct (Z.leb_spec 2000 (twentieths n s t)); unfold Qlt; simpl; lia.
Qed.

Lemma rawRiskScore_gt n s t (k : Z) :
  k < 100 -> (inject_Z k < rawRiskScore n s t)%Q <-> 20 * k < twentieths n s t.
Proof.
  intros Hk. rewrite rawRiskScore_eq.
  destruct (Z.leb_spec 2000 (twentieths n s t)); unfold Qlt; simpl; lia.
Qed.

Lemma round_rawRiskScore n s t :
  round (rawRiskScore n s t) = Z.min 100 (n + 10 * s + (t + 10) / 20).
Proof.
  unfold round.
  assert (E : (rawRiskScore n s t + (1 # 2)
               == if 2000 <=? twentieths n s t then 201 # 2
                  else (twentieths n s t + 10) # 20)%Q).
  { rewrite rawRiskScore_eq. destruct (2000 <=? twentieths n s t).
    - reflexivity.
    - unfold Qeq. simpl. lia. }
  rewrite E. unfold twentieths in *.
  destruct (Z.leb_spec 2000 (20 * n + 200 * s + t)); simpl.
  - change (201 / 2) with 100. Z.to_euclidean_division_equations. lia.
  - Z.to_euclidean_division_equations. lia.
Qed.

Lemma onlyStyleChanges_iff files : onlyStyleChanges files = true <-> allStyle files.
Proof.
  unfold onlyStyleChanges, allStyle, styleFile, isStyleFile. rewrite forallb_forall.
  split; intros H f Hf; specialize (H f Hf);
    rewrite ?orb_true_iff in *; tauto.
Qed.

Lemma titleSuggestsMinor_iff pr : titleSuggestsMinor pr = true <-> minorTitle pr.
Proof.
  unfold titleSuggestsMinor, minorTitle. cbv zeta. rewrite !orb_true_iff. tauto.
Qed.

Lemma isSarcastic_iff pr files :
  titleSuggestsMinor pr
  && ((5 <? Z.of_nat (length files)) || (100 <? totalLines files)) = true
  <-> claimsSmallButIsNot pr files.
Proof.
  unfold claimsSmallButIsNot.
  rewrite andb_true_iff, orb_true_iff, !Z.ltb_lt, titleSuggestsMinor_iff. tauto.
Qed.

Lemma heavy_iff files :
  (3 <? sharedComponents files)
  || Qlt_bool 85 (rawRiskScore (Z.of_nat (length files)) (sharedComponents files)
                               (totalLines files)) = true
  <-> heavyBeforeRounding files.
Proof.
  unfold heavyBeforeRounding. rewrite orb_true_iff, Z.ltb_lt, Qlt_bool_iff. tauto.
Qed.

Lemma specifiedRiskScore_eq n s t :
  specifiedRiskScore n s t = round (rawRiskScore n s t).
Proof.
  unfold specifiedRiskScore, round, rawRiskScore, min100. cbv zeta.
  set (sum := (inject_Z n * 1 + inject_Z s * 10 + inject_Z t * (5 # 100))%Q).
  apply Qfloor_comp.
  destruct (Qle_bool sum 100) eqn:E1, (Qle_bool 100 sum) eqn:E2; try reflexivity.
  - apply Qle_bool_iff in E1, E2. now rewrite (Qle_antisym _ _ E1 E2).
  - exfalso. destruct (Qlt_le_dec 100 sum) as [H|H].
    + apply Qlt_le_weak, Qle_bool_iff in H. congruence.
    + apply Qle_bool_iff in H. congruence.
Qed.

Lemma heavy_readings_agree files :
  round (rawRiskScore (Z.of_nat (length files)) (sharedComponents files)
                      (totalLines files)) <> 85 ->
  heavyBeforeRounding files <-> heavyAsSpecified files.
Proof.
  unfold heavyBeforeRounding, heavyAsSpecified. rewrite specifiedRiskScore_eq.
  rewrite round_rawRiskScore. rewrite (rawRiskScore_gt _ _ _ 85) by lia.
  unfold twentieths. intros H. Z.to_euclidean_division_equations. lia.
Qed.

Lemma large_iff files :
  (10 <? Z.of_nat (length files)) || (500 <? totalLines files) = true <-> large files.
Proof.
  unfold large. rewrite orb_true_iff, !Z.ltb_lt. tauto.
Qed.

Lemma category_classified pr files : classified pr files (category (analyzePR pr files)).
Proof.
  unfold classified, analyzePR. cbv zeta. cbn [category].
  destruct (onlyStyleChanges files) eqn:E1.
  { apply rule_sleepy. now apply onlyStyleChanges_iff. }
  assert (H1 : ~ allStyle files).
  { intros H. apply onlyStyleChanges_iff in H. congruence. }
  destruct (titleSuggestsMinor pr && _) eqn:E2.
  { apply rule_sarcastic; [exact H1|]. now apply isSarcastic_iff. }
  assert (H2 : ~ claimsSmallButIsNot pr files).
  { intros H. apply isSarcastic_iff in H. congruence. }
  destruct ((3 <? sharedComponents files) || _) eqn:E3.
  { apply rule_overloaded; [exact H1|exact H2|]. now apply heavy_iff. }
  assert (H3 : ~ heavyBeforeRounding files).
  { intros H. apply heavy_iff in H. congruence. }
  destruct ((10 <? Z.of_nat (length files)) || _) eqn:E4.
  { apply rule_angry; [exact H1|exact H2|exact H3|]. now apply large_iff. }
  apply rule_relaxed; [exact H1|exact H2|exact H3|].
  intros H. apply large_iff in H. congruence.
Qed.

Lemma decided_functional heavy pr files c c' :
  decided heavy pr files c -> decided heavy pr files c' -> c = c'.
Proof. intros H H'. destruct H; destruct H'; tauto. Qed.

Lemma classified_functional pr files c c' :
  classified pr files c -> classified pr files c' -> c = c'.
Proof. apply decided_functional. Qed.

Lemma decided_ext (heavy heavy' : list RawFile -> Prop) pr files c :
  (heavy files <-> heavy' files) ->
  decided heavy pr files c -> decided heavy' pr files c.
Proof.
  intros E H. destruct H;
    [apply rule_sleepy|apply rule_sarcastic|apply rule_overloaded|apply rule_angry
     |apply rule_relaxed]; tauto.
Qed.

Lemma riskLevel_cases pr files :
  let x := rawRiskScore (Z.of_nat (length files)) (sharedComponents files)
                        (totalLines files) in
  ((x < 30)%Q -> riskLevel (analyzePR pr files) = Low)
  /\ ((30 <= x)%Q -> (x < 70)%Q -> riskLevel (analyzePR pr files) = Medium)
  /\ ((70 <= x)%Q -> riskLevel (analyzePR pr files) = High).
Proof.
  intros x. unfold analyzePR. cbv zeta. cbn [riskLevel]. fold x. clearbody x.
  destruct (Qlt_bool x 30) eqn:E1; [apply Qlt_bool_iff in E1|apply Qlt_bool_false_iff in E1];
    [|destruct (Qlt_bool x 70) eqn:E2;
      [apply Qlt_bool_iff in E2|apply Qlt_bool_false_iff in E2]];
    repeat split; intros; try reflexivity; exfalso;
    unfold Qlt, Qle in *; simpl in *; lia.
Qed.

Lemma not_allStyle_computed files : onlyStyleChanges files = false -> ~ allStyle files.
Proof. intros E H. apply onlyStyleChanges_iff in H. congruence. Qed.

(** C4 (amended). The category follows the five rules in their order, the
    first that applies deciding: all files are style files, Sleepy; else the
    title claims a minor, quick, small or fix change and more than 5 files or
    more than 100 lines changed, Sarcastic; else more than 3 shared
    components or a risk score above 85, Overloaded; else more than 10 files
    or more than 500 lines, Angry; else Relaxed.  The risk score of the third
    rule is the value the function holds at that point, before it is rounded
    for the result.  In terms of the returned, rounded score: a score above
    85 gives Overloaded at the third rule, Overloaded needs more than 3
    shared components or a score of at least 85, and the rules read on the
    returned score give the category of the function whenever that score is
    not 85.  Three files, 250 lines and the title "Quick fix for login" give
    Sarcastic as soon as one file is not a style file. *)
Theorem category_follows_precedence :
  forall (pr : PullRequest) (files : list RawFile),
    let a := analyzePR pr files in
    classified pr files (category a)
    /\ (forall c, classified pr files c -> c = category a)
    /\ riskScore a = specifiedRiskScore (Z.of_nat (length files)) (sharedComponents files)
                                        (totalLines files)
    /\ (85 < riskScore a -> ~ allStyle files -> ~ claimsSmallButIsNot pr files ->
        category a = Overloaded)
    /\ (category a = Overloaded -> 3 < sharedComponents files \/ 85 <= riskScore a)
    /\ (riskScore a <> 85 ->
        classifiedAsSpecified pr files (category a)
        /\ forall c, classifiedAsSpecified pr files c -> c = category a)
    /\ (Z.of_nat (length files) = 3 -> totalLines files = 250 ->
        pr_title pr = Some (lit "Quick fix for login") -> ~ allStyle files ->
        category a = Sarcastic).
Proof.
  intros pr files a. unfold a.
  pose proof (category_classified pr files) as Hc.
  assert (Hscore : riskScore (analyzePR pr files)
                   = round (rawRiskScore (Z.of_nat (length files)) (sharedComponents files)
                                         (totalLines files))) by reflexivity.
  split; [exact Hc|]. split; [|split; [|split; [|split; [|split]]]].
  - intros c H. exact (classified_functional pr files _ _ H Hc).
  - rewrite specifiedRiskScore_eq. exact Hscore.
  - intros Hr H1 H2.
    apply (classified_functional pr files _ _ Hc).
    apply rule_overloaded; [exact H1|exact H2|]. right.
    apply (rawRiskScore_gt _ _ _ 85); [lia|].
    rewrite Hscore, round_rawRiskScore in Hr. unfold twentieths.
    Z.to_euclidean_division_equations. lia.
  - intros E. rewrite E in Hc. unfold classified in Hc.
    inversion Hc as [| |_ _ Hheavy| |]. destruct Hheavy as [Hs|Hx]; [now left|right].
    apply (rawRiskScore_gt _ _ _ 85) in Hx; [|lia].
    rewrite Hscore, round_rawRiskScore. unfold twentieths in Hx.
    Z.to_euclidean_division_equations. lia.
  - intros Hne. rewrite Hscore in Hne.
    assert (Hs : classifiedAsSpecified pr files (category (analyzePR pr files))).
    { apply (decided_ext heavyBeforeRounding); [|exact Hc].
      now apply heavy_readings_agree. }
    split; [exact Hs|]. intros c H. exact (decided_functional _ pr files _ _ H Hs).
  - intros Hn Ht Htitle H1.
    apply (classified_functional pr files _ _ Hc).
    apply rule_sarcastic; [exact H1|]. split.
    + unfold minorTitle. rewrite Htitle. right. right. right. vm_compute. reflexivity.
    + right. lia.
Qed.

Lemma category_follows_precedence_witness :
  category (analyzePR Sample.loginPR Sample.files3) = Sarcastic.
Proof.
  apply (category_follows_precedence Sample.loginPR Sample.files3).
  - reflexivity.
  - reflexivity.
  - reflexivity.
  - apply not_allStyle_computed. vm_compute. reflexivity.
Defined.

(** C4, as stated, fails: with the risk score of the result in the third
    rule, 85 files and a single changed line (no shared component, a title
    that claims nothing) fall through to the fourth rule, Angry, for the
    returned score is 85.  The function holds 85.05 when it decides and
    answers Overloaded. *)
Lemma overloaded_with_returned_score_85 :
  let files := Sample.file "src/report/widget.ts" 1
               :: List.repeat (Sample.file "src/report/part.ts" 0) 84 in
  let a := analyzePR Sample.widgetPR files in
  category a = Overloaded
  /\ riskScore a = 85
  /\ specifiedRiskScore (filesChanged (metrics a)) (metric_sharedComponents (metrics a))
                        (linesChanged (metrics a)) = 85
  /\ filesChanged (metrics a) = 85
  /\ metric_sharedComponents (metrics a) = 0
  /\ linesChanged (metrics a) = 1
  /\ PrimFloat.ltb (Double.whole 85) (Double.rawRiskScore 85 0 1) = true
  /\ classifiedAsSpecified Sample.widgetPR files Angry
  /\ ~ classifiedAsSpecified Sample.widgetPR files (category a).
Proof.
  intros files a.
  assert (Hangry : classifiedAsSpecified Sample.widgetPR files Angry).
  { apply rule_angry.
    - apply not_allStyle_computed. vm_compute. reflexivity.
    - intros [H _]. apply titleSuggestsMinor_iff in H. vm_compute in H. discriminate H.
    - intros [H|H]; vm_compute in H; discriminate H.
    - left. vm_compute. reflexivity. }
  assert (Hcat : category a = Overloaded) by (vm_compute; reflexivity).
  split; [exact Hcat|]. do 6 (split; [vm_compute; reflexivity|]).
  split; [exact Hangry|]. rewrite Hcat. intros H.
  pose proof (decided_functional _ _ _ _ _ H Hangry) as E. discriminate E.
Qed.

(** C5 (amended). The returned risk score is
    round(min(100, files + 10 * shared + 0.05 * lines)), that is
    min(100, files + 10 * shared + floor((lines + 10) / 20)).  The risk level
    is decided on the score before the rounding: Low below 30, Medium from 30
    to below 70, High from 70.  In terms of the returned score this is Low
    below 30, Medium strictly between 30 and 70, High above 70; a returned
    score of exactly 30 or 70 can belong to either side.  Fifteen files, no
    shared component and 300 lines give the score 30 and the level Medium. *)
Theorem risk_level_decided_before_rounding :
  forall (pr : PullRequest) (files : list RawFile),
    let n := Z.of_nat (length files) in
    let s := sharedComponents files in
    let t := totalLines files in
    let x := rawRiskScore n s t in
    let a := analyzePR pr files in
    riskScore a = round x
    /\ (x == if 2000 <=? twentieths n s t then 100 else twentieths n s t # 20)%Q
    /\ riskScore a = Z.min 100 (n + 10 * s + (t + 10) / 20)
    /\ ((x < 30)%Q -> riskLevel a = Low)
    /\ ((30 <= x)%Q -> (x < 70)%Q -> riskLevel a = Medium)
    /\ ((70 <= x)%Q -> riskLevel a = High)
    /\ (riskScore a < 30 -> riskLevel a = Low)
    /\ (30 < riskScore a < 70 -> riskLevel a = Medium)
    /\ (70 < riskScore a -> riskLevel a = High)
    /\ (n = 15 -> s = 0 -> t = 300 -> riskScore a = 30 /\ riskLevel a = Medium).
Proof.
  intros pr files n s t x a.
  destruct (riskLevel_cases pr files) as (Hlow & Hmed & Hhigh).
  fold n s t x a in Hlow, Hmed, Hhigh.
  assert (Hround : riskScore a = Z.min 100 (n + 10 * s + (t + 10) / 20)).
  { apply round_rawRiskScore. }
  split; [reflexivity|]. split; [apply rawRiskScore_eq|]. split; [exact Hround|].
  split; [exact Hlow|]. split; [exact Hmed|]. split; [exact Hhigh|].
  split; [|split; [|split]].
  - intros H. apply Hlow. apply (rawRiskScore_lt n s t 30); [lia|].
    rewrite Hround in H. unfold twentieths. Z.to_euclidean_division_equations. lia.
  - intros H. rewrite Hround in H. apply Hmed.
    + apply Qnot_lt_le. intros Hx. apply (rawRiskScore_lt n s t 30) in Hx; [|lia].
      unfold twentieths in Hx. Z.to_euclidean_division_equations. lia.
    + apply (rawRiskScore_lt n s t 70); [lia|].
      unfold twentieths. Z.to_euclidean_division_equations. lia.
  - intros H. rewrite Hround in H. apply Hhigh.
    apply Qnot_lt_le. intros Hx. apply (rawRiskScore_lt n s t 70) in Hx; [|lia].
    unfold twentieths in Hx. Z.to_euclidean_division_equations. lia.
  - intros Hn Hs Ht. split.
    + rewrite Hround, Hn, Hs, Ht. reflexivity.
    + apply Hmed.
      * apply Qnot_lt_le. intros Hx. apply (rawRiskScore_lt n s t 30) in Hx; [|lia].
        unfold twentieths in Hx. lia.
      * apply (rawRiskScore_lt n s t 70); [lia|]. unfold twentieths. lia.
Qed.

Lemma risk_level_decided_before_rounding_witness :
  (riskScore (analyzePR Sample.widgetPR Sample.files15) = 30
   /\ riskLevel (analyzePR Sample.widgetPR Sample.files15) = Medium)
  /\ Double.same (Double.rawRiskScore 15 0 300) (Double.whole 30) = true.
Proof.
  split.
  - apply (risk_level_decided_before_rounding Sample.widgetPR Sample.files15);
      vm_compute; reflexivity.
  - vm_compute. reflexivity.
Defined.

(** C5, as stated, fails: twenty-nine files, no shared component and 10 lines
    give round(29.5) = 30 as the risk score, and the level is Low, not
    Medium. *)
Lemma score_30_with_level_Low :
  let a := analyzePR Sample.widgetPR Sample.files29 in
  Z.of_nat (length Sample.files29) = 29
  /\ sharedComponents Sample.files29 = 0
  /\ totalLines Sample.files29 = 10
  /\ riskScore a = round (min100 (29 * 1 + 0 * 10 + 10 * (5 # 100)))
  /\ Double.same (Double.rawRiskScore 29 0 10) Double.twenty_nine_and_a_half = true
  /\ riskScore a = 30
  /\ riskLevel a = Low
  /\ ~ (30 <= riskScore a < 70 -> riskLevel a = Medium).
Proof.
  repeat split; try (vm_compute; reflexivity).
  intros H. assert (E : riskLevel (analyzePR Sample.widgetPR Sample.files29) = Medium).
  { apply H. vm_compute. split; [discriminate|reflexivity]. }
  vm_compute in E. discriminate E.
Qed.

(** ** Relevance scoring *)

Lemma clamp_range score : 0 <= clamp score <= 100.
Proof. unfold clamp. lia. Qed.

Lemma scoreAll_In c l st :
  In st (scoreAll c l) ->
  In (st_testCase st) l /\ st_score st = relevance c (st_testCase st) /\ 0 < st_score st.
Proof.
  unfold scoreAll. rewrite in_flat_map. intros (t & Ht & Hst).
  destruct (0 <? relevance c t) eqn:E; [|destruct Hst].
  destruct Hst as [<-|[]]. simpl. apply Z.ltb_lt in E. auto.
Qed.

Lemma insertByScore_In x l z : In z (insertByScore x l) <-> z = x \/ In z l.
Proof.
  induction l as [|y l IH]; simpl; [intuition|].
  destruct (st_score x <? st_score y); simpl; [rewrite IH|]; intuition.
Qed.

Lemma sortByScore_In l z : In z (sortByScore l) <-> In z l.
Proof.
  induction l as [|x l IH]; simpl; [tauto|].
  rewrite insertByScore_In, IH. intuition.
Qed.

Lemma insertByScore_sorted x l :
  StronglySorted scoredDescending l -> StronglySorted scoredDescending (insertByScore x l).
Proof.
  induction 1 as [|y l Hl IH Hy]; simpl.
  - constructor; constructor.
  - destruct (Z.ltb_spec (st_score x) (st_score y)).
    + constructor; [exact IH|].
      apply List.Forall_forall. intros z Hz. apply insertByScore_In in Hz as [->|Hz].
      * unfold scoredDescending. lia.
      * rewrite List.Forall_forall in Hy. now apply Hy.
    + constructor; [now constructor|].
      constructor; [unfold scoredDescending; lia|].
      eapply List.Forall_impl; [|exact Hy]. unfold scoredDescending. intros z Hz. lia.
Qed.

Lemma sortByScore_sorted l : StronglySorted scoredDescending (sortByScore l).
Proof.
  induction l as [|x l IH]; simpl; [constructor|]. now apply insertByScore_sorted.
Qed.

Lemma firstn_In {A} k (l : list A) x : In x (List.firstn k l) -> In x l.
Proof.
  revert l. induction k as [|k IH]; intros [|y l]; simpl; try tauto.
  intros [->|H]; [now left|right; now apply IH].
Qed.

Lemma firstn_length_le {A} k (l : list A) : (length (List.firstn k l) <= k)%nat.
Proof.
  revert l. induction k as [|k IH]; intros [|y l]; simpl; try lia.
  specialize (IH l). lia.
Qed.

Section Sublists.

Context {A : Type} (R : A -> A -> Prop).

Lemma filter_sorted (p : A -> bool) l :
  StronglySorted R l -> StronglySorted R (List.filter p l).
Proof.
  induction 1 as [|x l Hl IH Hx]; simpl; [constructor|].
  destruct (p x); [|exact IH]. constructor; [exact IH|].
  rewrite List.Forall_forall in *. intros y Hy. apply Hx.
  now apply List.filter_In in Hy.
Qed.

Lemma firstn_sorted k l :
  StronglySorted R l -> StronglySorted R (List.firstn k l).
Proof.
  intros H. revert k. induction H as [|x l Hl IH Hx]; intros [|k]; simpl;
    try constructor; [apply IH|].
  rewrite List.Forall_forall in *. intros y Hy. apply Hx. eapply firstn_In, Hy.
Qed.

End Sublists.

Lemma relevantTests_cases l :
  relevantTests l = atLeast 60 l \/ relevantTests l = atLeast 40 l
  \/ relevantTests l = atLeast 25 l \/ relevantTests l = List.firstn 10 l.
Proof.
  unfold relevantTests. cbv zeta.
  repeat match goal with
         | |- context [if ?b then _ else _] => destruct b
         end; auto.
Qed.

Lemma relevantTests_In l x : In x (relevantTests l) -> In x l.
Proof.
  destruct (relevantTests_cases l) as [-> | [-> | [-> | ->]]]; unfold atLeast; intros H;
    first [ apply List.filter_In in H as [H _]; exact H | apply firstn_In in H; exact H ].
Qed.

Lemma relevantTests_sorted l :
  StronglySorted scoredDescending l -> StronglySorted scoredDescending (relevantTests l).
Proof.
  intros H.
  destruct (relevantTests_cases l) as [-> | [-> | [-> | ->]]]; unfold atLeast;
    first [ now apply filter_sorted | now apply firstn_sorted ].
Qed.

Lemma map_ranked_sorted l :
  StronglySorted scoredDescending l ->
  StronglySorted rankedDescending
    (List.map (fun st => {| ranked_testCase := st_testCase st;
                            relevanceScore := st_score st |}) l).
Proof.
  induction 1 as [|x l Hl IH Hx]; simpl; constructor; [exact IH|].
  rewrite List.Forall_forall in *. intros y Hy.
  apply List.in_map_iff in Hy as (z & <- & Hz). exact (Hx z Hz).
Qed.

Lemma ranked_In componentMap regressionTests changedFiles components keywords
    prTitle prDescription r :
  In r (scoreRegressionTestsForRelevance componentMap regressionTests changedFiles
          components keywords prTitle prDescription) ->
  In (ranked_testCase r) regressionTests
  /\ relevanceScore r
     = relevance (scoringContext componentMap changedFiles components keywords
                                 prTitle prDescription)
                 (ranked_testCase r)
  /\ 0 < relevanceScore r.
Proof.
  unfold scoreRegressionTestsForRelevance.
  intros H. apply List.in_map_iff in H as (st & <- & Hst).
  apply firstn_In, relevantTests_In in Hst.
  apply (proj1 (sortByScore_In _ _)) in Hst.
  exact (scoreAll_In _ _ _ Hst).
Qed.

Lemma ranked_sorted componentMap regressionTests changedFiles components keywords
    prTitle prDescription :
  StronglySorted rankedDescending
    (scoreRegressionTestsForRelevance componentMap regressionTests changedFiles
       components keywords prTitle prDescription).
Proof.
  apply map_ranked_sorted, firstn_sorted, relevantTests_sorted, sortByScore_sorted.
Qed.

Lemma getMaxTestsForPRSize_nonneg n : 0 <= getMaxTestsForPRSize n.
Proof.
  unfold getMaxTestsForPRSize.
  repeat match goal with |- context [if ?b then _ else _] => destruct b end; lia.
Qed.

Lemma ranked_length componentMap regressionTests changedFiles components keywords
    prTitle prDescription :
  Z.of_nat (length (scoreRegressionTestsForRelevance componentMap regressionTests
                      changedFiles components keywords prTitle prDescription))
  <= getMaxTestsForPRSize (Z.of_nat (length changedFiles)).
Proof.
  unfold scoreRegressionTestsForRelevance. rewrite List.length_map.
  match goal with
  | |- context [List.firstn ?k ?l] => pose proof (firstn_length_le k l) as H
  end.
  pose proof (getMaxTestsForPRSize_nonneg (Z.of_nat (length changedFiles))). lia.
Qed.

Lemma getMaxTestsForPRSize_table n :
  (n <= 2 -> getMaxTestsForPRSize n = 10)
  /\ (2 < n <= 5 -> getMaxTestsForPRSize n = 15)
  /\ (5 < n <= 10 -> getMaxTestsForPRSize n = 20)
  /\ (10 < n <= 20 -> getMaxTestsForPRSize n = 40)
  /\ (20 < n -> getMaxTestsForPRSize n = 60).
Proof.
  unfold getMaxTestsForPRSize.
  repeat split; intros;
    repeat match goal with
           | |- context [?a <=? ?b] => destruct (Z.leb_spec a b)
           end; lia.
Qed.

(** C1. The relevance score of a test case is the sum of its additive terms
    clamped to the range from 0 to 100: a negative sum gives 0, a sum above
    100 gives 100, any other sum is kept.  Every test that
    [scoreRegressionTestsForRelevance] returns carries this score. *)
Theorem relevance_score_is_clamped :
  (forall (c : ScoringContext) (t : RegressionTest),
      0 <= relevance c t <= 100
      /\ (rawScore c t < 0 -> relevance c t = 0)
      /\ (100 < rawScore c t -> relevance c t = 100)
      /\ (0 <= rawScore c t <= 100 -> relevance c t = rawScore c t))
  /\ (forall componentMap regressionTests changedFiles components keywords
             prTitle prDescription r,
         In r (scoreRegressionTestsForRelevance componentMap regressionTests changedFiles
                 components keywords prTitle prDescription) ->
         relevanceScore r
         = relevance (scoringContext componentMap changedFiles components keywords
                                     prTitle prDescription)
                     (ranked_testCase r)
         /\ 0 <= relevanceScore r <= 100).
Proof.
  split.
  - intros c t. unfold relevance, clamp. lia.
  - intros componentMap regressionTests changedFiles components keywords
           prTitle prDescription r Hr.
    apply ranked_In in Hr as (_ & -> & _). split; [reflexivity|apply clamp_range].
Qed.

Lemma relevance_score_is_clamped_witness :
  (rawScore Sample.context Sample.webformTest = 320
   /\ relevance Sample.context Sample.webformTest = 100)
  /\ (rawScore Sample.context Sample.billingTest = -10
      /\ relevance Sample.context Sample.billingTest = 0)
  /\ (rawScore Sample.context Sample.loginTest = 20
      /\ relevance Sample.context Sample.loginTest = 20).
Proof.
  destruct relevance_score_is_clamped as [Hclamp _].
  split; [|split].
  - split; [vm_compute; reflexivity|].
    apply (Hclamp Sample.context Sample.webformTest). vm_compute. reflexivity.
  - split; [vm_compute; reflexivity|].
    apply (Hclamp Sample.context Sample.billingTest). vm_compute. reflexivity.
  - split; [vm_compute; reflexivity|].
    transitivity (rawScore Sample.context Sample.loginTest); [|vm_compute; reflexivity].
    apply (Hclamp Sample.context Sample.loginTest). vm_compute. split; discriminate.
Defined.

(** C10. [scoreRegressionTestsForRelevance] returns tests of the input with
    their clamped score, all of them with a score above 0, highest score
    first, and never more than [getMaxTestsForPRSize] of the number of
    changed files: 10 up to 2 files, 15 up to 5, 20 up to 10, 40 up to 20,
    60 beyond. *)
Theorem ranking_is_positive_sorted_and_cut :
  forall (componentMap : list (jsstring * TrComponent))
         (regressionTests : list RegressionTest)
         (changedFiles components keywords : list jsstring)
         (prTitle prDescription : jsstring),
    let out := scoreRegressionTestsForRelevance componentMap regressionTests changedFiles
                 components keywords prTitle prDescription in
    (forall r, In r out ->
               In (ranked_testCase r) regressionTests
               /\ relevanceScore r
                  = relevance (scoringContext componentMap changedFiles components keywords
                                              prTitle prDescription)
                              (ranked_testCase r)
               /\ 0 < relevanceScore r)
    /\ StronglySorted rankedDescending out
    /\ Z.of_nat (length out) <= getMaxTestsForPRSize (Z.of_nat (length changedFiles))
    /\ (forall n,
           (n <= 2 -> getMaxTestsForPRSize n = 10)
           /\ (2 < n <= 5 -> getMaxTestsForPRSize n = 15)
           /\ (5 < n <= 10 -> getMaxTestsForPRSize n = 20)
           /\ (10 < n <= 20 -> getMaxTestsForPRSize n = 40)
           /\ (20 < n -> getMaxTestsForPRSize n = 60)).
Proof.
  intros. split; [|split; [|split]].
  - intros r. apply ranked_In.
  - apply ranked_sorted.
  - apply ranked_length.
  - apply getMaxTestsForPRSize_table.
Qed.

Lemma ranking_is_positive_sorted_and_cut_witness :
  let out := scoreRegressionTestsForRelevance Sample.matrix Sample.regressionTests
               Sample.changedFiles Sample.components Sample.keywords Sample.prTitle [] in
  List.map (fun r => (rt_id (ranked_testCase r), relevanceScore r)) out
  = [(14, 100); (11, 100)]
  /\ StronglySorted rankedDescending out
  /\ Z.of_nat (length out) <= 10.
Proof.
  split; [vm_compute; reflexivity|].
  split;
    apply (ranking_is_positive_sorted_and_cut Sample.matrix Sample.regressionTests
             Sample.changedFiles Sample.components Sample.keywords Sample.prTitle []).
Defined.

(** * Further properties *)

(** ** The further functions on sample data *)

Example component_terms_example :
  componentTerms (lit "UserProfile-page")
  = [lit "userprofile-page"; lit "user"; lit "profile"; lit "page"]
  /\ keywordTerms (lit "submit  the form") = [lit "submit"; lit "the"; lit "form"]
  /\ criteriaSearchTerms Fixture.shortCriteria = [].
Proof. repeat split; vm_compute; reflexivity. Qed.

Example search_example :
  List.map rt_id (searchTestCases (Fixture.referencedTest :: Sample.regressionTests)
                                  Fixture.criteria)
  = [21; 11; 14].
Proof. vm_compute. reflexivity. Qed.

Example section_paths_example :
  getSectionsWithHierarchy 3 [Fixture.regression; Fixture.login]
  = Some [(Fixture.regression, lit "Regression");
          (Fixture.login, lit "Regression > Login")]
  /\ getRegressionTestCases 3 [Fixture.regression; Fixture.login] []
       Fixture.sectionCases (lit "folder") (lit "Regression")
     = Some [withSectionPath (lit "Regression > Login") Sample.loginTest].
Proof. split; vm_compute; reflexivity. Qed.

Example file_keywords_example :
  extractFileKeywords [Some (lit "src/app/userProfile/UserProfileForm.component.ts"); None]
  = [lit "user"; lit "profile"; lit "form"; lit "component"].
Proof. vm_compute. reflexivity. Qed.

Example extract_components_example :
  extractComponents [Some (lit "lib/dateUtils.js"); Some (lit "src/auth/LoginForm.ts")]
                    Fixture.componentMapping
  = {| ex_components := [lit "Date Utils js"; lit "Authentication"];
       ex_keywords := [lit "date Utils js"; lit "auth"; lit "Login Form ts"] |}
  /\ extractComponents [Some (lit "src/auth/LoginForm.ts"); Some (lit "lib/dateUtils.js")]
                       Fixture.componentMapping
     = {| ex_components := [lit "Authentication"];
          ex_keywords := [lit "auth"; lit "Login Form ts"; lit "date Utils js"] |}.
Proof. split; vm_compute; reflexivity. Qed.

Example parse_url_example :
  parsePRUrl true Fixture.serverUrl
  = Some (ServerPR (lit "PROJ") (lit "repo-name") (lit "123"))
  /\ parsePRUrl false (lit "https://bitbucket.org/team/repo-name/pull-requests/45/diff")
     = Some (CloudPR (lit "team") (lit "repo-name") (lit "45"))
  /\ parsePRUrl false Fixture.serverUrl = None
  /\ parsePRUrl true (lit "https://host/projects/PROJ/repos/repo/pull-requests/") = None.
Proof. repeat split; vm_compute; reflexivity. Qed.

(** ** The ranking of regression tests *)

Lemma scoreAll_nil_iff c l :
  scoreAll c l = [] <-> forall t, In t l -> relevance c t = 0.
Proof.
  unfold scoreAll. induction l as [|t l IH]; simpl.
  - split; [intros _ t []|reflexivity].
  - pose proof (clamp_range (rawScore c t)) as Hr. fold (relevance c t) in Hr.
    destruct (Z.ltb_spec 0 (relevance c t)) as [Hlt|Hge]; simpl.
    + split; [discriminate|]. intros H0. specialize (H0 t (or_introl eq_refl)). lia.
    + rewrite IH. split.
      * intros H' u [<-|Hu]; [lia|now apply H'].
      * intros H' u Hu. apply H'. now right.
Qed.

Lemma insertByScore_not_nil x l : insertByScore x l <> [].
Proof. destruct l as [|y l]; simpl; [discriminate|]. destruct (_ <? _); discriminate. Qed.

Lemma sortByScore_nil_iff l : sortByScore l = [] <-> l = [].
Proof.
  destruct l as [|x l]; simpl; [tauto|].
  split; [|discriminate]. intros H. now apply insertByScore_not_nil in H.
Qed.

Lemma relevantTests_nil_iff l : relevantTests l = [] <-> l = [].
Proof.
  split; [|intros ->; reflexivity].
  unfold relevantTests. cbv zeta. destruct l as [|x l]; [reflexivity|].
  repeat match goal with
         | |- context [if ?b then _ else _] => destruct b eqn:?
         end; try discriminate;
    intros E; rewrite E in *; simpl in *; discriminate.
Qed.

(** What the sort puts first is a best test. *)
Lemma sorted_head_max (l : list ScoredTest) x r :
  StronglySorted scoredDescending (x :: r) ->
  forall y, In y (x :: r) -> st_score y <= st_score x.
Proof.
  intros H y [<-|Hy]; [lia|]. inversion H as [|? ? _ Hall]; subst.
  rewrite List.Forall_forall in Hall. exact (Hall y Hy).
Qed.

Lemma atLeast_head threshold x r y r' :
  StronglySorted scoredDescending (x :: r) ->
  atLeast threshold (x :: r) = y :: r' -> y = x.
Proof.
  intros Hs E. unfold atLeast in E. simpl in E.
  destruct (Z.leb_spec threshold (st_score x)); [now injection E|].
  assert (Hy : In y (List.filter (fun st => threshold <=? st_score st) r)).
  { rewrite E. now left. }
  apply List.filter_In in Hy as [Hy Ht]. apply Z.leb_le in Ht.
  pose proof (sorted_head_max (x :: r) x r Hs y (or_intror Hy)). lia.
Qed.

Lemma relevantTests_head x r y r' :
  StronglySorted scoredDescending (x :: r) ->
  relevantTests (x :: r) = y :: r' -> y = x.
Proof.
  intros Hs E.
  destruct (relevantTests_cases (x :: r)) as [H | [H | [H | H]]]; rewrite H in E.
  - eapply atLeast_head; eauto.
  - eapply atLeast_head; eauto.
  - eapply atLeast_head; eauto.
  - simpl in E. now injection E.
Qed.

Lemma getMaxTestsForPRSize_pos n : 10 <= getMaxTestsForPRSize n.
Proof.
  unfold getMaxTestsForPRSize.
  repeat match goal with |- context [if ?b then _ else _] => destruct b end; lia.
Qed.

Lemma firstn_nil_iff {A} k (l : list A) : (0 < k)%nat -> List.firstn k l = [] -> l = [].
Proof. intros Hk. destruct k; [lia|]. destruct l; simpl; congruence. Qed.

(** X1. The ranking comes back empty only when no regression test scores
    above 0: the thresholds 60, 40, 25 and the ten-best fallback never lose
    the last candidates. *)
Theorem ranking_empty_only_without_scores :
  forall (componentMap : list (jsstring * TrComponent))
         (regressionTests : list RegressionTest)
         (changedFiles components keywords : list jsstring)
         (prTitle prDescription : jsstring),
    scoreRegressionTestsForRelevance componentMap regressionTests changedFiles
      components keywords prTitle prDescription = []
    <-> forall t, In t regressionTests ->
                  relevance (scoringContext componentMap changedFiles components keywords
                                            prTitle prDescription) t = 0.
Proof.
  intros. unfold scoreRegressionTestsForRelevance.
  pose proof (getMaxTestsForPRSize_pos (Z.of_nat (length changedFiles))) as Hcap.
  split.
  - intros E. apply List.map_eq_nil in E.
    apply firstn_nil_iff in E; [|lia].
    apply (proj1 (relevantTests_nil_iff _)) in E.
    apply (proj1 (sortByScore_nil_iff _)) in E.
    exact (proj1 (scoreAll_nil_iff _ _) E).
  - intros H. apply (proj2 (scoreAll_nil_iff _ _)) in H. rewrite H.
    simpl. now rewrite List.firstn_nil.
Qed.

(** X2. The first test of the ranking has the highest relevance score of all
    the regression tests given. *)
Theorem ranking_starts_with_best :
  forall (componentMap : list (jsstring * TrComponent))
         (regressionTests : list RegressionTest)
         (changedFiles components keywords : list jsstring)
         (prTitle prDescription : jsstring) (best : RankedTest) (rest : list RankedTest),
    scoreRegressionTestsForRelevance componentMap regressionTests changedFiles
      components keywords prTitle prDescription = best :: rest ->
    forall t, In t regressionTests ->
              relevance (scoringContext componentMap changedFiles components keywords
                                        prTitle prDescription) t
              <= relevanceScore best.
Proof.
  intros componentMap regressionTests changedFiles components keywords prTitle
         prDescription best rest E t Ht.
  unfold scoreRegressionTestsForRelevance in E.
  set (c := scoringContext componentMap changedFiles components keywords
                           prTitle prDescription) in *.
  pose proof (sortByScore_sorted (scoreAll c regressionTests)) as Hs.
  destruct (List.firstn _ (relevantTests _)) as [|y r'] eqn:Ef; [discriminate|].
  simpl in E. injection E as <- _. simpl.
  destruct (relevantTests (sortByScore (scoreAll c regressionTests))) as [|z rz] eqn:Er.
  { destruct (Z.to_nat _); discriminate. }
  assert (y = z).
  { destruct (Z.to_nat _); [discriminate|]. simpl in Ef. now injection Ef. }
  subst z.
  destruct (sortByScore (scoreAll c regressionTests)) as [|x r] eqn:Esort.
  { discriminate. }
  assert (y = x) by (eapply relevantTests_head; eauto). subst y.
  destruct (Z.ltb_spec 0 (relevance c t)) as [Hpos|Hneg].
  - assert (Hin : In {| st_testCase := t; st_score := relevance c t |}
                     (sortByScore (scoreAll c regressionTests))).
    { apply sortByScore_In. unfold scoreAll. apply in_flat_map. exists t.
      split; [exact Ht|]. apply Z.ltb_lt in Hpos. rewrite Hpos. now left. }
    rewrite Esort in Hin.
    exact (sorted_head_max (x :: r) x r Hs _ Hin).
  - assert (Hx : In x (sortByScore (scoreAll c regressionTests))).
    { rewrite Esort. now left. }
    apply sortByScore_In, scoreAll_In in Hx. lia.
Qed.

Lemma isEmpty_true_iff {A} (l : list A) : isEmpty l = true <-> l = [].
Proof. destruct l; simpl; split; congruence. Qed.

(** Which threshold [relevantTests] ends on, with what made it go there. *)
Lemma relevantTests_steps l :
  relevantTests l = atLeast 60 l
  \/ (atLeast 60 l = [] /\ relevantTests l = atLeast 40 l)
  \/ (atLeast 60 l = [] /\ atLeast 40 l = [] /\ relevantTests l = atLeast 25 l)
  \/ (atLeast 60 l = [] /\ atLeast 40 l = [] /\ atLeast 25 l = []
      /\ relevantTests l = List.firstn 10 l).
Proof.
  destruct l as [|x l]; [left; reflexivity|].
  unfold relevantTests. cbv zeta.
  remember (atLeast 60 (x :: l)) as a60 eqn:E60.
  remember (atLeast 40 (x :: l)) as a40 eqn:E40.
  remember (atLeast 25 (x :: l)) as a25 eqn:E25.
  clear E60 E40 E25.
  destruct a60, a40, a25; simpl; auto 10.
Qed.

Lemma atLeast_In threshold l st :
  In st (atLeast threshold l) <-> In st l /\ threshold <= st_score st.
Proof. unfold atLeast. rewrite List.filter_In, Z.leb_le. tauto. Qed.

(** X3. A lower threshold is used only when no test reaches the higher one:
    as soon as some regression test scores 60 or more, every returned test
    does, and the same holds for 40 and for 25. *)
Theorem ranking_keeps_the_highest_threshold :
  forall (componentMap : list (jsstring * TrComponent))
         (regressionTests : list RegressionTest)
         (changedFiles components keywords : list jsstring)
         (prTitle prDescription : jsstring) (threshold : Z) (t : RegressionTest),
    threshold = 60 \/ threshold = 40 \/ threshold = 25 ->
    In t regressionTests ->
    threshold <= relevance (scoringContext componentMap changedFiles components keywords
                                           prTitle prDescription) t ->
    forall r,
      In r (scoreRegressionTestsForRelevance componentMap regressionTests changedFiles
              components keywords prTitle prDescription) ->
      threshold <= relevanceScore r.
Proof.
  intros componentMap regressionTests changedFiles components keywords prTitle
         prDescription threshold t Hth Ht Hscore r Hr.
  unfold scoreRegressionTestsForRelevance in Hr.
  set (c := scoringContext componentMap changedFiles components keywords
                           prTitle prDescription) in *.
  set (sorted := sortByScore (scoreAll c regressionTests)) in *.
  apply List.in_map_iff in Hr as (st & <- & Hst). simpl.
  apply firstn_In in Hst.
  assert (Hin : In {| st_testCase := t; st_score := relevance c t |} sorted).
  { apply sortByScore_In. unfold scoreAll. apply in_flat_map. exists t.
    split; [exact Ht|].
    assert (E : (0 <? relevance c t) = true) by (apply Z.ltb_lt; lia).
    rewrite E. now left. }
  assert (Hne : forall k, k <= threshold -> atLeast k sorted <> []).
  { intros k Hk E.
    assert (H0 : In {| st_testCase := t; st_score := relevance c t |} (atLeast k sorted)).
    { apply atLeast_In. split; [exact Hin|simpl; lia]. }
    rewrite E in H0. destruct H0. }
  destruct (relevantTests_steps sorted)
    as [E | [[E60 E] | [(E60 & E40 & E) | (E60 & E40 & E25 & E)]]];
    rewrite E in Hst.
  - apply atLeast_In in Hst. lia.
  - apply atLeast_In in Hst. destruct Hth as [-> | [-> | ->]]; [|lia|lia].
    exfalso. now apply (Hne 60).
  - apply atLeast_In in Hst. destruct Hth as [-> | [-> | ->]]; [| |lia].
    + exfalso. now apply (Hne 60).
    + exfalso. now apply (Hne 40).
  - exfalso. apply (Hne 25); [lia|exact E25].
Qed.

Lemma ranking_keeps_the_highest_threshold_witness :
  60 <= relevanceScore {| ranked_testCase := Sample.renderTest; relevanceScore := 100 |}.
Proof.
  apply (ranking_keeps_the_highest_threshold Sample.matrix Sample.regressionTests
           Sample.changedFiles Sample.components Sample.keywords Sample.prTitle []
           60 Sample.webformTest).
  - now left.
  - simpl. tauto.
  - vm_compute. discriminate.
  - vm_compute. now left.
Defined.

Lemma ranking_starts_with_best_witness :
  relevance Sample.context Sample.loginTest
  <= relevanceScore {| ranked_testCase := Sample.renderTest; relevanceScore := 100 |}.
Proof.
  apply (ranking_starts_with_best Sample.matrix Sample.regressionTests
           Sample.changedFiles Sample.components Sample.keywords Sample.prTitle []
           {| ranked_testCase := Sample.renderTest; relevanceScore := 100 |}
           [ {| ranked_testCase := Sample.webformTest; relevanceScore := 100 |} ]).
  - vm_compute. reflexivity.
  - simpl. tauto.
Defined.

(** ** The additive terms *)

Lemma pointsEach_from {A} (n : Z) (p : A -> bool) l (s : Z) :
  List.fold_left (fun score x => if p x then score + n else score) l s
  = s + pointsEach n p l.
Proof.
  unfold pointsEach. revert s. induction l as [|x l IH]; intros s; simpl; [lia|].
  rewrite IH, (IH (if p x then 0 + n else 0)). destruct (p x); lia.
Qed.

Lemma pointsEach_cons {A} (n : Z) (p : A -> bool) x l :
  pointsEach n p (x :: l) = (if p x then n else 0) + pointsEach n p l.
Proof.
  unfold pointsEach at 1. simpl. rewrite pointsEach_from. destruct (p x); lia.
Qed.

Lemma pointsEach_nonneg {A} (n : Z) (p : A -> bool) l : 0 <= n -> 0 <= pointsEach n p l.
Proof.
  intros Hn. induction l as [|x l IH]; [reflexivity|].
  rewrite pointsEach_cons. destruct (p x); lia.
Qed.

Lemma checkSectionPathMatch_values t components functionalAreas :
  checkSectionPathMatch t components functionalAreas = 0
  \/ checkSectionPathMatch t components functionalAreas = 25
  \/ checkSectionPathMatch t components functionalAreas = 30.
Proof.
  unfold checkSectionPathMatch. cbv zeta.
  repeat match goal with |- context [if ?b then _ else _] => destruct b end; auto.
Qed.

Lemma calculateFileTypeRelevance_values ft title :
  calculateFileTypeRelevance ft title = 0 \/ calculateFileTypeRelevance ft title = 15
  \/ calculateFileTypeRelevance ft title = 20 \/ calculateFileTypeRelevance ft title = 30.
Proof.
  unfold calculateFileTypeRelevance. cbv zeta.
  repeat match goal with |- context [if ?b then _ else _] => destruct b end; auto.
Qed.

(** The terms of sections 1 to 10 never take points away. *)
Ltac additive_terms :=
  repeat first
    [ lia
    | apply Z.add_nonneg_nonneg
    | apply pointsEach_nonneg
    | match goal with
      | |- 0 <= (if ?b then _ else _) => destruct b
      end ].

Lemma pointsEach_In {A} (n : Z) (p : A -> bool) l x :
  0 <= n -> In x l -> p x = true -> n <= pointsEach n p l.
Proof.
  intros Hn. induction l as [|y l IH]; [intros []|].
  rewrite pointsEach_cons. intros [->|Hx] Hp.
  - rewrite Hp. pose proof (pointsEach_nonneg n p l Hn). lia.
  - specialize (IH Hx Hp). destruct (p y); lia.
Qed.

Lemma le_add_nonneg x a b : x <= a -> 0 <= b -> x <= a + b.
Proof. lia. Qed.

Ltac above p :=
  repeat first
    [ lia
    | match goal with
      | |- p <= (if ?b then _ else _) => destruct b
      | |- p <= ?a + p => enough (0 <= a) by lia; additive_terms
      | |- p <= _ + Z.min _ 40 =>
          apply le_add_nonneg; [|apply Z.min_glb; [additive_terms|lia]]
      | |- p <= _ + _ => apply le_add_nonneg; [|solve [additive_terms]]
      end ].

(** The points for the functional areas named in the title are never lost,
    apart from the penalties of a generic test. *)
Lemma rawScore_above_feature (c : ScoringContext) (t : RegressionTest) :
  let title := toLowerCase (orEmpty (rt_title t)) in
  pointsEach 40 (fun area => includes title (toLowerCase area)) (sc_functionalAreas c)
  + (if isGenericTest title (sc_components c) then -40 else 0)
  <= rawScore c t.
Proof.
  intros title. unfold rawScore. cbv zeta. fold title.
  set (feature := pointsEach 40 _ (sc_functionalAreas c)).
  assert (Hfeature : 0 <= feature) by (apply pointsEach_nonneg; lia).
  match goal with
  | |- context [if 0 <? calculateFileTypeRelevance ?ft title then ?s + _ else _] =>
      set (bonus := calculateFileTypeRelevance ft title);
      set (before := s);
      assert (Hbefore : feature <= before)
  end.
  { subst before. clear Hfeature. above feature. }
  clearbody before feature.
  pose proof (calculateFileTypeRelevance_values (fileTypes (sc_prContext c)) title) as Hbonus.
  fold bonus in Hbonus. clearbody bonus.
  pose proof (checkSectionPathMatch_values t (sc_components c) (sc_functionalAreas c)) as Hm.
  set (m := checkSectionPathMatch t (sc_components c) (sc_functionalAreas c)) in *.
  clearbody m.
  destruct (isGenericTest _ _);
    repeat match goal with
           | |- context [if ?b then _ else _] => destruct b eqn:?
           end;
    lia.
Qed.

(** X4. The penalties of a test case never exceed 40 points in all, and only
    a generic test is penalised: the sum of the additive terms is at least
    -40 for a generic test and at least 0 for any other one (a title with a
    specific keyword, a title of eight words or more, or no component named
    in it). *)
Theorem penalties_are_bounded :
  forall (c : ScoringContext) (t : RegressionTest),
    (if isGenericTest (toLowerCase (orEmpty (rt_title t))) (sc_components c)
     then -40 else 0) <= rawScore c t.
Proof.
  intros c t. pose proof (rawScore_above_feature c t) as H. cbv zeta in H.
  pose proof (pointsEach_nonneg 40
                (fun area => includes (toLowerCase (orEmpty (rt_title t))) (toLowerCase area))
                (sc_functionalAreas c) ltac:(lia)).
  lia.
Qed.

(** X5. A test that is not generic and whose title names a functional area
    of the changed files has a relevance score of at least 40. *)
Theorem feature_in_title_scores_40 :
  forall (c : ScoringContext) (t : RegressionTest) (area : jsstring),
    In area (sc_functionalAreas c) ->
    includes (toLowerCase (orEmpty (rt_title t))) (toLowerCase area) = true ->
    isGenericTest (toLowerCase (orEmpty (rt_title t))) (sc_components c) = false ->
    40 <= relevance c t.
Proof.
  intros c t area Harea Hin Hgeneric.
  pose proof (rawScore_above_feature c t) as H. cbv zeta in H.
  rewrite Hgeneric in H.
  pose proof (pointsEach_In 40
                (fun area => includes (toLowerCase (orEmpty (rt_title t))) (toLowerCase area))
                (sc_functionalAreas c) area ltac:(lia) Harea Hin).
  unfold relevance, clamp. lia.
Qed.

Lemma feature_in_title_scores_40_witness : 40 <= relevance Sample.context Sample.webformTest.
Proof.
  apply (feature_in_title_scores_40 Sample.context Sample.webformTest (lit "Webform")).
  - vm_compute. now left.
  - vm_compute. reflexivity.
  - vm_compute. reflexivity.
Defined.

Lemma pointsEach_app {A} (n : Z) (p : A -> bool) l l' :
  pointsEach n p (l ++ l') = pointsEach n p l + pointsEach n p l'.
Proof.
  induction l as [|x l IH]; simpl.
  - unfold pointsEach at 2. simpl. lia.
  - rewrite !pointsEach_cons, IH. lia.
Qed.

Ltac innermost_if :=
  match goal with
  | |- context [if ?b then _ else _] =>
      lazymatch b with
      | context [if _ then _ else _] => fail
      | _ => destruct b eqn:?
      end
  end.

(** X27. One more keyword never lowers a relevance score: the keyword can
    only add points in sections 1, 4 and 7, and every later section keeps
    the order of two scores, the penalty for generic tests below 50 points
    included. *)
Theorem more_keywords_never_lower_a_score :
  forall (c : ScoringContext) (kw : jsstring) (t : RegressionTest),
    relevance c t <= relevance (withKeyword c kw) t.
Proof.
  intros c kw t. unfold relevance, clamp.
  enough (rawScore c t <= rawScore (withKeyword c kw) t) by lia.
  unfold rawScore. cbv zeta.
  cbn [withKeyword sc_changedFiles sc_components sc_keywords sc_functionalAreas sc_shared
       sc_prContext].
  match goal with
  | |- ?L <= ?R =>
      match L with
      | context [if _ then ?s + Z.min _ 40 else _] =>
          match R with
          | context [if _ then ?s' + Z.min _ 40 else _] =>
              set (low := s); set (high := s');
              assert (Hlow : low <= high)
          end
      end
  end.
  { subst low high. rewrite !pointsEach_app.
    repeat match goal with
           | |- context [pointsEach ?n ?p [kw]] =>
               let x := fresh "extra" in
               let Hx := fresh "Hextra" in
               pose proof (pointsEach_nonneg n p [kw] ltac:(lia)) as Hx;
               set (x := pointsEach n p [kw]) in *; clearbody x
           end.
    repeat innermost_if; lia. }
  clearbody low high.
  set (bonus := calculateFileTypeRelevance _ _). clearbody bonus.
  set (m := checkSectionPathMatch _ _ _). clearbody m.
  destruct (isGenericTest _ _); cbn [andb];
    repeat innermost_if;
    rewrite ?Z.ltb_lt, ?Z.ltb_ge in *; lia.
Qed.

(** ** Size tiers *)

(** X6. The cap on the number of returned tests grows with the number of
    changed files, and its five steps are the five tiers of
    [determinePRType]: two sizes get the same cap exactly when they are of
    the same tier. *)
Theorem cap_follows_the_size_tier :
  forall n m : Z,
    (n <= m -> getMaxTestsForPRSize n <= getMaxTestsForPRSize m)
    /\ (determinePRType n = determinePRType m
        <-> getMaxTestsForPRSize n = getMaxTestsForPRSize m).
Proof.
  intros n m. unfold getMaxTestsForPRSize, determinePRType.
  repeat match goal with
         | |- context [?a <=? ?b] => destruct (Z.leb_spec a b)
         end;
    (split; [intros; lia|]);
    (split; intros E; first [reflexivity | lia | exfalso; vm_compute in E; discriminate E]).
Qed.

(** ** File types *)

Lemma countEnding_zero suffixes files :
  (forall file, In file files ->
     List.existsb (fun suf => endsWith (toLowerCase file) (lit suf)) suffixes = false) ->
  countEnding suffixes files = 0.
Proof.
  unfold countEnding. induction files as [|f files IH]; intros H; [reflexivity|].
  rewrite pointsEach_cons, (H f (or_introl eq_refl)), IH; [reflexivity|].
  intros file Hfile. apply H. now right.
Qed.

(** X7. A change set without markup and without code (no [.html], [.htm],
    [.ts], [.js], [.jsx] or [.java] file, for instance style sheets only)
    gives no test a file-type bonus, whatever its title. *)
Theorem no_file_type_bonus_without_markup_or_code :
  forall (prTitle prDescription : jsstring) (changedFiles : list jsstring)
         (testTitle : jsstring),
    List.forallb (fun file => negb (markupOrCode file)) changedFiles = true ->
    calculateFileTypeRelevance
      (fileTypes (extractPRContext prTitle prDescription changedFiles)) testTitle = 0.
Proof.
  intros prTitle prDescription changedFiles testTitle H.
  rewrite forallb_forall in H.
  assert (Hnone : forall suffixes,
             (forall suf, In suf suffixes ->
                In suf [".html"; ".htm"; ".ts"; ".js"; ".jsx"; ".java"]%string) ->
             countEnding suffixes changedFiles = 0).
  { intros suffixes Hsub. apply countEnding_zero. intros file Hfile.
    specialize (H file Hfile). apply negb_true_iff in H. unfold markupOrCode in H.
    destruct (List.existsb _ suffixes) eqn:E; [|reflexivity].
    apply existsb_exists in E as (suf & Hsuf & E).
    rewrite <- H. symmetry. apply existsb_exists. exists suf. split; [now apply Hsub|exact E]. }
  unfold extractPRContext. cbv zeta. cbn [fileTypes].
  unfold calculateFileTypeRelevance. cbv zeta.
  cbn [ft_html ft_ts ft_js ft_java ft_both].
  rewrite !Hnone by (simpl; tauto). reflexivity.
Qed.

Lemma no_file_type_bonus_without_markup_or_code_witness :
  calculateFileTypeRelevance
    (fileTypes (extractPRContext (lit "Restyle the login screen") []
                                 [lit "src/login/login.scss"; lit "theme/layout.css"]))
    (lit "verify the login screen layout") = 0.
Proof.
  apply no_file_type_bonus_without_markup_or_code. vm_compute. reflexivity.
Defined.

(** ** Section paths *)

Lemma lower_char_fixed c d :
  is_upper c = false -> is_lower c = false -> N.eqb c (lower_char d) = N.eqb c d.
Proof.
  unfold lower_char, is_upper, is_lower. intros Hu Hl.
  destruct (N.leb 65 d && N.leb d 90) eqn:E; [|reflexivity].
  apply andb_true_iff in E as [E1 E2]. apply N.leb_le in E1, E2.
  apply andb_false_iff in Hu, Hl. rewrite !N.leb_gt in Hu, Hl.
  destruct (N.eqb_spec c (d + 32)), (N.eqb_spec c d); try reflexivity; exfalso; lia.
Qed.

Lemma startsWith_lower sep s :
  Forall (fun c => is_upper c = false /\ is_lower c = false) sep ->
  startsWith sep (toLowerCase s) = startsWith sep s.
Proof.
  intros Hsep. revert s. induction Hsep as [|c sep [Hu Hl] _ IH]; intros s; [reflexivity|].
  destruct s as [|d s]; [reflexivity|]. simpl.
  now rewrite lower_char_fixed, IH.
Qed.

Lemma splitWith_lower_length (m : jsstring -> nat) :
  (forall s, m (toLowerCase s) = m s) ->
  forall s skip cur cur',
    length (splitWith m skip cur (toLowerCase s)) = length (splitWith m skip cur' s).
Proof.
  intros Hm. induction s as [|c s IH]; intros skip cur cur'; [reflexivity|].
  change (toLowerCase (c :: s)) with (lower_char c :: toLowerCase s).
  cbn [splitWith]. destruct skip as [|k]; [|apply IH].
  change (lower_char c :: toLowerCase s) with (toLowerCase (c :: s)). rewrite Hm.
  destruct (m (c :: s)); [apply IH|]. simpl. f_equal. apply IH.
Qed.

Lemma section_depth_lower (path : jsstring) :
  length (split_string (lit " > ") (toLowerCase path))
  = length (split_string (lit " > ") path).
Proof.
  apply splitWith_lower_length. intros s. unfold sep_string.
  rewrite startsWith_lower; [reflexivity|].
  repeat constructor.
Qed.

(** X8. [checkSectionPathMatch] gives points only to a test whose section
    path is at least two levels deep as [getSectionPathDepth] counts them:
    lower-casing the path does not change the number of its levels. *)
Theorem section_match_needs_two_levels :
  forall (t : RegressionTest) (components functionalAreas : list jsstring),
    0 < checkSectionPathMatch t components functionalAreas ->
    2 <= getSectionPathDepth t.
Proof.
  intros t components functionalAreas.
  unfold checkSectionPathMatch, getSectionPathDepth. cbv zeta.
  destruct (sectionPathTruthy t); simpl; [|lia].
  rewrite section_depth_lower.
  destruct (Nat.ltb_spec (length (split_string (lit " > ") (orEmpty (rt_sectionPath t)))) 2);
    [lia|]. intros _. lia.
Qed.

Lemma section_match_needs_two_levels_witness : 2 <= getSectionPathDepth Sample.webformTest.
Proof.
  apply (section_match_needs_two_levels Sample.webformTest Sample.components []).
  vm_compute. reflexivity.
Defined.

(** ** The impact selection *)

Lemma matchesOfComponent_In mapping inventory jiraComp m :
  In m (matchesOfComponent mapping inventory jiraComp) ->
  In (m_testCase m) inventory
  /\ m_jiraComponent m = jiraComp
  /\ m_matchedKeywords m = None /\ m_matchedFileKeywords m = None
  /\ firstFolderMatch (searchTermsOf (resolveTags mapping jiraComp))
                      (foldersOf (tc_sectionPath (m_testCase m)))
     <> None.
Proof.
  unfold matchesOfComponent. cbv zeta. rewrite in_flat_map.
  intros (tc & Htc & H).
  destruct (firstFolderMatch _ _) as [[folder searchTerm]|] eqn:E; [|destruct H].
  destruct H as [<-|[]]. simpl. rewrite E. repeat split; auto; discriminate.
Qed.

Lemma firstFolderMatch_Some searchTerms folders folder term :
  firstFolderMatch searchTerms folders = Some (folder, term) ->
  In term searchTerms /\ In folder folders /\ includes (toLowerCase folder) term = true.
Proof.
  induction searchTerms as [|t r IH]; simpl; [discriminate|].
  destruct (List.find _ folders) as [f|] eqn:E.
  - intros [= <- <-]. apply List.find_some in E as [H1 H2]. auto.
  - intros H. destruct (IH H) as (H1 & H2 & H3). auto.
Qed.

Lemma filterByTitleKeywords_In kws ms m :
  In m (filterByTitleKeywords kws ms) ->
  exists m0, In m0 ms /\ m_testCase m = m_testCase m0
             /\ m_jiraComponent m = m_jiraComponent m0
             /\ m_matchedFileKeywords m = m_matchedFileKeywords m0
             /\ (kws = [] /\ m_matchedKeywords m = m_matchedKeywords m0
                 \/ kws <> [] /\ matchingKeywords kws (m_testCase m) <> []
                    /\ m_matchedKeywords m = Some (matchingKeywords kws (m_testCase m))).
Proof.
  unfold filterByTitleKeywords. destruct kws as [|kw kws].
  - intros H. exists m. repeat split; auto.
  - rewrite in_flat_map. intros (m0 & Hm0 & H). exists m0.
    destruct (matchingKeywords (kw :: kws) (m_testCase m0)) as [|k ks] eqn:E; [destruct H|].
    destruct H as [<-|[]].
    cbn [m_testCase m_jiraComponent m_matchedKeywords m_matchedFileKeywords].
    rewrite E. repeat split; auto; right; repeat split; discriminate.
Qed.

Lemma filterByFileKeywords_In kws ms m :
  In m (filterByFileKeywords kws ms) ->
  exists m0, In m0 ms /\ m_testCase m = m_testCase m0
             /\ m_jiraComponent m = m_jiraComponent m0
             /\ m_matchedKeywords m = m_matchedKeywords m0
             /\ (kws = [] /\ m_matchedFileKeywords m = m_matchedFileKeywords m0
                 \/ kws <> [] /\ matchingKeywords kws (m_testCase m) <> []
                    /\ m_matchedFileKeywords m = Some (matchingKeywords kws (m_testCase m))).
Proof.
  unfold filterByFileKeywords. destruct kws as [|kw kws].
  - intros H. exists m. repeat split; auto.
  - rewrite in_flat_map. intros (m0 & Hm0 & H). exists m0.
    destruct (matchingKeywords (kw :: kws) (m_testCase m0)) as [|k ks] eqn:E; [destruct H|].
    destruct H as [<-|[]].
    cbn [m_testCase m_jiraComponent m_matchedKeywords m_matchedFileKeywords].
    rewrite E. repeat split; auto; right; repeat split; discriminate.
Qed.

(** What is known of a match that reaches the result building. *)
Lemma finalMatches_In o inventory m :
  In m (finalMatches o inventory) ->
  In (m_testCase m) inventory
  /\ In (m_jiraComponent m) (opt_jiraComponents o)
  /\ firstFolderMatch
       (searchTermsOf (resolveTags (opt_componentMapping o) (m_jiraComponent m)))
       (foldersOf (tc_sectionPath (m_testCase m))) <> None
  /\ (let kws := extractSignificantKeywords (opt_jiraTitle o) in
      kws = [] /\ m_matchedKeywords m = None
      \/ kws <> [] /\ matchingKeywords kws (m_testCase m) <> []
         /\ m_matchedKeywords m = Some (matchingKeywords kws (m_testCase m)))
  /\ (let kws := fileKeywords (opt_changedFiles o) in
      kws = [] /\ m_matchedFileKeywords m = None
      \/ kws <> [] /\ matchingKeywords kws (m_testCase m) <> []
         /\ m_matchedFileKeywords m = Some (matchingKeywords kws (m_testCase m))).
Proof.
  unfold finalMatches. cbv zeta. intros H.
  apply filterByFileKeywords_In in H as (m2 & H & T2 & C2 & K2 & F2).
  apply filterByTitleKeywords_In in H as (m1 & H & T1 & C1 & F1 & K1).
  unfold dedupMatches in H. apply firstById_In in H as [H _].
  apply in_flat_map in H as (comp & Hcomp & H).
  apply matchesOfComponent_In in H as (Hin & Hc & Hk & Hf & Hfolder).
  rewrite T2, T1, C2, C1, Hc in *. 
  repeat split; auto.
  - rewrite K2. destruct K1 as [[E1 E2]|(E1 & E2 & E3)]; [left|right]; repeat split; auto.
    congruence.
  - destruct F2 as [[E1 E2]|(E1 & E2 & E3)]; [left|right]; repeat split; auto.
    congruence.
Qed.

Lemma placedMatches_final o inventory m :
  In m (placedMatches o inventory) -> In m (finalMatches o inventory).
Proof.
  unfold placedMatches. destruct (opt_jiraComponents o); [intros []|].
  intros H. now apply firstById_In in H.
Qed.

Lemma directCases_In o inventory tc :
  In tc (directCases o inventory) -> In tc inventory.
Proof.
  unfold directCases. destruct (opt_jiraId o) as [jiraId|]; [|intros []].
  destruct (truthy jiraId); [|intros []].
  intros H. apply firstById_In in H as [H _].
  unfold jiraMatches in H. now apply List.filter_In in H.
Qed.

(** X9. Every entry of [allCases] is a test case of the inventory: the
    selection adds annotations to the cases it is given and returns no case
    of its own making. *)
Theorem impacted_cases_come_from_inventory :
  forall (inventory : list TestCase) (o : Options) (r : Results) (e : ImpactEntry),
    getImpactedTestCases inventory o = Some r ->
    In e (allCases r) ->
    In (e_case e) inventory.
Proof.
  intros inventory o r e Hr.
  rewrite (allCases_eq _ _ _ Hr), (directJiraMatch_eq _ _ _ Hr),
    (componentWithKeywords_eq _ _ _ Hr).
  rewrite in_app_iff, !List.in_map_iff.
  intros [(tc & <- & H)|(m & <- & H)]; simpl.
  - now apply directCases_In in H.
  - now apply placedMatches_final, finalMatches_In in H.
Qed.

(** X10. Every entry of [componentWithKeywords] names one of the ticket's
    components, and a folder of its section path contains, compared in
    lower case, a search term of that component that is more than two
    characters long. *)
Theorem component_entry_is_justified :
  forall (inventory : list TestCase) (o : Options) (r : Results) (e : ImpactEntry),
    getImpactedTestCases inventory o = Some r ->
    In e (componentWithKeywords r) ->
    exists comp folder term,
      e_matchedComponent e = Some comp
      /\ In comp (opt_jiraComponents o)
      /\ In folder (foldersOf (tc_sectionPath (e_case e)))
      /\ In term (searchTermsOf (resolveTags (opt_componentMapping o) comp))
      /\ includes (toLowerCase folder) term = true
      /\ (2 < length term)%nat.
Proof.
  intros inventory o r e Hr.
  rewrite (componentWithKeywords_eq _ _ _ Hr), List.in_map_iff.
  intros (m & <- & H). apply placedMatches_final, finalMatches_In in H.
  destruct H as (_ & Hcomp & Hfolder & _).
  destruct (firstFolderMatch _ _) as [[folder term]|] eqn:E; [|congruence].
  apply firstFolderMatch_Some in E as (Hterm & Hf & Hinc).
  exists (m_jiraComponent m), folder, term. simpl. repeat split; auto.
  unfold searchTermsOf in Hterm. apply uniq_from_In in Hterm.
  apply in_flat_map in Hterm as (tag & _ & Hterm).
  apply List.filter_In in Hterm as [_ Hlen]. now apply Nat.ltb_lt in Hlen.
Qed.

Lemma impacted_cases_come_from_inventory_witness :
  exists r,
    getImpactedTestCases Sample.inventory Sample.options = Some r
    /\ In (directEntry (lit "PROJ-12") Sample.case3) (allCases r)
    /\ In Sample.case3 Sample.inventory.
Proof.
  destruct (getImpactedTestCases Sample.inventory Sample.options) as [r|] eqn:E.
  - exists r. split; [reflexivity|].
    assert (H : In (directEntry (lit "PROJ-12") Sample.case3) (allCases r)).
    { vm_compute in E. injection E as <-. right. left. reflexivity. }
    split; [exact H|].
    exact (impacted_cases_come_from_inventory Sample.inventory Sample.options r
             (directEntry (lit "PROJ-12") Sample.case3) E H).
  - vm_compute in E. discriminate E.
Defined.

Lemma component_entry_is_justified_witness :
  exists r,
    getImpactedTestCases Sample.inventory Sample.options = Some r
    /\ In Fixture.webformEntry (componentWithKeywords r)
    /\ exists comp folder term,
         e_matchedComponent Fixture.webformEntry = Some comp
         /\ In comp (opt_jiraComponents Sample.options)
         /\ In folder (foldersOf (tc_sectionPath (e_case Fixture.webformEntry)))
         /\ In term (searchTermsOf (resolveTags (opt_componentMapping Sample.options) comp))
         /\ includes (toLowerCase folder) term = true
         /\ (2 < length term)%nat.
Proof.
  destruct (getImpactedTestCases Sample.inventory Sample.options) as [r|] eqn:E.
  - exists r. split; [reflexivity|].
    assert (H : In Fixture.webformEntry (componentWithKeywords r)).
    { vm_compute in E. injection E as <-. left. reflexivity. }
    split; [exact H|].
    exact (component_entry_is_justified Sample.inventory Sample.options r
             Fixture.webformEntry E H).
  - vm_compute in E. discriminate E.
Defined.

(** X12. When the function returns, no match that reached the result
    building has a section path of an inherited name, and a read of
    [groupedByModule] under a section path gives the group of that section:
    in order, every such match of the section, also those whose test case
    was already placed as a direct reference match and is therefore left
    out of [componentWithKeywords].  Under a path without such a match the
    read gives the inherited property when the path is the name of one, and
    nothing else. *)
Theorem groups_hold_every_walked_match :
  forall (inventory : list TestCase) (o : Options) (r : Results) (section : jsstring),
    getImpactedTestCases inventory o = Some r ->
    List.existsb inheritedSection (walkedMatches o inventory) = false
    /\ readProp (groupedByModule r) section
       = match List.filter (fun m => bool_decide (sectionKey (m_testCase m) = section))
                           (walkedMatches o inventory) with
         | [] => if mem section objectPrototypeKeys then Inherited else Undefined
         | m :: ms => Own (List.map enrichedTC (m :: ms))
         end.
Proof.
  intros inventory o r section Hr. split.
  - destruct (List.existsb inheritedSection (walkedMatches o inventory)) eqn:E;
      [|reflexivity].
    apply getImpactedTestCases_None in E. congruence.
  - destruct (getImpactedTestCases_Some _ _ _ Hr) as (_ & _ & _ & Hgroup & _).
    unfold readProp. rewrite Hgroup. now destruct (List.filter _ _).
Qed.

Lemma groups_hold_every_walked_match_witness :
  exists r,
    getImpactedTestCases Sample.inventory Sample.options = Some r
    /\ (List.existsb inheritedSection (walkedMatches Sample.options Sample.inventory) = false
        /\ readProp (groupedByModule r) (tc_sectionPath Sample.case1)
           = match List.filter
                     (fun m => bool_decide (sectionKey (m_testCase m)
                                            = tc_sectionPath Sample.case1))
                     (walkedMatches Sample.options Sample.inventory) with
             | [] => if mem (tc_sectionPath Sample.case1) objectPrototypeKeys
                     then Inherited else Undefined
             | m :: ms => Own (List.map enrichedTC (m :: ms))
             end)
    /\ List.map matchId
         (List.filter (fun m => bool_decide (sectionKey (m_testCase m)
                                             = tc_sectionPath Sample.case1))
                      (walkedMatches Sample.options Sample.inventory)) = [1]
    /\ List.map e_id (componentWithKeywords r) = [4].
Proof.
  destruct (getImpactedTestCases Sample.inventory Sample.options) as [r|] eqn:E.
  - exists r. split; [reflexivity|]. split.
    + exact (groups_hold_every_walked_match Sample.inventory Sample.options r
               (tc_sectionPath Sample.case1) E).
    + vm_compute in E. injection E as <-. split; vm_compute; reflexivity.
  - vm_compute in E. discriminate E.
Defined.

(** X11. An entry of [componentWithKeywords] records exactly the keywords of
    the ticket title, and exactly the keywords of the changed file names,
    that occur in its section path or its title; when the title (the file
    names) give any keyword at all, the entry has at least one of them. *)
Theorem component_entry_records_found_keywords :
  forall (inventory : list TestCase) (o : Options) (r : Results) (e : ImpactEntry),
    getImpactedTestCases inventory o = Some r ->
    In e (componentWithKeywords r) ->
    let titleKeywords := extractSignificantKeywords (opt_jiraTitle o) in
    let fileNameKeywords := fileKeywords (opt_changedFiles o) in
    e_matchedKeywords e = matchingKeywords titleKeywords (e_case e)
    /\ e_matchedFileKeywords e = matchingKeywords fileNameKeywords (e_case e)
    /\ (titleKeywords <> [] -> e_matchedKeywords e <> [])
    /\ (fileNameKeywords <> [] -> e_matchedFileKeywords e <> []).
Proof.
  intros inventory o r e Hr.
  rewrite (componentWithKeywords_eq _ _ _ Hr), List.in_map_iff.
  intros (m & <- & H). apply placedMatches_final, finalMatches_In in H.
  destruct H as (_ & _ & _ & HK & HF). cbv zeta in *.
  cbn [enrichedTC e_matchedKeywords e_matchedFileKeywords e_case].
  destruct HK as [[K1 K2]|(K1 & K2 & K3)], HF as [[F1 F2]|(F1 & F2 & F3)];
    rewrite ?K1, ?K2, ?K3, ?F1, ?F2, ?F3; simpl; repeat split; try congruence.
Qed.

Lemma component_entry_records_found_keywords_witness :
  let titleKeywords := extractSignificantKeywords (opt_jiraTitle Sample.options) in
  let fileNameKeywords := fileKeywords (opt_changedFiles Sample.options) in
  exists r,
    getImpactedTestCases Sample.inventory Sample.options = Some r
    /\ In Fixture.webformEntry (componentWithKeywords r)
    /\ e_matchedKeywords Fixture.webformEntry
       = matchingKeywords titleKeywords (e_case Fixture.webformEntry)
    /\ e_matchedFileKeywords Fixture.webformEntry
       = matchingKeywords fileNameKeywords (e_case Fixture.webformEntry)
    /\ (titleKeywords <> [] -> e_matchedKeywords Fixture.webformEntry <> [])
    /\ (fileNameKeywords <> [] -> e_matchedFileKeywords Fixture.webformEntry <> []).
Proof.
  intros titleKeywords fileNameKeywords.
  destruct (getImpactedTestCases Sample.inventory Sample.options) as [r|] eqn:E.
  - exists r. split; [reflexivity|].
    assert (H : In Fixture.webformEntry (componentWithKeywords r)).
    { vm_compute in E. injection E as <-. left. reflexivity. }
    split; [exact H|].
    exact (component_entry_records_found_keywords Sample.inventory Sample.options r
             Fixture.webformEntry E H).
  - vm_compute in E. discriminate E.
Defined.

(** ** Risk score and risk level *)

Lemma totalLines_from files (sum : Z) :
  List.fold_left
    (fun sum f => sum + linesOr (rf_linesAdded f) (rf_lines_added f)
                      + linesOr (rf_linesRemoved f) (rf_lines_removed f))
    files sum
  = sum + totalLines files.
Proof.
  unfold totalLines. revert sum. induction files as [|f files IH]; intros sum; simpl; [lia|].
  rewrite IH, (IH (_ + _)). lia.
Qed.

Lemma totalLines_cons f files :
  totalLines (f :: files)
  = linesOr (rf_linesAdded f) (rf_lines_added f)
    + linesOr (rf_linesRemoved f) (rf_lines_removed f) + totalLines files.
Proof. unfold totalLines at 1. simpl. rewrite totalLines_from. lia. Qed.

Lemma totalLines_nonneg files : Forall nonNegativeLines files -> 0 <= totalLines files.
Proof.
  induction 1 as [|f files [Ha Hr] _ IH]; [reflexivity|].
  rewrite totalLines_cons. lia.
Qed.

Lemma riskScore_eq pr files :
  riskScore (analyzePR pr files)
  = Z.min 100 (Z.of_nat (length files) + 10 * sharedComponents files
               + (totalLines files + 10) / 20).
Proof. unfold analyzePR. cbv zeta. cbn [riskScore]. apply round_rawRiskScore. Qed.

(** X13. With line counts that are not negative the returned risk score
    lies between 0 and 100. *)
Theorem risk_score_range :
  forall (pr : PullRequest) (files : list RawFile),
    Forall nonNegativeLines files ->
    0 <= riskScore (analyzePR pr files) <= 100.
Proof.
  intros pr files H. rewrite riskScore_eq. apply totalLines_nonneg in H.
  unfold sharedComponents.
  assert (0 <= (totalLines files + 10) / 20) by (apply Z.div_pos; lia).
  lia.
Qed.

Lemma risk_score_range_witness :
  0 <= riskScore (analyzePR Sample.loginPR Sample.files3) <= 100.
Proof.
  apply risk_score_range. repeat constructor; vm_compute; discriminate.
Defined.

(** X14. A Relaxed change is never of High risk: at most 10 files, 3 shared
    components and 500 lines keep the risk score at 65 or below. *)
Theorem relaxed_is_never_high_risk :
  forall (pr : PullRequest) (files : list RawFile),
    category (analyzePR pr files) = Relaxed ->
    riskLevel (analyzePR pr files) <> High /\ riskScore (analyzePR pr files) <= 65.
Proof.
  intros pr files E.
  pose proof (category_classified pr files) as H. rewrite E in H.
  unfold classified in H. inversion H as [| | | |_ _ Hheavy Hlarge]. clear H.
  apply Decidable.not_or in Hheavy as [Hs _].
  apply Decidable.not_or in Hlarge as [Hn Ht].
  split.
  - assert (Hlt : (rawRiskScore (Z.of_nat (length files)) (sharedComponents files)
                                (totalLines files) < inject_Z 70)%Q).
    { apply rawRiskScore_lt; [lia|]. unfold twentieths. lia. }
    apply Qlt_bool_iff in Hlt.
    unfold analyzePR. cbv zeta. cbn [riskLevel].
    change (inject_Z 70) with 70%Q in Hlt. rewrite Hlt.
    now destruct (Qlt_bool _ 30).
  - rewrite riskScore_eq.
    assert ((totalLines files + 10) / 20 < 26) by (apply Z.div_lt_upper_bound; lia).
    lia.
Qed.

Lemma relaxed_is_never_high_risk_witness :
  riskLevel (analyzePR Sample.widgetPR [Sample.file "src/report/widget.ts" 300]) <> High
  /\ riskScore (analyzePR Sample.widgetPR [Sample.file "src/report/widget.ts" 300]) <= 65.
Proof.
  apply relaxed_is_never_high_risk. vm_compute. reflexivity.
Defined.

(** A pull request without changed files is classified as Sleepy with
    risk score 0 and level Low, whatever its title: [every] holds of the
    empty list, so the change counts as style-only. *)
Remark no_changed_file_is_a_sleepy_change :
  forall pr : PullRequest,
    analyzePR pr []
    = {| category := Sleepy; riskScore := 0; riskLevel := Low;
         metrics := {| filesChanged := 0; linesChanged := 0;
                       metric_sharedComponents := 0;
                       metric_onlyStyleChanges := true |} |}.
Proof. intros pr. reflexivity. Qed.

(** ** Functional areas *)

Lemma setProp_In {A} k (v : A) l k' v' :
  In (k', v') (setProp k v l) -> In (k', v') l \/ (k' = k /\ v' = v).
Proof.
  induction l as [|[k0 v0] l IH]; simpl.
  - intros [[= <- <-]|[]]. now right.
  - destruct (str_eqb k k0) eqn:E.
    + apply str_eqb_eq in E as <-. intros [[= <- <-]|H]; [now right|left; now right].
    + intros [H|H]; [left; now left|]. destruct (IH H) as [H'|H']; [left; now right|now right].
Qed.

Lemma setProp_keys {A} k (v : A) l :
  List.NoDup (List.map fst l) -> List.NoDup (List.map fst (setProp k v l)).
Proof.
  induction l as [|[k0 v0] l IH]; simpl; intros Hnd.
  - repeat constructor. intros [].
  - inversion Hnd as [|? ? Hk0 Hl]; subst.
    destruct (str_eqb k k0) eqn:E; simpl; [exact Hnd|].
    constructor; [|now apply IH].
    intros Hin. apply List.in_map_iff in Hin as ([k1 v1] & E1 & Hin). simpl in E1. subst k1.
    apply setProp_In in Hin as [Hin|[-> _]].
    + apply Hk0. now apply (List.in_map fst) in Hin.
    + assert (str_eqb k k = true) by now apply str_eqb_eq. congruence.
Qed.

(** The table from tags to components: every entry is a tag of the matrix in
    lower case with a component that lists it, and no tag has two entries. *)
Lemma tagToComponent_spec componentMap :
  (forall k v, In (k, v) (tagToComponent componentMap) ->
     exists trComponent tag,
       In (v, trComponent) componentMap
       /\ In tag (default [] (tr_tags trComponent)) /\ k = toLowerCase tag)
  /\ List.NoDup (List.map fst (tagToComponent componentMap)).
Proof.
  unfold tagToComponent.
  assert (G : forall l acc,
             (forall k v, In (k, v) acc ->
                exists trComponent tag,
                  In (v, trComponent) componentMap
                  /\ In tag (default [] (tr_tags trComponent)) /\ k = toLowerCase tag) ->
             List.NoDup (List.map fst acc) ->
             (forall entry, In entry l -> In entry componentMap) ->
             let acc' :=
               List.fold_left
                 (fun acc entry =>
                    List.fold_left (fun acc' tag => setProp (toLowerCase tag) (fst entry) acc')
                                   (default [] (tr_tags (snd entry))) acc)
                 l acc in
             (forall k v, In (k, v) acc' ->
                exists trComponent tag,
                  In (v, trComponent) componentMap
                  /\ In tag (default [] (tr_tags trComponent)) /\ k = toLowerCase tag)
             /\ List.NoDup (List.map fst acc')).
  { induction l as [|[name trComponent] l IH]; intros acc Hacc Hnd Hsub; simpl; [now split|].
    apply IH; [| |intros entry Hentry; apply Hsub; now right].
    - assert (Hname : In (name, trComponent) componentMap) by (apply Hsub; now left).
      clear IH Hsub Hnd. 
      assert (T : forall tags acc0,
                 (forall tag, In tag tags -> In tag (default [] (tr_tags trComponent))) ->
                 (forall k v, In (k, v) acc0 ->
                    exists trComponent tag,
                      In (v, trComponent) componentMap
                      /\ In tag (default [] (tr_tags trComponent)) /\ k = toLowerCase tag) ->
                 forall k v,
                   In (k, v) (List.fold_left
                                (fun acc' tag => setProp (toLowerCase tag) name acc') tags acc0) ->
                   exists trComponent tag,
                     In (v, trComponent) componentMap
                     /\ In tag (default [] (tr_tags trComponent)) /\ k = toLowerCase tag).
      { induction tags as [|tag tags IHt]; intros acc0 Htags Hacc0; simpl; [exact Hacc0|].
        apply IHt; [intros tag' H'; apply Htags; now right|].
        intros k v Hin. apply setProp_In in Hin as [Hin|[-> ->]]; [now apply Hacc0|].
        exists trComponent, tag. repeat split; [exact Hname|apply Htags; now left]. }
      apply T; [auto|exact Hacc].
    - clear IH Hsub Hacc. simpl.
      generalize (default [] (tr_tags trComponent)). intros tags. revert acc Hnd.
      induction tags as [|tag tags IHt]; intros acc Hnd; simpl; [exact Hnd|].
      apply IHt. now apply setProp_keys. }
  apply (G componentMap []); simpl; [intros k v []|constructor|auto].
Qed.

Lemma uniq_from_NoDup seen l :
  List.NoDup (uniq_from seen l) /\ (forall x, In x (uniq_from seen l) -> ~ In x seen).
Proof.
  revert seen. induction l as [|x l IH]; intros seen; simpl.
  - split; [constructor|intros x []].
  - destruct (mem x seen) eqn:E.
    + apply IH.
    + destruct (IH (x :: seen)) as [H1 H2]. split.
      * constructor; [|exact H1]. intros Hin. apply (H2 x Hin). now left.
      * intros y [<-|Hy].
        -- intros Hin. apply mem_In in Hin. congruence.
        -- intros Hin. apply (H2 y Hy). now right.
Qed.

(** X16. The functional areas of a change set are listed once each, and
    each is a component of the traceability matrix with a tag that occurs,
    compared in lower case, in the path of a changed file. *)
Theorem functional_areas_are_matrix_components :
  forall (componentMap : list (jsstring * TrComponent)) (files : list jsstring),
    List.NoDup (mapFilesToFunctionalAreas componentMap files)
    /\ forall area, In area (mapFilesToFunctionalAreas componentMap files) ->
         exists trComponent tag file,
           In (area, trComponent) componentMap
           /\ In tag (default [] (tr_tags trComponent))
           /\ In file files
           /\ includes (toLowerCase file) (toLowerCase tag) = true.
Proof.
  intros componentMap files. unfold mapFilesToFunctionalAreas. cbv zeta. split.
  - apply uniq_from_NoDup.
  - intros area H. apply uniq_from_In, in_flat_map in H as (file & Hfile & H).
    apply List.in_map_iff in H as ([k v] & E & H). simpl in E. subst v.
    apply List.filter_In in H as [H Hinc]. simpl in Hinc.
    apply (proj1 (tagToComponent_spec componentMap)) in H as (trComponent & tag & H1 & H2 & ->).
    exists trComponent, tag, file. auto.
Qed.

(** ** Search by criteria *)

Lemma searchScore_from (terms : list jsstring) (testCase : RegressionTest) :
  let title := toLowerCase (orEmpty (rt_title testCase)) in
  let searchText :=
    title ++ lit " " ++ toLowerCase (orEmpty (rt_refs testCase)) ++ lit " "
          ++ toLowerCase (rt_custom_fields testCase) in
  forall start,
    start <= List.fold_left
               (fun score term =>
                  if includes title term then score + 10
                  else if includes searchText term then score + 3
                  else score)
               terms start.
Proof.
  intros title searchText. induction terms as [|term terms IH]; intros start; simpl; [lia|].
  etransitivity; [|apply IH]. destruct (includes title term); [lia|].
  destruct (includes searchText term); lia.
Qed.

Lemma searchScore_nonneg criteria terms testCase :
  (if referencesTicket criteria testCase then 100 else 0)
  <= searchScore criteria terms testCase.
Proof.
  unfold searchScore. cbv zeta.
  etransitivity; [|apply searchScore_from]. destruct (referencesTicket _ _); lia.
Qed.

Lemma scoredCases_In criteria cases st :
  In st (List.flat_map
           (fun testCase =>
              let score := scoreOf criteria testCase in
              if 0 <? score then [ {| st_testCase := testCase; st_score := score |} ] else [])
           cases)
  <-> In (st_testCase st) cases
      /\ st_score st = scoreOf criteria (st_testCase st) /\ 0 < st_score st.
Proof.
  rewrite in_flat_map. cbv zeta. split.
  - intros (tc & Htc & H). destruct (Z.ltb_spec 0 (scoreOf criteria tc)); [|destruct H].
    destruct H as [<-|[]]. simpl. auto.
  - intros (Htc & E & Hpos). exists (st_testCase st). split; [exact Htc|].
    rewrite <- E. destruct (Z.ltb_spec 0 (st_score st)); [|lia].
    left. now destruct st.
Qed.

Lemma map_sorted_by {A B} (R : A -> A -> Prop) (S : B -> B -> Prop) (f : A -> B) l :
  (forall a b, In a l -> In b l -> R a b -> S (f a) (f b)) ->
  StronglySorted R l -> StronglySorted S (List.map f l).
Proof.
  intros Hf Hs. induction Hs as [|a l Hs IH Ha]; simpl; constructor.
  - apply IH. intros x y Hx Hy. apply Hf; now right.
  - apply List.Forall_forall. intros y Hy. apply List.in_map_iff in Hy as (b & <- & Hb).
    apply Hf; [now left|now right|].
    rewrite List.Forall_forall in Ha. now apply Ha.
Qed.

Lemma searchTestCases_In cases criteria testCase :
  In testCase (searchTestCases cases criteria)
  <-> In testCase cases /\ 0 < scoreOf criteria testCase.
Proof.
  unfold searchTestCases. cbv zeta. fold (scoreOf criteria).
  rewrite List.in_map_iff. split.
  - intros (st & <- & H). apply sortByScore_In, scoredCases_In in H as (H1 & H2 & H3).
    split; [exact H1|lia].
  - intros [H1 H2]. exists {| st_testCase := testCase; st_score := scoreOf criteria testCase |}.
    split; [reflexivity|]. apply sortByScore_In, scoredCases_In. simpl. auto.
Qed.

Lemma sortByScore_ties l (score : Z) :
  Forall (fun st => st_score st = score) l -> sortByScore l = l.
Proof.
  induction 1 as [|st l Hst Hl IH]; [reflexivity|].
  unfold sortByScore in *. simpl. rewrite IH.
  destruct Hl as [|st' l Hst' _]; [reflexivity|].
  simpl. rewrite Hst, Hst', Z.ltb_irrefl. reflexivity.
Qed.

(** X17. [searchTestCases] returns exactly the cases of the suite with a
    positive score, ordered by score, highest first. *)
Theorem search_returns_positive_scores_best_first :
  forall (cases : list RegressionTest) (criteria : Criteria),
    (forall testCase,
        In testCase (searchTestCases cases criteria)
        <-> In testCase cases /\ 0 < scoreOf criteria testCase)
    /\ StronglySorted (fun a b => scoreOf criteria b <= scoreOf criteria a)
                      (searchTestCases cases criteria).
Proof.
  intros cases criteria. split; [intros testCase; apply searchTestCases_In|].
  unfold searchTestCases. cbv zeta. fold (scoreOf criteria).
  eapply map_sorted_by; [|apply sortByScore_sorted].
  intros a b Ha Hb Hab. unfold scoredDescending in Hab.
  apply sortByScore_In, scoredCases_In in Ha as (_ & <- & _).
  apply sortByScore_In, scoredCases_In in Hb as (_ & <- & _). exact Hab.
Qed.

(** X18. With a ticket id in the criteria, every case whose reference field
    contains the id (compared in lower case) is returned by
    [searchTestCases], with a score of at least 100, whatever the search
    terms. *)
Theorem search_always_returns_referenced_cases :
  forall (cases : list RegressionTest) (criteria : Criteria) (jiraId : jsstring)
         (testCase : RegressionTest),
    cr_jiraId criteria = Some jiraId -> jiraId <> [] ->
    In testCase cases ->
    includes (toLowerCase (orEmpty (rt_refs testCase))) (toLowerCase jiraId) = true ->
    In testCase (searchTestCases cases criteria) /\ 100 <= scoreOf criteria testCase.
Proof.
  intros cases criteria jiraId testCase Hid Hne Hin Href.
  assert (H : 100 <= scoreOf criteria testCase).
  { unfold scoreOf.
    pose proof (searchScore_nonneg criteria (criteriaSearchTerms criteria) testCase) as H.
    unfold referencesTicket in H. rewrite Hid, Href in H.
    destruct jiraId; [congruence|exact H]. }
  split; [|exact H].
  apply searchTestCases_In. split; [exact Hin|lia].
Qed.

Lemma search_always_returns_referenced_cases_witness :
  In Fixture.referencedTest
     (searchTestCases (Fixture.referencedTest :: Sample.regressionTests) Fixture.criteria)
  /\ 100 <= scoreOf Fixture.criteria Fixture.referencedTest.
Proof.
  apply (search_always_returns_referenced_cases
           (Fixture.referencedTest :: Sample.regressionTests) Fixture.criteria
           (lit "proj-12")).
  - reflexivity.
  - discriminate.
  - now left.
  - vm_compute. reflexivity.
Defined.

(** X19. When the criteria give no search term (every word of the
    components and keywords has two characters or fewer), [searchTestCases]
    returns the cases that refer to the ticket, in the order of the suite,
    and nothing when no ticket id is given. *)
Theorem search_without_terms_is_the_reference_filter :
  forall (cases : list RegressionTest) (criteria : Criteria),
    criteriaSearchTerms criteria = [] ->
    searchTestCases cases criteria = List.filter (referencesTicket criteria) cases.
Proof.
  intros cases criteria Hterms. unfold searchTestCases. cbv zeta. rewrite Hterms.
  unfold searchScore. cbv zeta. simpl List.fold_left.
  rewrite (sortByScore_ties _ 100).
  - induction cases as [|tc cases IH]; [reflexivity|]. simpl.
    destruct (referencesTicket criteria tc); simpl; now rewrite IH.
  - apply List.Forall_forall. intros st H. apply in_flat_map in H as (tc & _ & H).
    destruct (referencesTicket criteria tc); simpl in H; [|destruct H].
    now destruct H as [<-|[]].
Qed.

Lemma search_without_terms_is_the_reference_filter_witness :
  searchTestCases (Fixture.referencedTest :: Sample.regressionTests) Fixture.shortCriteria
  = List.filter (referencesTicket Fixture.shortCriteria)
                (Fixture.referencedTest :: Sample.regressionTests).
Proof.
  apply search_without_terms_is_the_reference_filter. vm_compute. reflexivity.
Defined.

(** ** Upload of new cases *)

Lemma uploadFrom_spec addTestCase total testCases :
  forall i results reports,
    let out := uploadFrom addTestCase total i testCases results reports in
    skipped (fst out) = skipped results
    /\ exists n created,
         success (fst out) = success results ++ created
         /\ length created = n
         /\ (forall k testCase,
               nth_error testCases k = Some testCase -> (k < n)%nat ->
               exists id, addTestCase (i + k)%nat testCase = Created id
                          /\ nth_error created k
                             = Some {| up_title := nc_title testCase; up_id := id |})
         /\ match nth_error testCases n with
            | Some testCase =>
                exists message,
                  addTestCase (i + n)%nat testCase = Thrown message
                  /\ failed (fst out)
                     = failed results
                       ++ [ {| fl_title := nc_title testCase; fl_error := message |} ]
                  /\ length (snd out) = (length reports + n + 1)%nat
            | None =>
                failed (fst out) = failed results
                /\ length (snd out) = (length reports + n)%nat
            end.
Proof.
  induction testCases as [|testCase rest IH]; intros i results reports; cbn zeta.
  - simpl. split; [reflexivity|]. exists O, []. rewrite app_nil_r.
    repeat split; lia.
  - cbn [uploadFrom]. cbv zeta. destruct (addTestCase i testCase) as [id|message] eqn:E.
    + match goal with
      | |- context [uploadFrom _ _ _ _ ?res ?rep] =>
          destruct (IH (S i) res rep) as (Hs & n & created & H1 & H2 & H3 & H4)
      end.
      cbn [success failed skipped] in *.
      split; [exact Hs|].
      exists (S n), ({| up_title := nc_title testCase; up_id := id |} :: created).
      split; [rewrite H1, <- app_assoc; reflexivity|].
      split; [simpl; now rewrite H2|].
      split.
      * intros k tc Hk Hlt. destruct k as [|k]; simpl in Hk.
        -- injection Hk as <-. exists id. rewrite Nat.add_0_r. now split.
        -- destruct (H3 k tc Hk ltac:(lia)) as (id' & E1 & E2).
           exists id'. rewrite Nat.add_succ_r. now split.
      * cbn [nth_error]. destruct (nth_error rest n) as [tc|].
        -- destruct H4 as (message & E1 & E2 & E3). exists message.
           rewrite Nat.add_succ_r. repeat split; [exact E1|exact E2|].
           rewrite E3, length_app. simpl. lia.
        -- destruct H4 as (E2 & E3). split; [exact E2|].
           rewrite E3, length_app. simpl. lia.
    + cbn [fst snd success failed skipped]. split; [reflexivity|].
      exists O, []. rewrite app_nil_r. repeat split; try reflexivity.
      * intros k tc _ Hk. lia.
      * cbn [nth_error]. exists message. rewrite Nat.add_0_r, length_app. simpl.
        repeat split; [exact E|lia].
Qed.

(** X20. [bulkAddTestCases] stops at the first request that fails: [success]
    holds the cases before it, in order, each with the id it was given,
    [failed] holds the failing case alone, the cases after it are neither
    sent nor listed, [skipped] is always empty, and one progress report is
    made for every request sent. *)
Theorem upload_stops_at_the_first_error :
  forall (addTestCase : nat -> NewCase -> Response) (testCases : list NewCase),
    let results := fst (bulkAddTestCases addTestCase testCases) in
    let reports := snd (bulkAddTestCases addTestCase testCases) in
    skipped results = []
    /\ (forall k testCase,
          nth_error testCases k = Some testCase -> (k < length (success results))%nat ->
          exists id, addTestCase k testCase = Created id
                     /\ nth_error (success results) k
                        = Some {| up_title := nc_title testCase; up_id := id |})
    /\ match nth_error testCases (length (success results)) with
       | Some testCase =>
           exists message,
             addTestCase (length (success results)) testCase = Thrown message
             /\ failed results
                = [ {| fl_title := nc_title testCase; fl_error := message |} ]
             /\ length reports = S (length (success results))
       | None => failed results = [] /\ length reports = length (success results)
       end.
Proof.
  intros addTestCase testCases. cbv zeta. unfold bulkAddTestCases.
  destruct (uploadFrom_spec addTestCase (length testCases) testCases O
              {| success := []; failed := []; skipped := [] |} [])
    as (Hs & n & created & H1 & H2 & H3 & H4).
  cbv zeta in *. cbn [success failed skipped] in *. simpl in H1. rewrite H1, H2.
  split; [exact Hs|]. split; [exact H3|].
  destruct (nth_error testCases n).
  - destruct H4 as (message & E1 & E2 & E3). exists message. simpl in *.
    repeat split; [exact E1|exact E2|lia].
  - exact H4.
Qed.

(** ** Section hierarchy *)

Lemma walkUp_acc fuel sectionMap current path :
  walkUp fuel sectionMap current path
  = option_map (fun names => names ++ path) (walkUp fuel sectionMap current []).
Proof.
  revert current path. induction fuel as [|fuel IH]; intros [section|] path; simpl;
    try reflexivity.
  rewrite (IH _ (s_name section :: path)), (IH _ [s_name section]).
  destruct (walkUp fuel sectionMap _ []); simpl; [|reflexivity].
  now rewrite <- app_assoc.
Qed.

Lemma walkUp_step fuel sectionMap section :
  walkUp (S fuel) sectionMap (Some section) []
  = option_map (fun names => names ++ [s_name section])
               (walkUp fuel sectionMap (parentOf sectionMap section) []).
Proof. simpl. apply walkUp_acc. Qed.

Lemma walkUp_more fuel sectionMap current path result :
  walkUp fuel sectionMap current path = Some result ->
  walkUp (S fuel) sectionMap current path = Some result.
Proof.
  revert current path. induction fuel as [|fuel IH]; intros [section|] path; simpl;
    try discriminate; try tauto.
  intros H. apply IH in H. exact H.
Qed.

Lemma walkUp_cycle sectionMap (inCycle : TrSection -> Prop) :
  (forall x, inCycle x -> exists y, parentOf sectionMap x = Some y /\ inCycle y) ->
  forall fuel section path,
    inCycle section -> walkUp fuel sectionMap (Some section) path = None.
Proof.
  intros Hcycle. induction fuel as [|fuel IH]; intros section path Hin; [reflexivity|].
  simpl. destruct (Hcycle section Hin) as (parent & -> & Hparent). now apply IH.
Qed.

Lemma walkUp_ends sectionMap (rank : TrSection -> nat) (reachable : TrSection -> Prop) :
  (forall child parent,
      reachable child -> parentOf sectionMap child = Some parent ->
      reachable parent /\ (rank parent < rank child)%nat) ->
  forall fuel section path,
    reachable section -> (rank section < fuel)%nat ->
    walkUp fuel sectionMap (Some section) path <> None.
Proof.
  intros Hrank. induction fuel as [|fuel IH]; intros section path Hin Hlt; [lia|].
  simpl. destruct (parentOf sectionMap section) as [parent|] eqn:E.
  - destruct (Hrank section parent Hin E) as [Hp Hr]. apply IH; [exact Hp|lia].
  - destruct fuel; discriminate.
Qed.

Lemma join_snoc sep names name :
  names <> [] -> join sep (names ++ [name]) = join sep names ++ sep ++ name.
Proof.
  induction names as [|x names IH]; [congruence|]. intros _.
  destruct names as [|y names]; [reflexivity|].
  change (join sep ((x :: y :: names) ++ [name]))
    with (x ++ sep ++ join sep ((y :: names) ++ [name])).
  rewrite IH by discriminate.
  change (join sep (x :: y :: names)) with (x ++ sep ++ join sep (y :: names)).
  now rewrite <- !app_assoc.
Qed.

(** The path of a section from the path of its parent. *)
Lemma sectionPath_parent fuel sectionMap section path :
  sectionPath fuel sectionMap section = Some path ->
  match parentOf sectionMap section with
  | None => path = s_name section
  | Some parent =>
      exists parentPath,
        sectionPath fuel sectionMap parent = Some parentPath
        /\ path = parentPath ++ lit " > " ++ s_name section
  end.
Proof.
  unfold sectionPath. destruct fuel as [|fuel]; [discriminate|].
  rewrite walkUp_step.
  destruct (parentOf sectionMap section) as [parent|].
  - destruct (walkUp fuel sectionMap (Some parent) []) as [names|] eqn:E; [|discriminate].
    cbn [option_map]. intros [= <-]. exists (join (lit " > ") names).
    rewrite (walkUp_more _ _ _ _ _ E). split; [reflexivity|].
    apply join_snoc. destruct fuel as [|fuel']; [discriminate|].
    rewrite walkUp_step in E. destruct (walkUp fuel' _ _ []); [|discriminate].
    injection E as <-. now destruct l.
  - destruct fuel; simpl; intros [= <-]; reflexivity.
Qed.

Lemma sectionMapOf_lookup sections k section :
  sectionMapOf sections !! k = Some section -> In section sections /\ s_id section = k.
Proof.
  unfold sectionMapOf.
  assert (G : forall l (m : gmap Z TrSection),
             (forall k s, m !! k = Some s -> In s sections /\ s_id s = k) ->
             (forall s, In s l -> In s sections) ->
             forall k s,
               List.fold_left (fun m s => <[ s_id s := s ]> m) l m !! k = Some s ->
               In s sections /\ s_id s = k).
  { induction l as [|x l IH]; intros m Hm Hl k' s; simpl; [apply Hm|].
    apply IH; [|intros y Hy; apply Hl; now right].
    intros k0 s0. destruct (decide (s_id x = k0)) as [<-|Hne].
    - rewrite lookup_insert_eq. intros [= <-]. split; [apply Hl; now left|reflexivity].
    - rewrite lookup_insert_ne by exact Hne. apply Hm. }
  apply (G sections ∅); [intros k0 s0 H; now rewrite lookup_empty in H|auto].
Qed.

Lemma parentOf_In sections child parent :
  parentOf (sectionMapOf sections) child = Some parent -> In parent sections.
Proof.
  unfold parentOf. destruct (truthyNum _); [|discriminate].
  intros H. now apply sectionMapOf_lookup in H.
Qed.

Lemma withPaths_None fuel sectionMap sections section :
  In section sections -> sectionPath fuel sectionMap section = None ->
  withPaths fuel sectionMap sections = None.
Proof.
  induction sections as [|x sections IH]; [intros []|].
  intros [->|Hin] Hnone; simpl.
  - now rewrite Hnone.
  - destruct (sectionPath fuel sectionMap x); [|reflexivity].
    now rewrite (IH Hin Hnone).
Qed.

Lemma withPaths_Some fuel sectionMap sections :
  (forall section, In section sections -> sectionPath fuel sectionMap section <> None) ->
  exists result,
    withPaths fuel sectionMap sections = Some result
    /\ List.map fst result = sections
    /\ forall section path,
         In (section, path) result -> sectionPath fuel sectionMap section = Some path.
Proof.
  induction sections as [|x sections IH]; intros H.
  - exists []. repeat split. intros s p [].
  - destruct IH as (result & E & Hfst & Hpaths); [intros s Hs; apply H; now right|].
    simpl. destruct (sectionPath fuel sectionMap x) as [path|] eqn:Ex.
    + exists ((x, path) :: result). rewrite E. simpl. rewrite Hfst.
      repeat split. intros s p [[= <- <-]|Hin]; [exact Ex|now apply Hpaths].
    + exfalso. apply (H x); [now left|exact Ex].
Qed.

(** X21. [getSectionsWithHierarchy] does not return when the parent links
    of a section never leave the suite (a section that is its own parent, or
    two sections that are each other's parent): the walk to the root has not
    ended after any number of rounds. *)
Theorem cyclic_parents_never_end :
  forall (sections : list TrSection) (inCycle : TrSection -> Prop) (section : TrSection),
    (forall x, inCycle x ->
       exists y, parentOf (sectionMapOf sections) x = Some y /\ inCycle y) ->
    In section sections -> inCycle section ->
    forall fuel, getSectionsWithHierarchy fuel sections = None.
Proof.
  intros sections inCycle section Hcycle Hin Hsec fuel.
  apply (withPaths_None _ _ _ section Hin). unfold sectionPath.
  now rewrite (walkUp_cycle _ inCycle Hcycle).
Qed.

Lemma cyclic_parents_never_end_witness :
  getSectionsWithHierarchy 1000 [Fixture.regression; Fixture.loop] = None.
Proof.
  apply (cyclic_parents_never_end [Fixture.regression; Fixture.loop]
           (fun section => section = Fixture.loop) Fixture.loop).
  - intros x ->. exists Fixture.loop. split; [vm_compute|]; reflexivity.
  - simpl. tauto.
  - reflexivity.
Defined.

(** X22. When the parent links go down along some rank (for instance, every
    parent has a smaller id than its children), [getSectionsWithHierarchy]
    returns, within as many rounds as the highest rank, every section with
    its path: the name of the section for a section without a known parent,
    and otherwise the path of the parent, [' > '] and the name. *)
Theorem acyclic_sections_get_their_paths :
  forall (sections : list TrSection) (rank : TrSection -> nat) (fuel : nat),
    (forall child parent,
        In child sections -> parentOf (sectionMapOf sections) child = Some parent ->
        (rank parent < rank child)%nat) ->
    (forall section, In section sections -> (rank section < fuel)%nat) ->
    exists result,
      getSectionsWithHierarchy fuel sections = Some result
      /\ List.map fst result = sections
      /\ forall section path,
           In (section, path) result ->
           match parentOf (sectionMapOf sections) section with
           | None => path = s_name section
           | Some parent =>
               exists parentPath,
                 sectionPath fuel (sectionMapOf sections) parent = Some parentPath
                 /\ path = parentPath ++ lit " > " ++ s_name section
           end.
Proof.
  intros sections rank fuel Hrank Hfuel. unfold getSectionsWithHierarchy.
  destruct (withPaths_Some fuel (sectionMapOf sections) sections)
    as (result & E & Hfst & Hpaths).
  - intros section Hin. unfold sectionPath.
    pose proof (walkUp_ends (sectionMapOf sections) rank (fun s => In s sections)) as H.
    destruct (walkUp fuel _ (Some section) []) eqn:Ew; [discriminate|].
    exfalso. revert Ew. apply H; [|exact Hin|now apply Hfuel].
    intros child parent Hc Hp. split; [now apply parentOf_In in Hp|now apply Hrank].
  - exists result. repeat split; [exact E|exact Hfst|].
    intros section path Hin. now apply sectionPath_parent, Hpaths.
Qed.

Lemma acyclic_sections_get_their_paths_witness :
  exists result,
    getSectionsWithHierarchy 3 [Fixture.regression; Fixture.login] = Some result
    /\ List.map fst result = [Fixture.regression; Fixture.login]
    /\ forall section path,
         In (section, path) result ->
         match parentOf (sectionMapOf [Fixture.regression; Fixture.login]) section with
         | None => path = s_name section
         | Some parent =>
             exists parentPath,
               sectionPath 3 (sectionMapOf [Fixture.regression; Fixture.login]) parent
               = Some parentPath
               /\ path = parentPath ++ lit " > " ++ s_name section
         end.
Proof.
  apply (acyclic_sections_get_their_paths [Fixture.regression; Fixture.login]
           Fixture.byId 3).
  - intros child parent [<-|[<-|[]]] H; vm_compute in H; [discriminate|].
    injection H as <-. vm_compute. lia.
  - intros section [<-|[<-|[]]]; vm_compute; lia.
Defined.

(** ** Regression cases *)

Lemma startsWith_app x a b : startsWith x a = true -> startsWith x (a ++ b) = true.
Proof.
  revert a. induction x as [|c x IH]; intros [|d a]; simpl; try reflexivity; try discriminate.
  rewrite !andb_true_iff. intros [H1 H2]. split; [exact H1|now apply IH].
Qed.

Lemma includes_app_l a b x : includes a x = true -> includes (a ++ b) x = true.
Proof.
  induction a as [|c a IH]; simpl.
  - rewrite orb_false_r. intros H. destruct x; [|discriminate].
    now destruct b.
  - rewrite !orb_true_iff. intros [H|H].
    + left. now apply (startsWith_app x (c :: a) b).
    + right. now apply IH.
Qed.

Lemma includes_app_r a b x : includes b x = true -> includes (a ++ b) x = true.
Proof.
  intros H. induction a as [|c a IH]; [exact H|].
  simpl. rewrite IH. apply orb_true_r.
Qed.

Lemma toLowerCase_app a b : toLowerCase (a ++ b) = toLowerCase a ++ toLowerCase b.
Proof. apply List.map_app. Qed.

Lemma sectionPath_ends_with_name fuel sectionMap section path :
  sectionPath fuel sectionMap section = Some path ->
  exists before, path = before ++ s_name section.
Proof.
  intros H. apply sectionPath_parent in H.
  destruct (parentOf sectionMap section) as [parent|].
  - destruct H as (parentPath & _ & ->). exists (parentPath ++ lit " > ").
    now rewrite <- app_assoc.
  - exists []. exact H.
Qed.

Lemma getSectionsWithHierarchy_Some fuel sections result :
  getSectionsWithHierarchy fuel sections = Some result ->
  List.map fst result = sections
  /\ forall section path,
       In (section, path) result ->
       sectionPath fuel (sectionMapOf sections) section = Some path.
Proof.
  unfold getSectionsWithHierarchy. generalize (sectionMapOf sections). intros sectionMap.
  revert result. induction sections as [|x sections IH]; intros result; simpl.
  - intros [= <-]. split; [reflexivity|intros s p []].
  - destruct (sectionPath fuel sectionMap x) as [path|] eqn:Ex; [|discriminate].
    destruct (withPaths fuel sectionMap sections) as [rest|]; [|discriminate].
    intros [= <-]. destruct (IH rest eq_refl) as [H1 H2]. simpl. rewrite H1.
    split; [reflexivity|]. intros s p [[= <- <-]|Hin]; [exact Ex|now apply H2].
Qed.

(** A regression section has the keyword in what its cases are given as
    section path. *)
Lemma regression_section_path fuel sections result keyword s :
  getSectionsWithHierarchy fuel sections = Some result ->
  In s result -> isRegressionSection keyword s = true ->
  includes (toLowerCase (pathOrName s)) (toLowerCase keyword) = true.
Proof.
  intros Hres Hin Hreg. destruct s as [section path].
  apply getSectionsWithHierarchy_Some in Hres as [_ Hpaths].
  apply Hpaths, sectionPath_ends_with_name in Hin as (before & ->).
  unfold isRegressionSection, pathOrName in *. cbn [fst snd] in *.
  destruct (truthy (before ++ s_name section)) eqn:Et.
  - apply orb_true_iff in Hreg as [H|H]; [|exact H].
    rewrite toLowerCase_app. now apply includes_app_r.
  - now rewrite orb_false_r in Hreg.
Qed.

(** X23. In the folder method, when a section of the suite has the keyword
    in its name, every case [getRegressionTestCases] returns carries a
    section path that contains the keyword, compared in lower case. *)
Theorem regression_cases_carry_the_keyword :
  forall (fuel : nat) (sections : list TrSection) (suiteCases : list RegressionTest)
         (sectionCases : Z -> list RegressionTest) (keyword : jsstring)
         (result : list RegressionTest) (named : TrSection) (tc : RegressionTest),
    getRegressionTestCases fuel sections suiteCases sectionCases (lit "folder") keyword
    = Some result ->
    In named sections ->
    includes (toLowerCase (s_name named)) (toLowerCase keyword) = true ->
    In tc result ->
    exists path,
      rt_sectionPath tc = Some path
      /\ includes (toLowerCase path) (toLowerCase keyword) = true.
Proof.
  intros fuel sections suiteCases sectionCases keyword result named tc Hres Hnamed Hname Htc.
  unfold getRegressionTestCases in Hres.
  destruct (getSectionsWithHierarchy fuel sections) as [sectionsWithPaths|] eqn:E;
    [|discriminate].
  cbv zeta in Hres. change (str_eqb (lit "folder") (lit "folder")) with true in Hres.
  cbv iota in Hres.
  destruct (List.filter (isRegressionSection keyword) sectionsWithPaths)
    as [|first others] eqn:Ef.
  - exfalso. destruct (getSectionsWithHierarchy_Some _ _ _ E) as [Hfst _].
    rewrite <- Hfst in Hnamed. apply List.in_map_iff in Hnamed as ([s p] & Es & Hs).
    simpl in Es. subst s.
    assert (Hin : In (named, p) (List.filter (isRegressionSection keyword) sectionsWithPaths)).
    { apply List.filter_In. split; [exact Hs|]. unfold isRegressionSection. simpl.
      now rewrite Hname. }
    rewrite Ef in Hin. destruct Hin.
  - assert (Hall : forall s, In s (first :: others) ->
                        In s sectionsWithPaths /\ isRegressionSection keyword s = true).
    { intros s Hs. rewrite <- Ef in Hs. now apply List.filter_In in Hs. }
    injection Hres as <-.
    assert (Hs : exists s, In s (first :: others)
                           /\ In tc (List.map (withSectionPath (pathOrName s))
                                              (sectionCases (s_id (fst s))))).
    { apply in_app_iff in Htc as [Htc|Htc].
      - exists first. split; [now left|exact Htc].
      - apply in_flat_map in Htc as (s & Hs & Htc). exists s. split; [now right|exact Htc]. }
    destruct Hs as (s & Hs & Hin). apply Hall in Hs as [Hs Hreg].
    apply List.in_map_iff in Hin as (tc0 & <- & _).
    exists (pathOrName s). split; [reflexivity|].
    now apply (regression_section_path fuel sections sectionsWithPaths).
Qed.

Lemma regression_cases_carry_the_keyword_witness :
  exists path,
    rt_sectionPath (withSectionPath (lit "Regression > Login") Sample.loginTest) = Some path
    /\ includes (toLowerCase path) (toLowerCase (lit "Regression")) = true.
Proof.
  apply (regression_cases_carry_the_keyword 3 [Fixture.regression; Fixture.login] []
           Fixture.sectionCases (lit "Regression")
           [withSectionPath (lit "Regression > Login") Sample.loginTest]
           Fixture.regression).
  - vm_compute. reflexivity.
  - now left.
  - vm_compute. reflexivity.
  - now left.
Defined.

(** X24. A section whose parent is a regression section is a regression
    section too, since its path starts with the path of the parent: the
    folder method selects the whole tree below a folder that has the keyword
    in its name or path. *)
Theorem sections_below_a_regression_section_are_selected :
  forall (fuel : nat) (sections : list TrSection) (result : list (TrSection * jsstring))
         (keyword : jsstring) (section parent : TrSection) (path parentPath : jsstring),
    getSectionsWithHierarchy fuel sections = Some result ->
    In (section, path) result -> In (parent, parentPath) result ->
    parentOf (sectionMapOf sections) section = Some parent ->
    isRegressionSection keyword (parent, parentPath) = true ->
    isRegressionSection keyword (section, path) = true
    /\ path = parentPath ++ lit " > " ++ s_name section.
Proof.
  intros fuel sections result keyword section parent path parentPath Hres Hs Hp Hparent Hreg.
  pose proof (regression_section_path _ _ _ _ _ Hres Hp Hreg) as Hinc.
  destruct (getSectionsWithHierarchy_Some _ _ _ Hres) as [_ Hpaths].
  pose proof (Hpaths _ _ Hp) as Epp.
  apply Hpaths, sectionPath_parent in Hs. rewrite Hparent in Hs.
  destruct Hs as (parentPath' & E' & ->). rewrite Epp in E'. injection E' as <-.
  split; [|reflexivity].
  assert (Hpp : includes (toLowerCase parentPath) (toLowerCase keyword) = true).
  { unfold pathOrName in Hinc. cbn [fst snd] in Hinc.
    destruct parentPath as [|c parentPath]; [|exact Hinc]. cbn [truthy] in Hinc.
    apply sectionPath_ends_with_name in Epp as (before & Eb).
    symmetry in Eb. apply app_eq_nil in Eb as [_ Eb]. now rewrite Eb in Hinc. }
  unfold isRegressionSection. cbn [fst snd]. apply orb_true_iff. right.
  apply andb_true_iff. split.
  - destruct parentPath; reflexivity.
  - rewrite toLowerCase_app. now apply includes_app_l.
Qed.

Lemma sections_below_a_regression_section_are_selected_witness :
  isRegressionSection (lit "regression") (Fixture.login, lit "Regression > Login") = true
  /\ lit "Regression > Login" = lit "Regression" ++ lit " > " ++ s_name Fixture.login.
Proof.
  apply (sections_below_a_regression_section_are_selected 3
           [Fixture.regression; Fixture.login]
           [(Fixture.regression, lit "Regression"); (Fixture.login, lit "Regression > Login")]
           (lit "regression") Fixture.login Fixture.regression).
  - vm_compute. reflexivity.
  - right. now left.
  - now left.
  - vm_compute. reflexivity.
  - vm_compute. reflexivity.
Defined.

(** ** Keywords of changed paths *)

Lemma strip_extension_id s :
  Forall (fun c => N.eqb c 46 = false) s -> strip_extension s = s.
Proof.
  induction 1 as [|c s Hc _ IH]; [reflexivity|]. simpl. now rewrite Hc, IH.
Qed.

Lemma spaceBeforeCapitals_id s :
  Forall (fun c => is_upper c = false) s -> spaceBeforeCapitals s = s.
Proof.
  induction 1 as [|c s Hc _ IH]; [reflexivity|].
  unfold spaceBeforeCapitals in *. simpl. now rewrite Hc, IH.
Qed.

Lemma punctuationToSpace_id s :
  Forall (fun c => is_punctuation c = false) s -> punctuationToSpace s = s.
Proof.
  induction 1 as [|c s Hc _ IH]; [reflexivity|].
  unfold punctuationToSpace in *. simpl. now rewrite Hc, IH.
Qed.

Lemma trimStart_id s :
  match s with c :: _ => is_space c = false | [] => True end -> trimStart s = s.
Proof. destruct s as [|c s]; [reflexivity|]. simpl. now intros ->. Qed.

Lemma trim_id s : Forall (fun c => is_space c = false) s -> trim s = s.
Proof.
  intros H. unfold trim. rewrite (trimStart_id s).
  - rewrite trimStart_id; [apply rev_involutive|].
    apply List.Forall_rev in H. now destruct H.
  - now destruct H.
Qed.

Lemma splitWith_plain (m : jsstring -> nat) s :
  (forall c before after, s = before ++ c :: after -> m (c :: after) = O) ->
  forall cur, splitWith m O cur s = [rev cur ++ s].
Proof.
  induction s as [|c s IH]; intros Hm cur; simpl; [now rewrite app_nil_r|].
  rewrite (Hm c [] s eq_refl). rewrite IH.
  - simpl. now rewrite <- app_assoc.
  - intros d before after ->. apply (Hm d (c :: before) after). reflexivity.
Qed.

Lemma split_string_plain (sep : char) s :
  Forall (fun c => N.eqb sep c = false) s -> split_string [sep] s = [s].
Proof.
  intros H. unfold split_string. apply (splitWith_plain _ s).
  intros c before after ->. apply Forall_app in H as [_ H].
  inversion H as [|? ? Hc _]; subst. unfold sep_string. simpl. now rewrite Hc.
Qed.

Lemma split_class_plus_plain (sep : char -> bool) s :
  Forall (fun c => sep c = false) s -> split_class_plus sep s = [s].
Proof.
  intros H. unfold split_class_plus. apply (splitWith_plain _ s).
  intros c before after ->. apply Forall_app in H as [_ H].
  inversion H as [|? ? Hc _]; subst. unfold sep_class_plus. simpl. now rewrite Hc.
Qed.

Lemma fileKeyword_chars word :
  fileKeyword word = true -> Forall (fun c => is_lower c || is_digit c = true) word.
Proof.
  unfold fileKeyword, is_alnum_lower. rewrite !andb_true_iff, forallb_forall.
  intros [_ [_ H]]. now apply List.Forall_forall.
Qed.

Lemma fileKeyword_alone word :
  fileKeyword word = true ->
  List.flat_map (fun part => List.filter fileKeyword (wordsOfPart part))
                (split_string (lit "/") word)
  = [word].
Proof.
  intros Hword. pose proof (fileKeyword_chars word Hword) as Hchars.
  assert (Hall : forall p : char -> bool,
             (forall c, is_lower c || is_digit c = true -> p c = false) ->
             Forall (fun c => p c = false) word).
  { intros p Hp. eapply List.Forall_impl; [|exact Hchars]. exact Hp. }
  change (lit "/") with [47%N]. rewrite split_string_plain.
  2:{ apply (Hall (N.eqb 47)). intros c Hc. char_arith. }
  simpl. rewrite app_nil_r. unfold wordsOfPart. cbv zeta.
  rewrite strip_extension_id.
  2:{ apply (Hall (fun c => N.eqb c 46)). intros c Hc. char_arith. }
  rewrite spaceBeforeCapitals_id by (apply Hall; intros c Hc; char_arith).
  rewrite punctuationToSpace_id
    by (apply Hall; intros c Hc; unfold is_punctuation; char_arith).
  rewrite trim_id by (apply Hall; intros c Hc; char_arith).
  rewrite toLowerCase_id by (apply Hall; intros c Hc; char_arith).
  rewrite split_class_plus_plain by (apply Hall; intros c Hc; char_arith).
  simpl. now rewrite Hword.
Qed.

Lemma extractFileKeywords_Forall files :
  Forall (fun word => fileKeyword word = true) (extractFileKeywords files).
Proof.
  unfold extractFileKeywords. apply uniq_from_Forall.
  apply List.Forall_forall. intros word H.
  apply in_flat_map in H as (file & _ & H). apply in_flat_map in H as (part & _ & H).
  now apply List.filter_In in H.
Qed.

(** X25. The keywords [extractFileKeywords] returns are a fixed point of
    it: given as paths, they are returned unchanged, in the same order. *)
Theorem file_keywords_are_a_fixed_point :
  forall files : list (option jsstring),
    extractFileKeywords (List.map Some (extractFileKeywords files))
    = extractFileKeywords files.
Proof.
  intros files. pose proof (extractFileKeywords_Forall files) as Hall.
  assert (Huniq : uniq (extractFileKeywords files) = extractFileKeywords files)
    by apply uniq_idempotent.
  rewrite <- Huniq at 2. unfold extractFileKeywords at 1. f_equal.
  clear Huniq. revert Hall. generalize (extractFileKeywords files). intros keywords Hall.
  induction Hall as [|word words Hword _ IH]; [reflexivity|].
  simpl. rewrite IH. unfold orEmpty. simpl. now rewrite fileKeyword_alone.
Qed.

(** ** Components of a change set *)

Lemma setAdd_In x l y : In y (setAdd x l) <-> In y l \/ y = x.
Proof.
  unfold setAdd. destruct (mem x l) eqn:E.
  - apply mem_In in E. split; [auto|]. intros [H| ->]; auto.
  - rewrite in_app_iff. simpl. intuition congruence.
Qed.

Lemma setAdd_not_nil x l : setAdd x l <> [].
Proof.
  unfold setAdd. destruct (mem x l) eqn:E.
  - destruct l; [discriminate|congruence].
  - destruct l; discriminate.
Qed.

Lemma setAdd_grows x l : isEmpty l = false -> isEmpty (setAdd x l) = false.
Proof. intros H. pose proof (setAdd_not_nil x l). now destruct (setAdd x l). Qed.

(** The components that the patterns of the mapping add for one path. *)
Lemma mapping_round (componentMapping : list (jsstring * jsstring)) path
    (P : jsstring -> Prop) :
  forall entries components,
    (forall entry, In entry entries -> P (snd entry)) ->
    (forall c, In c components -> P c) ->
    let components' :=
      List.fold_left
        (fun components entry =>
           if includes (toLowerCase path) (toLowerCase (fst entry))
           then setAdd (snd entry) components else components)
        entries components in
    (forall c, In c components' -> P c)
    /\ (isEmpty components = false -> isEmpty components' = false)
    /\ (List.existsb (fun entry => includes (toLowerCase path) (toLowerCase (fst entry)))
                     entries = true ->
        isEmpty components' = false).
Proof.
  clear componentMapping.
  induction entries as [|entry entries IH]; intros components Hentries Hcomponents; simpl.
  - repeat split; auto. discriminate.
  - destruct (includes (toLowerCase path) (toLowerCase (fst entry))) eqn:E; simpl.
    + destruct (IH (setAdd (snd entry) components)) as (H1 & H2 & H3).
      * intros e He. apply Hentries. now right.
      * intros c Hc. apply setAdd_In in Hc as [Hc| ->]; [now apply Hcomponents|].
        apply Hentries. now left.
      * repeat split; [exact H1| |].
        -- intros Hne. apply H2. now apply setAdd_grows.
        -- intros _. apply H2. pose proof (setAdd_not_nil (snd entry) components).
           now destruct (setAdd (snd entry) components).
    + apply IH; [|exact Hcomponents]. intros e He. apply Hentries. now right.
Qed.

Lemma extractFrom_mapped componentMapping sets file :
  let P := fun c => exists pattern, In (pattern, c) componentMapping in
  (forall c, In c (ex_components sets) -> P c) ->
  isEmpty (ex_components sets) = false \/ mapped componentMapping file = true ->
  (forall c, In c (ex_components (extractFrom componentMapping sets file)) -> P c)
  /\ isEmpty (ex_components (extractFrom componentMapping sets file)) = false.
Proof.
  intros P Hsets Hstart. unfold extractFrom. cbv zeta. cbn [ex_components].
  destruct (mapping_round componentMapping (orEmpty file) P componentMapping
              (ex_components sets)) as (H1 & H2 & H3).
  - intros [pattern c] Hin. now exists pattern.
  - exact Hsets.
  - cbv zeta in *.
    assert (Hne : isEmpty
                    (List.fold_left
                       (fun components entry =>
                          if includes (toLowerCase (orEmpty file)) (toLowerCase (fst entry))
                          then setAdd (snd entry) components else components)
                       componentMapping (ex_components sets)) = false).
    { destruct Hstart as [H|H]; [now apply H2|now apply H3]. }
    rewrite Hne. simpl. split; [exact H1|exact Hne].
Qed.

Lemma mapped_first_file :
  forall (componentMapping : list (jsstring * jsstring)) (file : option jsstring)
         (files : list (option jsstring)) (component : jsstring),
    mapped componentMapping file = true ->
    In component (ex_components (extractComponents (file :: files) componentMapping)) ->
    exists pattern, In (pattern, component) componentMapping.
Proof.
  intros componentMapping file files component Hmapped.
  unfold extractComponents. simpl.
  destruct (extractFrom_mapped componentMapping
              {| ex_components := []; ex_keywords := [] |} file) as [H1 H2];
    [intros c []|now right|].
  revert H1 H2. generalize (extractFrom componentMapping
                              {| ex_components := []; ex_keywords := [] |} file).
  induction files as [|next files IH]; intros sets H1 H2; simpl; [apply H1|].
  destruct (extractFrom_mapped componentMapping sets next H1 (or_introl H2)) as [H1' H2'].
  now apply IH.
Qed.

Lemma fold_setAdd_In {A} (f : A -> jsstring) l acc y :
  In y (List.fold_left (fun acc x => setAdd (f x) acc) l acc)
  <-> In y acc \/ exists x, In x l /\ y = f x.
Proof.
  revert acc. induction l as [|x l IH]; intros acc; simpl.
  - split; [auto|]. intros [H|(x & [] & _)]; exact H.
  - rewrite IH, setAdd_In. split.
    + intros [[H|H]|(z & Hz & E)]; eauto.
    + intros [H|(z & [<-|Hz] & E)]; eauto.
Qed.

Lemma unmapped_round path entries components :
  List.existsb (fun entry : jsstring * jsstring =>
                  includes (toLowerCase path) (toLowerCase (fst entry))) entries = false ->
  List.fold_left
    (fun components entry =>
       if includes (toLowerCase path) (toLowerCase (fst entry))
       then setAdd (snd entry) components else components)
    entries components
  = components.
Proof.
  induction entries as [|entry entries IH]; simpl; [reflexivity|].
  rewrite orb_false_iff. intros [-> H]. now apply IH.
Qed.

Lemma unmapped_files :
  forall (componentMapping : list (jsstring * jsstring)) (files : list (option jsstring))
         (component : jsstring),
    List.forallb (fun file => negb (mapped componentMapping file)) files = true ->
    In component (ex_components (extractComponents files componentMapping)) ->
    exists kw,
      In kw (ex_keywords (extractComponents files componentMapping))
      /\ component = capitalize kw.
Proof.
  intros componentMapping files component. unfold extractComponents.
  assert (G : forall sets,
             (forall c, In c (ex_components sets) ->
                exists kw, In kw (ex_keywords sets) /\ c = capitalize kw) ->
             List.forallb (fun file => negb (mapped componentMapping file)) files = true ->
             forall c,
               In c (ex_components (List.fold_left (extractFrom componentMapping) files sets)) ->
               exists kw,
                 In kw (ex_keywords (List.fold_left (extractFrom componentMapping) files sets))
                 /\ c = capitalize kw).
  { induction files as [|file files IH]; intros sets Hsets Hfiles; simpl; [exact Hsets|].
    simpl in Hfiles. apply andb_true_iff in Hfiles as [Hfile Hfiles].
    apply IH; [|exact Hfiles]. clear IH.
    apply negb_true_iff in Hfile. unfold mapped in Hfile.
    unfold extractFrom. cbv zeta. cbn [ex_components ex_keywords].
    rewrite (unmapped_round _ _ _ Hfile).
    intros c Hc.
    assert (Hold : In c (ex_components sets) ->
                   exists kw,
                     In kw (List.fold_left (fun keywords kw => setAdd kw keywords)
                                           (pathKeywords (orEmpty file)) (ex_keywords sets))
                     /\ c = capitalize kw).
    { intros H. destruct (Hsets c H) as (kw & Hkw & E). exists kw. split; [|exact E].
      apply (fold_setAdd_In (fun kw => kw)). now left. }
    destruct (isEmpty (ex_components sets) && _); [|now apply Hold].
    apply fold_setAdd_In in Hc as [Hc|(kw & Hkw & E)]; [now apply Hold|].
    now exists kw. }
  intros Hfiles. apply G; [intros c []|exact Hfiles].
Qed.

Lemma fold_setAdd_id_In l acc y :
  In y (List.fold_left (fun keywords kw => setAdd kw keywords) l acc)
  <-> In y acc \/ In y l.
Proof.
  rewrite (fold_setAdd_In (fun kw => kw)). split.
  - intros [H|(x & Hx & ->)]; auto.
  - intros [H|H]; [now left|right; now exists y].
Qed.

(** Where a component of the result comes from. *)
Lemma extractFrom_sources componentMapping sets file :
  let fromMapping := fun c => exists pattern, In (pattern, c) componentMapping in
  let fromKeywords :=
    fun (sets : Extracted) c => exists kw, In kw (ex_keywords sets) /\ c = capitalize kw in
  (forall c, In c (ex_components sets) -> fromMapping c \/ fromKeywords sets c) ->
  forall c,
    In c (ex_components (extractFrom componentMapping sets file)) ->
    fromMapping c \/ fromKeywords (extractFrom componentMapping sets file) c.
Proof.
  intros fromMapping fromKeywords Hsets c. unfold extractFrom. cbv zeta.
  cbn [ex_components ex_keywords].
  destruct (mapping_round componentMapping (orEmpty file)
              (fun c => fromMapping c
                        \/ fromKeywords
                             {| ex_components := [];
                                ex_keywords :=
                                  List.fold_left (fun keywords kw => setAdd kw keywords)
                                                 (pathKeywords (orEmpty file))
                                                 (ex_keywords sets) |} c)
              componentMapping (ex_components sets)) as (H1 & _).
  - intros [pattern c'] Hin. left. now exists pattern.
  - intros c' Hc'. destruct (Hsets c' Hc') as [H|(kw & Hkw & E)]; [now left|right].
    exists kw. split; [|exact E]. cbn [ex_keywords]. apply fold_setAdd_id_In. now left.
  - cbv zeta in H1. unfold fromKeywords in *. cbn [ex_keywords] in *.
    destruct (isEmpty _ && _); [|apply H1].
    intros Hc. apply fold_setAdd_In in Hc as [Hc|(kw & Hkw & E)]; [now apply H1|].
    right. now exists kw.
Qed.

(** X26. Every component [extractComponents] returns is a component of the
    mapping or one of the returned keywords with its first letter in upper
    case; it is a component of the mapping when a pattern matches the first
    file (the keywords are turned into components only while no component
    has been found), and a keyword when no pattern matches any file. *)
Theorem components_come_from_the_mapping_or_the_keywords :
  forall (componentMapping : list (jsstring * jsstring)) (files : list (option jsstring))
         (component : jsstring),
    let extracted := extractComponents files componentMapping in
    let fromMapping := exists pattern, In (pattern, component) componentMapping in
    let fromKeywords :=
      exists kw, In kw (ex_keywords extracted) /\ component = capitalize kw in
    In component (ex_components extracted) ->
    (fromMapping \/ fromKeywords)
    /\ (match files with
        | first :: _ => mapped componentMapping first = true
        | [] => False
        end -> fromMapping)
    /\ (List.forallb (fun file => negb (mapped componentMapping file)) files = true ->
        fromKeywords).
Proof.
  intros componentMapping files component. cbv zeta. intros Hin. split; [|split].
  - revert Hin. unfold extractComponents.
    assert (G : forall sets,
               (forall c, In c (ex_components sets) ->
                  (exists pattern, In (pattern, c) componentMapping)
                  \/ exists kw, In kw (ex_keywords sets) /\ c = capitalize kw) ->
               forall c,
                 In c (ex_components
                         (List.fold_left (extractFrom componentMapping) files sets)) ->
                 (exists pattern, In (pattern, c) componentMapping)
                 \/ exists kw,
                      In kw (ex_keywords
                               (List.fold_left (extractFrom componentMapping) files sets))
                      /\ c = capitalize kw).
    { induction files as [|file files IH]; intros sets Hsets; simpl; [exact Hsets|].
      apply IH. now apply extractFrom_sources. }
    apply G. intros c [].
  - destruct files as [|first files]; [intros []|]. intros Hfirst.
    now apply (mapped_first_file componentMapping first files).
  - intros Hnone. now apply unmapped_files.
Qed.

Lemma components_come_from_the_mapping_or_the_keywords_witness :
  let files := [Some (lit "src/auth/LoginForm.ts"); Some (lit "lib/dateUtils.js")] in
  let extracted := extractComponents files Fixture.componentMapping in
  let fromMapping := exists pattern, In (pattern, lit "Authentication") Fixture.componentMapping in
  let fromKeywords :=
    exists kw, In kw (ex_keywords extracted) /\ lit "Authentication" = capitalize kw in
  (fromMapping \/ fromKeywords)
  /\ (mapped Fixture.componentMapping (Some (lit "src/auth/LoginForm.ts")) = true ->
      fromMapping)
  /\ (List.forallb (fun file => negb (mapped Fixture.componentMapping file)) files = true ->
      fromKeywords).
Proof.
  apply (components_come_from_the_mapping_or_the_keywords Fixture.componentMapping
           [Some (lit "src/auth/LoginForm.ts"); Some (lit "lib/dateUtils.js")]
           (lit "Authentication")).
  vm_compute. now left.
Defined.

(** ** Duplicates of a ticket *)

Lemma same_letter c d :
  N.eqb (upper_char c) (upper_char d) = N.eqb (lower_char c) (lower_char d).
Proof.
  unfold upper_char, lower_char, is_lower, is_upper.
  destruct (N.leb_spec 97 c), (N.leb_spec c 122), (N.leb_spec 65 c), (N.leb_spec c 90),
           (N.leb_spec 97 d), (N.leb_spec d 122), (N.leb_spec 65 d), (N.leb_spec d 90);
    cbn [andb]; try lia;
    match goal with
    | |- N.eqb ?a ?b = N.eqb ?a' ?b' =>
        destruct (N.eqb_spec a b), (N.eqb_spec a' b'); try reflexivity; exfalso; lia
    end.
Qed.

Lemma startsWith_same_letters x s :
  startsWith (asciiUpperCase x) (asciiUpperCase s)
  = startsWith (toLowerCase x) (toLowerCase s).
Proof.
  revert s. induction x as [|c x IH]; intros [|d s]; simpl; try reflexivity.
  now rewrite same_letter, IH.
Qed.

Lemma includes_same_letters s x :
  includes (asciiUpperCase s) (asciiUpperCase x)
  = includes (toLowerCase s) (toLowerCase x).
Proof.
  induction s as [|d s IH].
  - change (asciiUpperCase []) with (@nil char). change (toLowerCase []) with (@nil char).
    cbn [includes]. rewrite !orb_false_r. exact (startsWith_same_letters x []).
  - change (asciiUpperCase (d :: s)) with (upper_char d :: asciiUpperCase s).
    change (toLowerCase (d :: s)) with (lower_char d :: toLowerCase s).
    cbn [includes].
    change (upper_char d :: asciiUpperCase s) with (asciiUpperCase (d :: s)).
    change (lower_char d :: toLowerCase s) with (toLowerCase (d :: s)).
    now rewrite startsWith_same_letters, IH.
Qed.

Lemma asciiText_computed s : List.forallb (fun c => N.ltb c 128) s = true -> asciiText s.
Proof.
  intros H. apply List.Forall_forall. intros c Hc.
  rewrite List.forallb_forall in H. now apply N.ltb_lt, H.
Qed.

(** X15. On text of the first 128 code points, where
    [String.prototype.toUpperCase] turns the letters from a to z into their
    capitals and nothing else, a case of the section is reported by
    [checkForDuplicates] exactly when its reference field contains one of
    the ticket ids, letter case aside: the duplicates for an id are the
    direct reference matches of [getImpactedTestCases] for that id among the
    same cases. *)
Theorem duplicates_are_the_direct_matches :
  forall (toUpperCase : jsstring -> jsstring) (cases : list TestCase)
         (jiraRefs : list jsstring) (testCase : TestCase),
    (forall s, asciiText s -> toUpperCase s = asciiUpperCase s) ->
    List.Forall asciiText jiraRefs ->
    List.Forall (fun tc => asciiText (orEmpty (tc_refs tc))) cases ->
    In testCase (checkForDuplicates toUpperCase cases jiraRefs)
    <-> exists jiraId, In jiraId jiraRefs /\ In testCase (jiraMatches jiraId cases).
Proof.
  intros toUpperCase cases jiraRefs testCase Hupper Hids Hrefs.
  rewrite List.Forall_forall in Hids, Hrefs.
  unfold checkForDuplicates, jiraMatches.
  rewrite List.filter_In. cbv zeta. rewrite existsb_exists. split.
  - intros (Hin & jiraId & Hid & H). exists jiraId. split; [exact Hid|].
    apply List.filter_In. split; [exact Hin|].
    rewrite (Hupper _ (Hrefs _ Hin)), (Hupper _ (Hids _ Hid)) in H.
    now rewrite <- includes_same_letters.
  - intros (jiraId & Hid & H). apply List.filter_In in H as [Hin H].
    split; [exact Hin|]. exists jiraId. split; [exact Hid|].
    rewrite (Hupper _ (Hrefs _ Hin)), (Hupper _ (Hids _ Hid)).
    now rewrite includes_same_letters.
Qed.

Lemma duplicates_are_the_direct_matches_witness :
  In Sample.case3 (jiraMatches (lit "proj-12") Sample.inventory)
  /\ In Sample.case3 (checkForDuplicates asciiUpperCase Sample.inventory [lit "proj-12"]).
Proof.
  assert (H : In Sample.case3 (jiraMatches (lit "proj-12") Sample.inventory)).
  { vm_compute. right. left. reflexivity. }
  split; [exact H|].
  apply (duplicates_are_the_direct_matches asciiUpperCase Sample.inventory
           [lit "proj-12"] Sample.case3).
  - reflexivity.
  - constructor; [|constructor]. apply asciiText_computed. vm_compute. reflexivity.
  - apply List.Forall_forall. intros tc Htc. apply asciiText_computed.
    revert tc Htc. apply List.forallb_forall. vm_compute. reflexivity.
  - exists (lit "proj-12"). split; [left; reflexivity|exact H].
Defined.

(** ** Pull-request URLs *)

Lemma startsWith_prefix literal s :
  startsWith literal s = true -> s = literal ++ List.skipn (length literal) s.
Proof.
  revert s. induction literal as [|c literal IH]; intros [|d s]; simpl;
    try reflexivity; try discriminate.
  rewrite andb_true_iff, N.eqb_eq. intros [-> H]. f_equal. now apply IH.
Qed.

Lemma startsWith_refl_app literal s : startsWith literal (literal ++ s) = true.
Proof. induction literal as [|c literal IH]; simpl; [reflexivity|]. now rewrite N.eqb_refl. Qed.

Lemma afterLiteral_Some literal s rest :
  afterLiteral literal s = Some rest -> s = literal ++ rest.
Proof.
  unfold afterLiteral. destruct (startsWith literal s) eqn:E; [|discriminate].
  intros [= <-]. now apply startsWith_prefix.
Qed.

Lemma afterLiteral_app literal rest : afterLiteral literal (literal ++ rest) = Some rest.
Proof.
  unfold afterLiteral. rewrite startsWith_refl_app. f_equal.
  induction literal; simpl; auto.
Qed.

Lemma span_spec (class : char -> bool) s :
  Forall (fun c => class c = true) (List.firstn (span class s) s)
  /\ match List.skipn (span class s) s with
     | c :: _ => class c = false
     | [] => True
     end.
Proof.
  induction s as [|c s IH]; simpl; [split; [constructor|exact I]|].
  destruct (class c) eqn:E; simpl.
  - destruct IH as [H1 H2]. split; [now constructor|exact H2].
  - split; [constructor|exact E].
Qed.

Lemma span_run (class : char -> bool) run rest :
  Forall (fun c => class c = true) run ->
  match rest with c :: _ => class c = false | [] => True end ->
  span class (run ++ rest) = length run.
Proof.
  intros Hrun Hrest. induction Hrun as [|c run Hc _ IH]; simpl.
  - destruct rest as [|c rest]; [reflexivity|]. simpl. now rewrite Hrest.
  - now rewrite Hc, IH.
Qed.

Lemma group_Some class s run rest :
  group class s = Some (run, rest) ->
  s = run ++ rest /\ run <> [] /\ Forall (fun c => class c = true) run.
Proof.
  unfold group. destruct (span class s) as [|n] eqn:E; [discriminate|].
  intros [= <- <-]. rewrite <- E. split; [now rewrite List.firstn_skipn|].
  split; [|apply span_spec].
  rewrite E. destruct s; [discriminate|discriminate].
Qed.

Lemma group_run class run rest :
  run <> [] -> Forall (fun c => class c = true) run ->
  match rest with c :: _ => class c = false | [] => True end ->
  group class (run ++ rest) = Some (run, rest).
Proof.
  intros Hne Hrun Hrest. unfold group. rewrite (span_run class run rest Hrun Hrest).
  destruct run as [|c run]; [congruence|]. cbn [length].
  change (S (length run)) with (length (c :: run)).
  rewrite List.firstn_app, List.skipn_app, Nat.sub_diag, List.firstn_all, List.skipn_all.
  simpl. now rewrite app_nil_r.
Qed.

Lemma matchHere_Some prefix between s first second digits :
  matchHere prefix between s = Some (first, second, digits) ->
  (exists rest,
      s = prefix ++ first ++ between ++ second ++ lit "/pull-requests/" ++ digits ++ rest)
  /\ (first <> [] /\ Forall (fun c => not_slash c = true) first)
  /\ (second <> [] /\ Forall (fun c => not_slash c = true) second)
  /\ (digits <> [] /\ Forall (fun c => is_digit c = true) digits).
Proof.
  unfold matchHere.
  destruct (afterLiteral prefix s) as [s1|] eqn:E1; [|discriminate].
  destruct (group not_slash s1) as [[a s2]|] eqn:E2; [|discriminate].
  destruct (afterLiteral between s2) as [s3|] eqn:E3; [|discriminate].
  destruct (group not_slash s3) as [[b s4]|] eqn:E4; [|discriminate].
  destruct (afterLiteral (lit "/pull-requests/") s4) as [s5|] eqn:E5; [|discriminate].
  destruct (group is_digit s5) as [[d s6]|] eqn:E6; [|discriminate].
  intros [= <- <- <-].
  apply afterLiteral_Some in E1, E3, E5.
  apply group_Some in E2 as (E2 & Ha), E4 as (E4 & Hb), E6 as (E6 & Hd).
  repeat split; try tauto.
  exists s6. now rewrite E1, E2, E3, E4, E5, E6.
Qed.

Lemma firstMatch_Some prefix between s found :
  firstMatch prefix between s = Some found ->
  exists before here, s = before ++ here /\ matchHere prefix between here = Some found.
Proof.
  induction s as [|c s IH]; simpl.
  - destruct (matchHere prefix between []) eqn:E; [|discriminate].
    intros [= <-]. now exists [], [].
  - destruct (matchHere prefix between (c :: s)) eqn:E.
    + intros [= <-]. now exists [], (c :: s).
    + intros H. destruct (IH H) as (before & here & -> & E').
      now exists (c :: before), here.
Qed.

Lemma includes_refl_app x rest : includes (x ++ rest) x = true.
Proof.
  destruct x as [|c x]; [destruct rest; reflexivity|].
  change ((c :: x) ++ rest) with (c :: (x ++ rest)). cbn [includes].
  change (c :: (x ++ rest)) with ((c :: x) ++ rest).
  now rewrite startsWith_refl_app.
Qed.

Lemma includes_middle before x rest : includes (before ++ x ++ rest) x = true.
Proof.
  induction before as [|c before IH]; [exact (includes_refl_app x rest)|].
  simpl. rewrite IH. apply orb_true_r.
Qed.

Lemma not_slash_chars l :
  Forall (fun c => not_slash c = true) l -> Forall (fun c => c <> 47%N) l.
Proof.
  apply List.Forall_impl. intros c. unfold not_slash.
  rewrite negb_true_iff, N.eqb_neq. auto.
Qed.

(** What a match of the pattern says of the text and of the three groups. *)
Lemma firstMatch_sound prefix between s first second digits :
  firstMatch prefix between s = Some (first, second, digits) ->
  includes s (prefix ++ first ++ between ++ second ++ lit "/pull-requests/" ++ digits)
  = true
  /\ (first <> [] /\ Forall (fun c => not_slash c = true) first)
  /\ (second <> [] /\ Forall (fun c => not_slash c = true) second)
  /\ (digits <> [] /\ Forall (fun c => is_digit c = true) digits).
Proof.
  intros E. apply firstMatch_Some in E as (before & here & -> & E).
  apply matchHere_Some in E as ((rest & ->) & Ha & Hb & Hd).
  split; [|tauto].
  replace (prefix ++ first ++ between ++ second ++ lit "/pull-requests/" ++ digits ++ rest)
    with ((prefix ++ first ++ between ++ second ++ lit "/pull-requests/" ++ digits) ++ rest)
    by now rewrite <- !app_assoc.
  apply includes_middle.
Qed.

Lemma request_path_parses project repo prId :
  project <> [] -> Forall (fun c => not_slash c = true) project ->
  repo <> [] -> Forall (fun c => not_slash c = true) repo ->
  prId <> [] -> Forall (fun c => is_digit c = true) prId ->
  parsePRUrl true (serverRequestPath project repo prId)
  = Some (ServerPR project repo prId).
Proof.
  intros Ha Ha' Hb Hb' Hd Hd'. unfold parsePRUrl, serverRequestPath.
  change (lit "/projects/" ++ project ++ lit "/repos/" ++ repo
          ++ lit "/pull-requests/" ++ prId)
    with (47%N :: lit "projects/" ++ project ++ lit "/repos/" ++ repo
               ++ lit "/pull-requests/" ++ prId).
  cbn [firstMatch].
  assert (E0 : matchHere (lit "projects/") (lit "/repos/")
                 (47%N :: lit "projects/" ++ project ++ lit "/repos/" ++ repo
                       ++ lit "/pull-requests/" ++ prId) = None) by reflexivity.
  rewrite E0.
  assert (E1 : matchHere (lit "projects/") (lit "/repos/")
                 (lit "projects/" ++ project ++ lit "/repos/" ++ repo
                  ++ lit "/pull-requests/" ++ prId)
               = Some (project, repo, prId)).
  { unfold matchHere. rewrite afterLiteral_app.
    rewrite (group_run not_slash project) by (try assumption; reflexivity).
    rewrite afterLiteral_app.
    rewrite (group_run not_slash repo) by (try assumption; reflexivity).
    rewrite afterLiteral_app.
    rewrite <- (app_nil_r prId) at 1.
    now rewrite (group_run is_digit prId []). }
  destruct project as [|c project]; [congruence|].
  change (lit "projects/" ++ (c :: project) ++ lit "/repos/" ++ repo
          ++ lit "/pull-requests/" ++ prId)
    with (112%N :: lit "rojects/" ++ (c :: project) ++ lit "/repos/" ++ repo
               ++ lit "/pull-requests/" ++ prId) in *.
  cbn [firstMatch]. now rewrite E1.
Qed.

(** X28. What [parsePRUrl] returns is well formed: the URL contains the
    pattern with the three parts in place, the project (or workspace) and
    the repository are not empty and hold no slash, the id is a non-empty
    run of digits; and for a server, the path that [getPRDetails] requests
    for the parts parses back to the same parts. *)
Theorem parsed_url_is_well_formed :
  forall (isServer : bool) (prUrl : jsstring) (parsed : ParsedUrl),
    parsePRUrl isServer prUrl = Some parsed ->
    match parsed with
    | ServerPR project repo prId =>
        isServer = true
        /\ includes prUrl (lit "projects/" ++ project ++ lit "/repos/" ++ repo
                           ++ lit "/pull-requests/" ++ prId) = true
        /\ (project <> [] /\ Forall (fun c => c <> 47%N) project)
        /\ (repo <> [] /\ Forall (fun c => c <> 47%N) repo)
        /\ (prId <> [] /\ Forall (fun c => is_digit c = true) prId)
        /\ parsePRUrl true (serverRequestPath project repo prId) = Some parsed
    | CloudPR workspace repo prId =>
        isServer = false
        /\ includes prUrl (lit "bitbucket.org/" ++ workspace ++ lit "/" ++ repo
                           ++ lit "/pull-requests/" ++ prId) = true
        /\ (workspace <> [] /\ Forall (fun c => c <> 47%N) workspace)
        /\ (repo <> [] /\ Forall (fun c => c <> 47%N) repo)
        /\ (prId <> [] /\ Forall (fun c => is_digit c = true) prId)
    end.
Proof.
  intros isServer prUrl parsed. unfold parsePRUrl at 1. destruct isServer.
  - destruct (firstMatch _ _ prUrl) as [[[a b] d]|] eqn:E; [|discriminate].
    intros [= <-]. apply firstMatch_sound in E as (Hinc & [Ha Ha'] & [Hb Hb'] & [Hd Hd']).
    repeat split; auto using not_slash_chars.
    now apply request_path_parses.
  - destruct (firstMatch _ _ prUrl) as [[[a b] d]|] eqn:E; [|discriminate].
    intros [= <-]. apply firstMatch_sound in E as (Hinc & [Ha Ha'] & [Hb Hb'] & [Hd Hd']).
    repeat split; auto using not_slash_chars.
Qed.

Lemma parsed_url_is_well_formed_witness :
  true = true
  /\ includes Fixture.serverUrl
              (lit "projects/" ++ lit "PROJ" ++ lit "/repos/" ++ lit "repo-name"
               ++ lit "/pull-requests/" ++ lit "123") = true
  /\ (lit "PROJ" <> [] /\ Forall (fun c => c <> 47%N) (lit "PROJ"))
  /\ (lit "repo-name" <> [] /\ Forall (fun c => c <> 47%N) (lit "repo-name"))
  /\ (lit "123" <> [] /\ Forall (fun c => is_digit c = true) (lit "123"))
  /\ parsePRUrl true (serverRequestPath (lit "PROJ") (lit "repo-name") (lit "123"))
     = Some (ServerPR (lit "PROJ") (lit "repo-name") (lit "123")).
Proof.
  apply (parsed_url_is_well_formed true Fixture.serverUrl
           (ServerPR (lit "PROJ") (lit "repo-name") (lit "123"))).
  vm_compute. reflexivity.
Defined.

(** ** The file list of the details *)

Lemma plainEntry_path e : plainEntry e -> detailsPath e = getPath (ce_file e).
Proof.
  unfold plainEntry, detailsPath, getPath. cbv zeta.
  destruct (rf_path (ce_file e)); [reflexivity|intros []|].
  destruct (truthyPath (rf_new_path (ce_file e))); [reflexivity|].
  destruct (truthyPath (rf_old_path (ce_file e))); [reflexivity|].
  intros [H|H]; congruence.
Qed.

Lemma totalLines_sum files :
  totalLines files
  = List.fold_right
      (fun f sum => linesOr (rf_linesAdded f) (rf_lines_added f)
                    + linesOr (rf_linesRemoved f) (rf_lines_removed f) + sum)
      0 files.
Proof.
  induction files as [|f files IH]; [reflexivity|]. rewrite totalLines_cons, IH. reflexivity.
Qed.

(** X29. For change entries that give their path as a string, or give no
    [path] but the path of their new or old side, the metrics of the
    analysis in the result of [getPRDetails] are those of the file list
    returned beside it: the number of files, the sum of their added and
    removed lines, the number of files on a shared path, and whether all of
    them are style files. *)
Theorem analysis_agrees_with_file_list_on_plain_entries :
  forall (pr : PullRequest) (files : list ChangeEntry),
    Forall plainEntry files ->
    let details := getPRDetails pr files in
    let counted := metrics (pd_analysis details) in
    filesChanged counted = Z.of_nat (length (pd_files details))
    /\ linesChanged counted
       = List.fold_right (fun file sum => fi_linesAdded file + fi_linesRemoved file + sum)
                         0 (pd_files details)
    /\ metric_sharedComponents counted
       = Z.of_nat (length (List.filter (fun file => sharedPath (fi_path file))
                                       (pd_files details)))
    /\ metric_onlyStyleChanges counted
       = List.forallb (fun file => stylePath (fi_path file)) (pd_files details).
Proof.
  intros pr files Hplain. cbv zeta. unfold getPRDetails, analyzePR. cbv zeta.
  cbn [pd_analysis pd_files metrics filesChanged linesChanged metric_sharedComponents
       metric_onlyStyleChanges].
  rewrite !List.length_map. split; [reflexivity|].
  split; [|split].
  - rewrite totalLines_sum. induction files as [|e files IH]; [reflexivity|].
    simpl. inversion Hplain; subst. now rewrite IH.
  - unfold sharedComponents. f_equal.
    induction Hplain as [|e files He _ IH]; [reflexivity|]. simpl.
    unfold touchesShared at 1. cbv zeta. rewrite <- (plainEntry_path e He).
    fold (sharedPath (detailsPath e)). destruct (sharedPath (detailsPath e)); simpl; now rewrite IH.
  - unfold onlyStyleChanges.
    induction Hplain as [|e files He _ IH]; [reflexivity|]. simpl.
    unfold isStyleFile at 1. cbv zeta. rewrite <- (plainEntry_path e He).
    fold (stylePath (detailsPath e)). now rewrite IH.
Qed.

Lemma analysis_agrees_with_file_list_on_plain_entries_witness :
  let details := getPRDetails Sample.loginPR [Fixture.plainFile] in
  let counted := metrics (pd_analysis details) in
  filesChanged counted = Z.of_nat (length (pd_files details))
  /\ linesChanged counted
     = List.fold_right (fun file sum => fi_linesAdded file + fi_linesRemoved file + sum)
                       0 (pd_files details)
  /\ metric_sharedComponents counted
     = Z.of_nat (length (List.filter (fun file => sharedPath (fi_path file))
                                     (pd_files details)))
  /\ metric_onlyStyleChanges counted
     = List.forallb (fun file => stylePath (fi_path file)) (pd_files details).
Proof.
  apply (analysis_agrees_with_file_list_on_plain_entries Sample.loginPR [Fixture.plainFile]).
  repeat constructor.
Defined.

(** X30. For a change entry of a server, whose path is an object with the
    fragments [parent], [name] and [extension] ahead of the whole path in
    [toString], the file list of [getPRDetails] carries the whole path,
    while the analysis beside it reads the parent folder: whether the change
    is style-only and whether it touches a shared path are decided on the
    folder. *)
Theorem server_entry_is_analysed_by_its_parent_folder :
  forall (pr : PullRequest) (e : ChangeEntry) (parent name extension whole : jsstring),
    rf_path (ce_file e) = serverPath parent name extension whole ->
    let details := getPRDetails pr [e] in
    List.map fi_path (pd_files details) = [whole]
    /\ metric_onlyStyleChanges (metrics (pd_analysis details)) = stylePath parent
    /\ metric_sharedComponents (metrics (pd_analysis details))
       = if sharedPath parent then 1 else 0.
Proof.
  intros pr e parent name extension whole Hpath. cbv zeta.
  assert (Hd : detailsPath e = whole).
  { unfold detailsPath. cbv zeta. rewrite Hpath. reflexivity. }
  assert (Hg : getPath (ce_file e) = parent).
  { unfold getPath. cbv zeta. rewrite Hpath. reflexivity. }
  unfold getPRDetails, analyzePR. cbv zeta.
  cbn [pd_analysis pd_files metrics metric_sharedComponents metric_onlyStyleChanges List.map].
  rewrite Hd. split; [reflexivity|].
  unfold onlyStyleChanges, sharedComponents, isStyleFile, touchesShared. cbv zeta.
  cbn [List.forallb List.filter]. rewrite Hg. fold (stylePath parent) (sharedPath parent).
  split; [apply andb_true_r|]. now destruct (sharedPath parent).
Qed.

Lemma server_entry_is_analysed_by_its_parent_folder_witness :
  let details := getPRDetails Sample.loginPR [Fixture.serverEntry] in
  List.map fi_path (pd_files details) = [lit "src/app/login.css"]
  /\ metric_onlyStyleChanges (metrics (pd_analysis details)) = stylePath (lit "src/app")
  /\ metric_sharedComponents (metrics (pd_analysis details))
     = if sharedPath (lit "src/app") then 1 else 0.
Proof.
  apply (server_entry_is_analysed_by_its_parent_folder Sample.loginPR Fixture.serverEntry
           (lit "src/app") (lit "login.css") (lit "css") (lit "src/app/login.css")).
  reflexivity.
Defined.
